(** * tabstijl: the table layout and rendering engine of [src/main.cpp]

    A shallow embedding of the core of [main.cpp]: the stdin tokenizer and
    row collector, the header substitution, the column-width pass, the cell
    aligner [align_text], the border renderer [get_tab_border] and the
    rendering loop of [main].

    Conventions.
    - A [std::string] is a sequence of bytes, [list ascii].
    - A [size_t] or [int] value is a [Z]; conversions between the two and
      the wrap-around of their arithmetic are written out ([to_size],
      [to_int]).
    - A [std::vector] is a list; [v[i]] is the lookup [v !! i], and an access
      outside the vector (undefined behaviour in C++) is the fault [None] of
      the option monad.
    - An output stream is the list of the operands written to it with [<<],
      in order; the text it holds is their concatenation. *)

From stdpp Require Import base option list numbers strings.
From Stdlib Require Import Ascii.

Local Open Scope Z_scope.

(** ** Strings, streams and machine integers *)

Abbreviation str := (list ascii).
Abbreviation ostream := (list (list ascii)).

(** A string literal of the source. *)
Definition lit (s : string) : str := String.list_ascii_of_string s.

(** [std::string::length], as a [size_t]. *)
Definition strlen (s : str) : Z := Z.of_nat (length s).

(** [std::string(n, c)]: [n] copies of [c]. *)
Definition string_n (n : Z) (c : ascii) : str := replicate (Z.to_nat n) c.

(** [ostringstream::str] and the text held by [cout]. *)
Definition oss_str (o : ostream) : str := concat o.

(** Conversion to [size_t] (64 bits, unsigned). *)
Definition to_size (z : Z) : Z := z `mod` 2 ^ 64.

(** Conversion to [int] (32 bits, two's complement). *)
Definition to_int (z : Z) : Z := (z + 2 ^ 31) `mod` 2 ^ 32 - 2 ^ 31.

(** ** Constants of [main.cpp] *)

Definition ESC : ascii := ascii_of_nat 27.

Definition BOLD : str := ESC :: lit "[1m".
Definition DEFAULT : str := ESC :: lit "[0m".
Definition INVERSE : str := ESC :: lit "[7m".
Definition ITALIC : str := ESC :: lit "[3m".
Definition STRIKETHROUGH : str := ESC :: lit "[9m".
Definition UNDERLINE : str := ESC :: lit "[4m".

Definition BLACK : str := ESC :: lit "[30m".
Definition BLUE : str := ESC :: lit "[34m".
Definition CYAN : str := ESC :: lit "[36m".
Definition GREEN : str := ESC :: lit "[32m".
Definition MAGENTA : str := ESC :: lit "[35m".
Definition RED : str := ESC :: lit "[31m".
Definition WHITE : str := ESC :: lit "[37m".
Definition YELLOW : str := ESC :: lit "[33m".

Definition BG_BLACK : str := ESC :: lit "[40m".
Definition BG_BLUE : str := ESC :: lit "[44m".
Definition BG_CYAN : str := ESC :: lit "[46m".
Definition BG_GREEN : str := ESC :: lit "[42m".
Definition BG_MAGENTA : str := ESC :: lit "[45m".
Definition BG_RED : str := ESC :: lit "[41m".
Definition BG_WHITE : str := ESC :: lit "[47m".
Definition BG_YELLOW : str := ESC :: lit "[43m".

Definition NEWLINE : ascii := ascii_of_nat 10.
Definition SPACE : ascii := ascii_of_nat 32.
Definition TAB : ascii := ascii_of_nat 9.
Definition VOID : ascii := ascii_of_nat 0.

Definition ALIGN_LEFT : str := lit "left".
Definition ALIGN_CENTER : str := lit "center".
Definition ALIGN_RIGHT : str := lit "right".

(** [std::endl] writes a newline (and flushes). *)
Definition endl : str := [NEWLINE].

(** ** [align_text] *)

(** The three branches compare the directive with ["right"], then
    ["center"], and fall back to left alignment. The padding counts are
    [size_t] values guarded by [tab_col_width > string_length]. *)
Definition align_text (string_to_align : str) (tab_col_width : Z)
    (text_alignment : str) : Z * str :=
  let string_length := strlen string_to_align in
  if decide (text_alignment = ALIGN_RIGHT) then
    let col_padding :=
      if decide (tab_col_width > string_length)
      then tab_col_width - string_length else 0 in
    (tab_col_width, string_n col_padding SPACE ++ string_to_align)
  else if decide (text_alignment = ALIGN_CENTER) then
    let col_total_padding :=
      if decide (tab_col_width > string_length)
      then tab_col_width - string_length else 0 in
    let col_left_padding := col_total_padding `div` 2 in
    let col_right_padding := col_total_padding - col_left_padding in
    (tab_col_width,
     string_n col_left_padding SPACE ++ string_to_align
       ++ string_n col_right_padding SPACE)
  else
    (tab_col_width,
     string_to_align
       ++ string_n (if decide (tab_col_width > string_length)
                    then tab_col_width - string_length else 0) SPACE).

(** ** Border styles *)

(** [border_top], [border_separator] and [border_bottom] are three structs
    with the same four string fields; one record stands for the three. *)
Record border_line := {
  left_char_unicode : str;
  mid_char_unicode : str;
  right_char_unicode : str;
  fill_char_unicode : str;
}.

Abbreviation border_top := border_line.
Abbreviation border_separator := border_line.
Abbreviation border_bottom := border_line.

Record tab_border := {
  top : border_top;
  separator : border_separator;
  bottom : border_bottom;
  vertical_line : str;
}.

(** The default single-line style of [main]. *)
Definition tab_border_style_default : tab_border := {|
  top := {| left_char_unicode := lit "┌"; mid_char_unicode := lit "┬";
            right_char_unicode := lit "┐"; fill_char_unicode := lit "─" |};
  separator := {| left_char_unicode := lit "├"; mid_char_unicode := lit "┼";
                  right_char_unicode := lit "┤"; fill_char_unicode := lit "─" |};
  bottom := {| left_char_unicode := lit "└"; mid_char_unicode := lit "┴";
               right_char_unicode := lit "┘"; fill_char_unicode := lit "─" |};
  vertical_line := lit "│";
|}.

(** ** Loops *)

(** A [for] loop whose body may fault: the state is threaded through the
    iterations from left to right and the first fault ends the run. *)
Fixpoint for_each {A S : Type} (body : S → A → option S) (s : S)
    (l : list A) : option S :=
  match l with
  | [] => Some s
  | x :: l' => s' ← body s x; for_each body s' l'
  end.

(** The values taken by [for (size_t i = 0; i < n; ++i)]. *)
Definition range (n : nat) : list nat := seq 0 n.

(** ** [get_tab_border] *)

(** [for (index ...) max_col_width += col_width[index]]: an [int]
    accumulator, each addition done in [size_t] and converted back. *)
Definition border_total (col_width : list Z) : Z :=
  foldl (λ max_col_width w, to_int (to_size (to_size max_col_width + w)))
        0 col_width.

(** The inner loop over [nd_index]: one fill glyph per step, and the
    junction glyph after the fill when the step is the last of the column
    and [temp_col_width < max_col_width - 1]. *)
Definition border_column_fill (w temp_col_width max_col_width : Z)
    (mid_char_unicode fill_char_unicode : str) : ostream :=
  flat_map
    (λ nd_index : nat,
       fill_char_unicode ::
       (if bool_decide (Z.of_nat nd_index = to_size (w - 1))
           && bool_decide (temp_col_width < to_int (max_col_width - 1))
        then [mid_char_unicode] else []))
    (range (Z.to_nat w)).

(** One step of the outer loop over [st_index]; the state is
    [temp_col_width] and the stream. *)
Definition border_column (col_width : list Z) (max_col_width : Z)
    (mid_char_unicode fill_char_unicode : str)
    (acc : Z * ostream) (st_index : nat) : option (Z * ostream) :=
  w ← col_width !! st_index;
  let temp_col_width := to_int (to_size (to_size acc.1 + to_size (w - 1))) in
  Some (temp_col_width,
        acc.2 ++ border_column_fill w temp_col_width max_col_width
                   mid_char_unicode fill_char_unicode).

(** The operands written to [result_oss], in order. *)
Definition get_tab_border_oss (max_col_count : nat) (col_width : list Z)
    (left_char_unicode mid_char_unicode right_char_unicode
       fill_char_unicode table_color : str) : option ostream :=
  let max_col_width := border_total col_width in
  let max_col_width :=
    to_int (to_size (to_size max_col_width
                     - to_size (Z.of_nat (length col_width) - 1))) in
  acc ← for_each
           (border_column col_width max_col_width
              mid_char_unicode fill_char_unicode)
           (0, [table_color; left_char_unicode]) (range max_col_count);
  Some (acc.2 ++ [right_char_unicode; DEFAULT; endl]).

Definition get_tab_border (max_col_count : nat) (col_width : list Z)
    (left_char_unicode mid_char_unicode right_char_unicode
       fill_char_unicode table_color : str) : option str :=
  oss_str <$> get_tab_border_oss max_col_count col_width
                left_char_unicode mid_char_unicode right_char_unicode
                fill_char_unicode table_color.

(** ** [is_wspace] *)

(** [isspace] of the C locale on a byte: space and the control characters
    9 to 13. *)
Definition isspace (c : ascii) : bool :=
  let n := nat_of_ascii c in
  bool_decide (n = 32%nat) || (bool_decide (9 ≤ n)%nat && bool_decide (n ≤ 13)%nat).

Definition is_wspace (current_char col_separator : ascii) : bool :=
  if decide (col_separator ∈ [NEWLINE; SPACE; TAB]) then
    bool_decide (current_char = col_separator)
    || bool_decide (current_char = NEWLINE)
  else isspace current_char.

(** ** Configuration: the variables of [main] set by the option handlers *)

Record config := {
  headerless : bool;
  exclude_first_line : bool;
  use_border : bool;
  use_separator : bool;
  table_color : str;
  header_text_color : str;
  body_text_color : str;
  header_bg_color : str;
  body_bg_color : str;
  header_text_style : str;
  body_text_style : str;
  header_text_align : str;
  body_text_align : str;
  usrinput_header_data : list str;
  col_separator : ascii;
  tab_border_style : tab_border;
  col_padding : Z;
}.

(** The values of these variables when no option is given. *)
Definition default_config : config := {|
  headerless := false;
  exclude_first_line := false;
  use_border := true;
  use_separator := true;
  table_color := [];
  header_text_color := [];
  body_text_color := [];
  header_bg_color := [];
  body_bg_color := [];
  header_text_style := [];
  body_text_style := [];
  header_text_align := ALIGN_LEFT;
  body_text_align := ALIGN_LEFT;
  usrinput_header_data := [];
  col_separator := SPACE;
  tab_border_style := tab_border_style_default;
  col_padding := 2;
|}.

(** *** The assignments made by the option handlers *)

(** [-b], [--borderless]: the value of [use_border]. *)
Definition set_use_border (v : bool) (cfg : config) : config := {|
  headerless := headerless cfg;
  exclude_first_line := exclude_first_line cfg;
  use_border := v;
  use_separator := use_separator cfg;
  table_color := table_color cfg;
  header_text_color := header_text_color cfg;
  body_text_color := body_text_color cfg;
  header_bg_color := header_bg_color cfg;
  body_bg_color := body_bg_color cfg;
  header_text_style := header_text_style cfg;
  body_text_style := body_text_style cfg;
  header_text_align := header_text_align cfg;
  body_text_align := body_text_align cfg;
  usrinput_header_data := usrinput_header_data cfg;
  col_separator := col_separator cfg;
  tab_border_style := tab_border_style cfg;
  col_padding := col_padding cfg;
|}.

(** [--hdata=...]: the header names. *)
Definition set_usrinput_header_data (v : list str) (cfg : config) : config := {|
  headerless := headerless cfg;
  exclude_first_line := exclude_first_line cfg;
  use_border := use_border cfg;
  use_separator := use_separator cfg;
  table_color := table_color cfg;
  header_text_color := header_text_color cfg;
  body_text_color := body_text_color cfg;
  header_bg_color := header_bg_color cfg;
  body_bg_color := body_bg_color cfg;
  header_text_style := header_text_style cfg;
  body_text_style := body_text_style cfg;
  header_text_align := header_text_align cfg;
  body_text_align := body_text_align cfg;
  usrinput_header_data := v;
  col_separator := col_separator cfg;
  tab_border_style := tab_border_style cfg;
  col_padding := col_padding cfg;
|}.

(** [--padding=VALUE]. *)
Definition set_col_padding (v : Z) (cfg : config) : config := {|
  headerless := headerless cfg;
  exclude_first_line := exclude_first_line cfg;
  use_border := use_border cfg;
  use_separator := use_separator cfg;
  table_color := table_color cfg;
  header_text_color := header_text_color cfg;
  body_text_color := body_text_color cfg;
  header_bg_color := header_bg_color cfg;
  body_bg_color := body_bg_color cfg;
  header_text_style := header_text_style cfg;
  body_text_style := body_text_style cfg;
  header_text_align := header_text_align cfg;
  body_text_align := body_text_align cfg;
  usrinput_header_data := usrinput_header_data cfg;
  col_separator := col_separator cfg;
  tab_border_style := tab_border_style cfg;
  col_padding := v;
|}.

(** [--separator=...]. *)
Definition set_col_separator (v : ascii) (cfg : config) : config := {|
  headerless := headerless cfg;
  exclude_first_line := exclude_first_line cfg;
  use_border := use_border cfg;
  use_separator := use_separator cfg;
  table_color := table_color cfg;
  header_text_color := header_text_color cfg;
  body_text_color := body_text_color cfg;
  header_bg_color := header_bg_color cfg;
  body_bg_color := body_bg_color cfg;
  header_text_style := header_text_style cfg;
  body_text_style := body_text_style cfg;
  header_text_align := header_text_align cfg;
  body_text_align := body_text_align cfg;
  usrinput_header_data := usrinput_header_data cfg;
  col_separator := v;
  tab_border_style := tab_border_style cfg;
  col_padding := col_padding cfg;
|}.

(** [--tab-color=COLOR]. *)
Definition set_table_color (v : str) (cfg : config) : config := {|
  headerless := headerless cfg;
  exclude_first_line := exclude_first_line cfg;
  use_border := use_border cfg;
  use_separator := use_separator cfg;
  table_color := v;
  header_text_color := header_text_color cfg;
  body_text_color := body_text_color cfg;
  header_bg_color := header_bg_color cfg;
  body_bg_color := body_bg_color cfg;
  header_text_style := header_text_style cfg;
  body_text_style := body_text_style cfg;
  header_text_align := header_text_align cfg;
  body_text_align := body_text_align cfg;
  usrinput_header_data := usrinput_header_data cfg;
  col_separator := col_separator cfg;
  tab_border_style := tab_border_style cfg;
  col_padding := col_padding cfg;
|}.

(** [-s], [--simplify]: [headerless = true; exclude_first_line = headerless]. *)
Definition simplify (cfg : config) : config := {|
  headerless := true;
  exclude_first_line := true;
  use_border := use_border cfg;
  use_separator := use_separator cfg;
  table_color := table_color cfg;
  header_text_color := header_text_color cfg;
  body_text_color := body_text_color cfg;
  header_bg_color := header_bg_color cfg;
  body_bg_color := body_bg_color cfg;
  header_text_style := header_text_style cfg;
  body_text_style := body_text_style cfg;
  header_text_align := header_text_align cfg;
  body_text_align := body_text_align cfg;
  usrinput_header_data := usrinput_header_data cfg;
  col_separator := col_separator cfg;
  tab_border_style := tab_border_style cfg;
  col_padding := col_padding cfg;
|}.

(** ** The standard input parsing loop of [main] *)

Record reader := {
  cmdout_char_queue : str;
  temp_row_data : list str;
  cmdout_tab_data : list (list str);
  first_line : bool;
}.

Definition reader_init : reader := {|
  cmdout_char_queue := [];
  temp_row_data := [];
  cmdout_tab_data := [];
  first_line := true;
|}.

(** The body of [while ((cmdout_char = getchar()) != EOF)] for one
    character. *)
Definition read_char (cfg : config) (r : reader) (cmdout_char : ascii)
    : reader :=
  if is_wspace cmdout_char (col_separator cfg) then
    (* convert the queued characters into a token *)
    let r1 :=
      if bool_decide (cmdout_char_queue r ≠ []) then
        let cmdout_token := cmdout_char_queue r in
        {| cmdout_char_queue := [];
           temp_row_data :=
             if bool_decide (cmdout_token ≠ [])
                && (negb (first_line r) || negb (exclude_first_line cfg))
             then temp_row_data r ++ [cmdout_token]
             else temp_row_data r;
           cmdout_tab_data := cmdout_tab_data r;
           first_line := first_line r |}
      else r in
    if bool_decide (cmdout_char = NEWLINE) then
      if first_line r1 && exclude_first_line cfg then
        {| cmdout_char_queue := cmdout_char_queue r1;
           temp_row_data := temp_row_data r1;
           cmdout_tab_data := cmdout_tab_data r1;
           first_line := false |}
      else if bool_decide (temp_row_data r1 ≠ []) then
        {| cmdout_char_queue := cmdout_char_queue r1;
           temp_row_data := [];
           cmdout_tab_data := cmdout_tab_data r1 ++ [temp_row_data r1];
           first_line := first_line r1 |}
      else r1
    else r1
  else
    {| cmdout_char_queue := cmdout_char_queue r ++ [cmdout_char];
       temp_row_data := temp_row_data r;
       cmdout_tab_data := cmdout_tab_data r;
       first_line := first_line r |}.

(** The final token and row flush after EOF; [first_line] is set again for
    the rendering loop. *)
Definition flush_eof (r : reader) : list (list str) :=
  let temp_row_data :=
    if bool_decide (cmdout_char_queue r ≠ []) then
      let cmdout_token := cmdout_char_queue r in
      if bool_decide (cmdout_token ≠ [])
      then temp_row_data r ++ [cmdout_token] else temp_row_data r
    else temp_row_data r in
  if bool_decide (temp_row_data ≠ [])
  then cmdout_tab_data r ++ [temp_row_data] else cmdout_tab_data r.

(** The table collected from the whole of standard input. *)
Definition read_stdin (cfg : config) (stdin : str) : list (list str) :=
  flush_eof (foldl (read_char cfg) reader_init stdin).

(** ** Header data, column count and column widths *)

(** [cmdout_tab_data[0] = usrinput_header_data] when header data was given
    and the first line is not excluded. *)
Definition set_header (cfg : config) (cmdout_tab_data : list (list str))
    : option (list (list str)) :=
  if bool_decide (usrinput_header_data cfg ≠ [])
     && negb (exclude_first_line cfg) then
    _ ← cmdout_tab_data !! 0%nat;
    Some (<[0%nat := usrinput_header_data cfg]> cmdout_tab_data)
  else Some cmdout_tab_data.

Definition get_max_col_count (cmdout_tab_data : list (list str)) : nat :=
  foldl (λ max_col_count tab_row, max max_col_count (length tab_row))
        0%nat cmdout_tab_data.

(** [tab_col_width[index] = max(tab_col_width[index], tab_row[index].length())]. *)
Definition widen_cell (tab_row : list str) (tab_col_width : list Z)
    (index : nat) : option (list Z) :=
  w ← tab_col_width !! index;
  cell ← tab_row !! index;
  Some (<[index := Z.max w (strlen cell)]> tab_col_width).

Definition widen_row (tab_col_width : list Z) (tab_row : list str)
    : option (list Z) :=
  for_each (widen_cell tab_row) tab_col_width (range (length tab_row)).

(** [for (auto& col_width : tab_col_width) col_width += col_padding]: a
    [size_t] incremented by an [int]. *)
Definition add_padding (cfg : config) (tab_col_width : list Z) : list Z :=
  (λ col_width, to_size (col_width + to_size (col_padding cfg)))
    <$> tab_col_width.

(** The resize, the pass over all cells, and the padding. *)
Definition get_tab_col_width (cfg : config) (max_col_count : nat)
    (cmdout_tab_data : list (list str)) : option (list Z) :=
  let tab_col_width := replicate max_col_count 0 in
  tab_col_width ← for_each widen_row tab_col_width cmdout_tab_data;
  Some (add_padding cfg tab_col_width).

(** ** The rendering loop of [main] *)

(** [setw(n) << left << s]: [s] filled with spaces on the right up to the
    field width [n], an [int]. *)
Definition setw_left (n : Z) (s : str) : str :=
  s ++ string_n (to_int n - strlen s) SPACE.

Definition render_cell (cfg : config) (first_line : bool)
    (tab_col_width : list Z) (tab_row : list str)
    (cout : ostream) (index : nat) : option ostream :=
  tab_cell ← (if bool_decide (index < length tab_row)%nat
              then tab_row !! index else Some []);
  w ← tab_col_width !! index;
  let tab_col_data :=
    align_text tab_cell w
      (if first_line && negb (headerless cfg) then header_text_align cfg
       else if negb first_line || headerless cfg then body_text_align cfg
       else ALIGN_LEFT) in
  Some (cout ++
    [ if first_line && negb (headerless cfg)
      then header_text_style cfg ++ header_bg_color cfg ++ header_text_color cfg
      else [];
      if negb first_line || headerless cfg
      then body_text_style cfg ++ body_bg_color cfg ++ body_text_color cfg
      else [];
      setw_left tab_col_data.1 tab_col_data.2;
      DEFAULT;
      table_color cfg;
      if use_border cfg then vertical_line (tab_border_style cfg) else [] ]).

Definition border_of (cfg : config) (max_col_count : nat)
    (tab_col_width : list Z) (b : border_line) : option str :=
  get_tab_border max_col_count tab_col_width
    (left_char_unicode b) (mid_char_unicode b) (right_char_unicode b)
    (fill_char_unicode b) (table_color cfg).

(** The body of [for (const auto &tab_row : cmdout_tab_data)]; the state is
    [first_line] and what was written to [cout]. *)
Definition render_row (cfg : config) (max_col_count : nat)
    (tab_col_width : list Z) (acc : bool * ostream) (tab_row : list str)
    : option (bool * ostream) :=
  let first_line := acc.1 in
  cout ← (if first_line && use_border cfg then
            b ← border_of cfg max_col_count tab_col_width
                   (top (tab_border_style cfg));
            Some (acc.2 ++ [b])
          else Some acc.2);
  let cout :=
    if use_border cfg
    then cout ++ [table_color cfg; vertical_line (tab_border_style cfg); DEFAULT]
    else cout in
  cout ← for_each (render_cell cfg first_line tab_col_width tab_row)
           cout (range max_col_count);
  let cout := cout ++ [endl] in
  cout ← (if first_line && negb (headerless cfg) && use_border cfg
             && use_separator cfg then
            b ← border_of cfg max_col_count tab_col_width
                   (separator (tab_border_style cfg));
            Some (cout ++ [b])
          else Some cout);
  Some (false, cout).

(** The rows, then the bottom border. *)
Definition render_table (cfg : config) (max_col_count : nat)
    (tab_col_width : list Z) (cmdout_tab_data : list (list str))
    : option ostream :=
  acc ← for_each (render_row cfg max_col_count tab_col_width)
           (true, []) cmdout_tab_data;
  if use_border cfg then
    b ← border_of cfg max_col_count tab_col_width
           (bottom (tab_border_style cfg));
    Some (acc.2 ++ [b])
  else Some acc.2.

(** ** [main], after the option handlers *)

(** What [main] writes to [cout] for a configuration and the contents of
    standard input, or [None] when it accesses a vector out of bounds. *)
Definition main (cfg : config) (stdin : str) : option ostream :=
  let cmdout_tab_data := read_stdin cfg stdin in
  cmdout_tab_data ← set_header cfg cmdout_tab_data;
  let max_col_count := get_max_col_count cmdout_tab_data in
  tab_col_width ← get_tab_col_width cfg max_col_count cmdout_tab_data;
  render_table cfg max_col_count tab_col_width cmdout_tab_data.

(** The text on standard output. *)
Definition main_output (cfg : config) (stdin : str) : option str :=
  oss_str <$> main cfg stdin.

(** * The option handlers of [main]

    The loop of [main] over [argv]: each handler either assigns
    configuration variables and continues with the next argument, or
    returns from [main]. What the handlers write to [cout] and [cerr] (the
    error messages, the help and version texts) is not part of the model;
    a handler that returns gives the return value of [main]. *)

(** ** Searches in a [std::string] *)

(** [pat] occurs in [s] at index [i]. *)
Definition occurs_at (s pat : str) (i : nat) : bool :=
  bool_decide (i + length pat ≤ length s)%nat
  && bool_decide (take (length pat) (drop i s) = pat).

(** [s.find(pat, pos)]: the first occurrence at [pos] or after, [None] for
    [npos]. *)
Definition str_find (s pat : str) (pos : nat) : option nat :=
  head (filter (λ i, occurs_at s pat i = true) (seq pos (S (length s) - pos))).

(** [s.rfind(pat, pos)]: the last occurrence that starts at [pos] or
    before. *)
Definition str_rfind (s pat : str) (pos : nat) : option nat :=
  last (filter (λ i, occurs_at s pat i = true) (seq 0 (S pos))).

(** ** [starts_with] *)

Definition starts_with (domain_string string_to_find : str) : bool :=
  bool_decide (str_rfind domain_string string_to_find 0 = Some 0%nat).

(** ** [std::stoi]

    Base 10, as [strtol] reads it: white space is skipped, a sign may
    follow, then the longest run of digits; what comes after is ignored.
    Without a digit the conversion throws [invalid_argument]; a value that
    does not fit an [int] throws [out_of_range]. *)

Inductive stoi_result :=
  | StoiValue (v : Z)
  | StoiInvalidArgument
  | StoiOutOfRange.

Fixpoint skip_spaces (s : str) : str :=
  match s with
  | c :: s' => if isspace c then skip_spaces s' else s
  | [] => []
  end.

Definition is_digit (c : ascii) : bool :=
  bool_decide (48 ≤ nat_of_ascii c)%nat && bool_decide (nat_of_ascii c ≤ 57)%nat.

Fixpoint leading_digits (s : str) : str :=
  match s with
  | c :: s' => if is_digit c then c :: leading_digits s' else []
  | [] => []
  end.

Definition decimal_value (digits : str) : Z :=
  foldl (λ v c, 10 * v + (Z.of_nat (nat_of_ascii c) - 48)) 0 digits.

Definition stoi (s : str) : stoi_result :=
  let s := skip_spaces s in
  let '(negative, s) :=
    match s with
    | c :: s' =>
        if bool_decide (c = "-"%char) then (true, s')
        else if bool_decide (c = "+"%char) then (false, s')
        else (false, s)
    | [] => (false, s)
    end in
  let digits := leading_digits s in
  if bool_decide (digits = []) then StoiInvalidArgument
  else
    let v := if negative then - decimal_value digits else decimal_value digits in
    if bool_decide (- 2 ^ 31 ≤ v) && bool_decide (v < 2 ^ 31)
    then StoiValue v else StoiOutOfRange.

(** ** [getline] on the header data *)

(** [getline(ss, token, delim)] on a stream with the characters [ss] left:
    the characters up to the first [delim], which is consumed, or up to the
    end; it fails when nothing is left. *)
Fixpoint until_delim (delim : ascii) (ss : str) : str * str :=
  match ss with
  | [] => ([], [])
  | c :: ss' =>
      if bool_decide (c = delim) then ([], ss')
      else let '(token, rest) := until_delim delim ss' in (c :: token, rest)
  end.

Definition getline (ss : str) (delim : ascii) : option (str * str) :=
  if bool_decide (ss = []) then None else Some (until_delim delim ss).

(** [while (getline(ss, token, ',')) usrinput_header_data.push_back(token)]:
    every turn consumes a character, so [fuel] turns are enough for a
    stream of fewer than [fuel] characters. *)
Fixpoint getline_loop (fuel : nat) (ss : str) (usrinput_header_data : list str)
    : list str :=
  match fuel with
  | O => usrinput_header_data
  | S fuel =>
      match getline ss ","%char with
      | None => usrinput_header_data
      | Some (option_value_token, ss') =>
          getline_loop fuel ss' (usrinput_header_data ++ [option_value_token])
      end
  end.

Definition push_header_data (option_value : str)
    (usrinput_header_data : list str) : list str :=
  getline_loop (S (length option_value)) option_value usrinput_header_data.

(** ** The other border styles of [main] *)

Definition double_border_style : tab_border := {|
  top := {| left_char_unicode := lit "╔"; mid_char_unicode := lit "╦";
            right_char_unicode := lit "╗"; fill_char_unicode := lit "═" |};
  separator := {| left_char_unicode := lit "╠"; mid_char_unicode := lit "╬";
            right_char_unicode := lit "╣"; fill_char_unicode := lit "═" |};
  bottom := {| left_char_unicode := lit "╚"; mid_char_unicode := lit "╩";
            right_char_unicode := lit "╝"; fill_char_unicode := lit "═" |};
  vertical_line := lit "║";
|}.

Definition heavy_border_style : tab_border := {|
  top := {| left_char_unicode := lit "┏"; mid_char_unicode := lit "┳";
            right_char_unicode := lit "┓"; fill_char_unicode := lit "━" |};
  separator := {| left_char_unicode := lit "┣"; mid_char_unicode := lit "╋";
            right_char_unicode := lit "┫"; fill_char_unicode := lit "━" |};
  bottom := {| left_char_unicode := lit "┗"; mid_char_unicode := lit "┻";
            right_char_unicode := lit "┛"; fill_char_unicode := lit "━" |};
  vertical_line := lit "┃";
|}.

Definition star_border_style : tab_border := {|
  top := {| left_char_unicode := lit "✲"; mid_char_unicode := lit "✲";
            right_char_unicode := lit "✲"; fill_char_unicode := lit "✲" |};
  separator := {| left_char_unicode := lit "✲"; mid_char_unicode := lit "✲";
            right_char_unicode := lit "✲"; fill_char_unicode := lit "✲" |};
  bottom := {| left_char_unicode := lit "✲"; mid_char_unicode := lit "✲";
            right_char_unicode := lit "✲"; fill_char_unicode := lit "✲" |};
  vertical_line := lit "║";
|}.

(** ** More assignments *)

(** [use_separator = v]. *)
Definition set_use_separator (v : bool) (cfg : config) : config := {|
  headerless := headerless cfg;
  exclude_first_line := exclude_first_line cfg;
  use_border := use_border cfg;
  use_separator := v;
  table_color := table_color cfg;
  header_text_color := header_text_color cfg;
  body_text_color := body_text_color cfg;
  header_bg_color := header_bg_color cfg;
  body_bg_color := body_bg_color cfg;
  header_text_style := header_text_style cfg;
  body_text_style := body_text_style cfg;
  header_text_align := header_text_align cfg;
  body_text_align := body_text_align cfg;
  usrinput_header_data := usrinput_header_data cfg;
  col_separator := col_separator cfg;
  tab_border_style := tab_border_style cfg;
  col_padding := col_padding cfg;
|}.

(** [tab_border_style = v]. *)
Definition set_tab_border_style (v : tab_border) (cfg : config) : config := {|
  headerless := headerless cfg;
  exclude_first_line := exclude_first_line cfg;
  use_border := use_border cfg;
  use_separator := use_separator cfg;
  table_color := table_color cfg;
  header_text_color := header_text_color cfg;
  body_text_color := body_text_color cfg;
  header_bg_color := header_bg_color cfg;
  body_bg_color := body_bg_color cfg;
  header_text_style := header_text_style cfg;
  body_text_style := body_text_style cfg;
  header_text_align := header_text_align cfg;
  body_text_align := body_text_align cfg;
  usrinput_header_data := usrinput_header_data cfg;
  col_separator := col_separator cfg;
  tab_border_style := v;
  col_padding := col_padding cfg;
|}.

(** [header_text_align = v]. *)
Definition set_header_text_align (v : str) (cfg : config) : config := {|
  headerless := headerless cfg;
  exclude_first_line := exclude_first_line cfg;
  use_border := use_border cfg;
  use_separator := use_separator cfg;
  table_color := table_color cfg;
  header_text_color := header_text_color cfg;
  body_text_color := body_text_color cfg;
  header_bg_color := header_bg_color cfg;
  body_bg_color := body_bg_color cfg;
  header_text_style := header_text_style cfg;
  body_text_style := body_text_style cfg;
  header_text_align := v;
  body_text_align := body_text_align cfg;
  usrinput_header_data := usrinput_header_data cfg;
  col_separator := col_separator cfg;
  tab_border_style := tab_border_style cfg;
  col_padding := col_padding cfg;
|}.

(** [body_text_align = v]. *)
Definition set_body_text_align (v : str) (cfg : config) : config := {|
  headerless := headerless cfg;
  exclude_first_line := exclude_first_line cfg;
  use_border := use_border cfg;
  use_separator := use_separator cfg;
  table_color := table_color cfg;
  header_text_color := header_text_color cfg;
  body_text_color := body_text_color cfg;
  header_bg_color := header_bg_color cfg;
  body_bg_color := body_bg_color cfg;
  header_text_style := header_text_style cfg;
  body_text_style := body_text_style cfg;
  header_text_align := header_text_align cfg;
  body_text_align := v;
  usrinput_header_data := usrinput_header_data cfg;
  col_separator := col_separator cfg;
  tab_border_style := tab_border_style cfg;
  col_padding := col_padding cfg;
|}.

(** [header_bg_color = v]. *)
Definition set_header_bg_color (v : str) (cfg : config) : config := {|
  headerless := headerless cfg;
  exclude_first_line := exclude_first_line cfg;
  use_border := use_border cfg;
  use_separator := use_separator cfg;
  table_color := table_color cfg;
  header_text_color := header_text_color cfg;
  body_text_color := body_text_color cfg;
  header_bg_color := v;
  body_bg_color := body_bg_color cfg;
  header_text_style := header_text_style cfg;
  body_text_style := body_text_style cfg;
  header_text_align := header_text_align cfg;
  body_text_align := body_text_align cfg;
  usrinput_header_data := usrinput_header_data cfg;
  col_separator := col_separator cfg;
  tab_border_style := tab_border_style cfg;
  col_padding := col_padding cfg;
|}.

(** [body_bg_color = v]. *)
Definition set_body_bg_color (v : str) (cfg : config) : config := {|
  headerless := headerless cfg;
  exclude_first_line := exclude_first_line cfg;
  use_border := use_border cfg;
  use_separator := use_separator cfg;
  table_color := table_color cfg;
  header_text_color := header_text_color cfg;
  body_text_color := body_text_color cfg;
  header_bg_color := header_bg_color cfg;
  body_bg_color := v;
  header_text_style := header_text_style cfg;
  body_text_style := body_text_style cfg;
  header_text_align := header_text_align cfg;
  body_text_align := body_text_align cfg;
  usrinput_header_data := usrinput_header_data cfg;
  col_separator := col_separator cfg;
  tab_border_style := tab_border_style cfg;
  col_padding := col_padding cfg;
|}.

(** [header_text_style = v]. *)
Definition set_header_text_style (v : str) (cfg : config) : config := {|
  headerless := headerless cfg;
  exclude_first_line := exclude_first_line cfg;
  use_border := use_border cfg;
  use_separator := use_separator cfg;
  table_color := table_color cfg;
  header_text_color := header_text_color cfg;
  body_text_color := body_text_color cfg;
  header_bg_color := header_bg_color cfg;
  body_bg_color := body_bg_color cfg;
  header_text_style := v;
  body_text_style := body_text_style cfg;
  header_text_align := header_text_align cfg;
  body_text_align := body_text_align cfg;
  usrinput_header_data := usrinput_header_data cfg;
  col_separator := col_separator cfg;
  tab_border_style := tab_border_style cfg;
  col_padding := col_padding cfg;
|}.

(** [body_text_style = v]. *)
Definition set_body_text_style (v : str) (cfg : config) : config := {|
  headerless := headerless cfg;
  exclude_first_line := exclude_first_line cfg;
  use_border := use_border cfg;
  use_separator := use_separator cfg;
  table_color := table_color cfg;
  header_text_color := header_text_color cfg;
  body_text_color := body_text_color cfg;
  header_bg_color := header_bg_color cfg;
  body_bg_color := body_bg_color cfg;
  header_text_style := header_text_style cfg;
  body_text_style := v;
  header_text_align := header_text_align cfg;
  body_text_align := body_text_align cfg;
  usrinput_header_data := usrinput_header_data cfg;
  col_separator := col_separator cfg;
  tab_border_style := tab_border_style cfg;
  col_padding := col_padding cfg;
|}.

(** [header_text_color = v]. *)
Definition set_header_text_color (v : str) (cfg : config) : config := {|
  headerless := headerless cfg;
  exclude_first_line := exclude_first_line cfg;
  use_border := use_border cfg;
  use_separator := use_separator cfg;
  table_color := table_color cfg;
  header_text_color := v;
  body_text_color := body_text_color cfg;
  header_bg_color := header_bg_color cfg;
  body_bg_color := body_bg_color cfg;
  header_text_style := header_text_style cfg;
  body_text_style := body_text_style cfg;
  header_text_align := header_text_align cfg;
  body_text_align := body_text_align cfg;
  usrinput_header_data := usrinput_header_data cfg;
  col_separator := col_separator cfg;
  tab_border_style := tab_border_style cfg;
  col_padding := col_padding cfg;
|}.

(** [body_text_color = v]. *)
Definition set_body_text_color (v : str) (cfg : config) : config := {|
  headerless := headerless cfg;
  exclude_first_line := exclude_first_line cfg;
  use_border := use_border cfg;
  use_separator := use_separator cfg;
  table_color := table_color cfg;
  header_text_color := header_text_color cfg;
  body_text_color := v;
  header_bg_color := header_bg_color cfg;
  body_bg_color := body_bg_color cfg;
  header_text_style := header_text_style cfg;
  body_text_style := body_text_style cfg;
  header_text_align := header_text_align cfg;
  body_text_align := body_text_align cfg;
  usrinput_header_data := usrinput_header_data cfg;
  col_separator := col_separator cfg;
  tab_border_style := tab_border_style cfg;
  col_padding := col_padding cfg;
|}.

(** ** The handlers *)

Inductive handled :=
  | Continue (cfg : config)
  | Return (code : Z).

(** The values of the alignment options. *)
Definition align_of_value (option_value : str) : option str :=
  if decide (option_value = ALIGN_LEFT) then Some ALIGN_LEFT
  else if decide (option_value = ALIGN_CENTER) then Some ALIGN_CENTER
  else if decide (option_value = ALIGN_RIGHT) then Some ALIGN_RIGHT
  else None.

(** The values of the background colour options. *)
Definition bg_color_of_value (option_value : str) : option str :=
  if decide (option_value = lit "black") then Some BG_BLACK
  else if decide (option_value = lit "blue") then Some BG_BLUE
  else if decide (option_value = lit "cyan") then Some BG_CYAN
  else if decide (option_value = lit "green") then Some BG_GREEN
  else if decide (option_value = lit "magenta") then Some BG_MAGENTA
  else if decide (option_value = lit "red") then Some BG_RED
  else if decide (option_value = lit "white") then Some BG_WHITE
  else if decide (option_value = lit "yellow") then Some BG_YELLOW
  else None.

(** The values of the text style options. *)
Definition text_style_of_value (option_value : str) : option str :=
  if decide (option_value = lit "bold") then Some BOLD
  else if decide (option_value = lit "inverse") then Some INVERSE
  else if decide (option_value = lit "italic") then Some ITALIC
  else if decide (option_value = lit "strike") then Some STRIKETHROUGH
  else if decide (option_value = lit "underline") then Some UNDERLINE
  else None.

(** The values of the text and table colour options. *)
Definition text_color_of_value (option_value : str) : option str :=
  if decide (option_value = lit "black") then Some BLACK
  else if decide (option_value = lit "blue") then Some BLUE
  else if decide (option_value = lit "cyan") then Some CYAN
  else if decide (option_value = lit "green") then Some GREEN
  else if decide (option_value = lit "magenta") then Some MAGENTA
  else if decide (option_value = lit "red") then Some RED
  else if decide (option_value = lit "white") then Some WHITE
  else if decide (option_value = lit "yellow") then Some YELLOW
  else None.

(** [string &target_var = (option_key == key_both ? temp :
    option_key == key_header ? header : body); target_var = v;
    if (!temp.empty()) { header = temp; body = temp; }]: the new values of
    the header and body variables. *)
Definition assign_header_body (option_key key_both key_header v : str)
    (header body : str) : str * str :=
  let temp : str := [] in
  let '(temp, header, body) :=
    if decide (option_key = key_both) then (v, header, body)
    else if decide (option_key = key_header) then (temp, v, body)
    else (temp, header, v) in
  if bool_decide (temp ≠ []) then (temp, temp) else (header, body).

(** [--border-style]. *)
Definition handle_border_style (opt : str) (cfg : config) : handled :=
  match str_find opt (lit "=") 0 with
  | Some equal_sign_pos =>
      let option_value := drop (equal_sign_pos + 1) opt in
      if decide (option_value = lit "double")
      then Continue (set_tab_border_style double_border_style cfg)
      else if decide (option_value = lit "heavy")
      then Continue (set_tab_border_style heavy_border_style cfg)
      else if decide (option_value = lit "star")
      then Continue (set_tab_border_style star_border_style cfg)
      else Return 1
  | None => Return 1
  end.

(** [--hdata]. *)
Definition handle_hdata (opt : str) (cfg : config) : handled :=
  match str_find opt (lit "=") 0 with
  | Some equal_sign_pos =>
      let option_value := drop (equal_sign_pos + 1) opt in
      if bool_decide (option_value ≠ [])
      then Continue (set_usrinput_header_data
                       (push_header_data option_value (usrinput_header_data cfg))
                       cfg)
      else Return 1
  | None => Return 1
  end.

(** [--htext-align], [--btext-align], [--text-align]. *)
Definition handle_text_align (opt : str) (cfg : config) : handled :=
  match str_find opt (lit "=") 0 with
  | Some equal_sign_pos =>
      let option_key := take equal_sign_pos opt in
      let option_value := drop (equal_sign_pos + 1) opt in
      match align_of_value option_value with
      | Some v =>
          let '(header, body) :=
            assign_header_body option_key (lit "--text-align")
              (lit "--htext-align") v
              (header_text_align cfg) (body_text_align cfg) in
          Continue (set_header_text_align header (set_body_text_align body cfg))
      | None => Return 1
      end
  | None => Return 1
  end.

(** [--hbg-color], [--bbg-color], [--bg-color]. *)
Definition handle_bg_color (opt : str) (cfg : config) : handled :=
  match str_find opt (lit "=") 0 with
  | Some equal_sign_pos =>
      let option_key := take equal_sign_pos opt in
      let option_value := drop (equal_sign_pos + 1) opt in
      match bg_color_of_value option_value with
      | Some v =>
          let '(header, body) :=
            assign_header_body option_key (lit "--bg-color")
              (lit "--hbg-color") v
              (header_bg_color cfg) (body_bg_color cfg) in
          Continue (set_header_bg_color header (set_body_bg_color body cfg))
      | None => Return 1
      end
  | None => Return 1
  end.

(** [--htext-style], [--btext-style], [--text-style]. *)
Definition handle_text_style (opt : str) (cfg : config) : handled :=
  match str_find opt (lit "=") 0 with
  | Some equal_sign_pos =>
      let option_key := take equal_sign_pos opt in
      let option_value := drop (equal_sign_pos + 1) opt in
      match text_style_of_value option_value with
      | Some v =>
          let '(header, body) :=
            assign_header_body option_key (lit "--text-style")
              (lit "--htext-style") v
              (header_text_style cfg) (body_text_style cfg) in
          Continue (set_header_text_style header (set_body_text_style body cfg))
      | None => Return 1
      end
  | None => Return 1
  end.

(** [--padding]. *)
Definition handle_padding (opt : str) (cfg : config) : handled :=
  match str_find opt (lit "=") 0 with
  | Some equal_sign_pos =>
      match stoi (drop (equal_sign_pos + 1) opt) with
      | StoiValue option_value =>
          if decide (option_value < 0) then Return 1
          else Continue (set_col_padding option_value cfg)
      | StoiInvalidArgument => Return 1
      | StoiOutOfRange => Return 1
      end
  | None => Return 1
  end.

(** [--separator]. *)
Definition handle_separator (opt : str) (cfg : config) : handled :=
  match str_find opt (lit "=") 0 with
  | Some equal_sign_pos =>
      let option_value := drop (equal_sign_pos + 1) opt in
      if decide (option_value = lit "newln")
      then Continue (set_col_separator NEWLINE cfg)
      else if decide (option_value = lit "space")
      then Continue (set_col_separator SPACE cfg)
      else if decide (option_value = lit "tab")
      then Continue (set_col_separator TAB cfg)
      else if decide (option_value = lit "wspace")
      then Continue (set_col_separator VOID cfg)
      else Return 1
  | None => Return 1
  end.

(** [--tab-color], [--btext-color], [--htext-color], [--text-color]:
    [string &target_var = (option_key == "--tab-color" ? table_color :
    option_key == "--text-color" ? temp_text_color :
    option_key == "--btext-color" ? body_text_color : header_text_color)]. *)
Definition handle_text_color (opt : str) (cfg : config) : handled :=
  match str_find opt (lit "=") 0 with
  | Some equal_sign_pos =>
      let option_key := take equal_sign_pos opt in
      let option_value := drop (equal_sign_pos + 1) opt in
      match text_color_of_value option_value with
      | Some v =>
          let temp_text_color : str := [] in
          let '(cfg, temp_text_color) :=
            if decide (option_key = lit "--tab-color")
            then (set_table_color v cfg, temp_text_color)
            else if decide (option_key = lit "--text-color")
            then (cfg, v)
            else if decide (option_key = lit "--btext-color")
            then (set_body_text_color v cfg, temp_text_color)
            else (set_header_text_color v cfg, temp_text_color) in
          if bool_decide (temp_text_color ≠ [])
          then Continue (set_header_text_color temp_text_color
                           (set_body_text_color temp_text_color cfg))
          else Continue cfg
      | None => Return 1
      end
  | None => Return 1
  end.

(** [--theme]. *)
Definition handle_theme (opt : str) (cfg : config) : handled :=
  match str_find opt (lit "=") 0 with
  | Some equal_sign_pos =>
      let option_value := drop (equal_sign_pos + 1) opt in
      if decide (option_value = lit "matrix") then
        Continue
          (set_body_text_style BOLD
          (set_body_text_color GREEN
          (set_header_text_color GREEN
          (set_header_text_style BOLD
          (set_table_color GREEN
          (set_tab_border_style heavy_border_style
          (set_header_text_align ALIGN_CENTER cfg)))))))
      else if decide (option_value = lit "mecha") then
        Continue
          (set_body_text_style UNDERLINE
          (set_body_bg_color BG_MAGENTA
          (set_header_bg_color BG_CYAN
          (set_header_text_style BOLD
          (set_tab_border_style double_border_style
          (set_body_text_align ALIGN_CENTER
          (set_header_text_align ALIGN_CENTER cfg)))))))
      else if decide (option_value = lit "myth") then
        Continue
          (set_body_bg_color BG_BLACK
          (set_body_text_color MAGENTA
          (set_header_text_color WHITE
          (set_header_text_style BOLD
          (set_header_bg_color BG_RED
          (set_table_color RED
          (set_tab_border_style double_border_style
          (set_body_text_align ALIGN_CENTER
          (set_header_text_align ALIGN_CENTER cfg)))))))))
      else if decide (option_value = lit "retro") then
        Continue
          (set_body_text_style ITALIC
          (set_body_bg_color BG_YELLOW
          (set_header_bg_color BG_RED
          (set_header_text_style BOLD
          (set_tab_border_style star_border_style
          (set_body_text_align ALIGN_CENTER
          (set_header_text_align ALIGN_CENTER cfg)))))))
      else if decide (option_value = lit "sticky") then
        Continue
          (set_body_text_style UNDERLINE
          (set_body_bg_color BG_YELLOW
          (set_header_bg_color BG_GREEN
          (set_header_text_style BOLD
          (set_tab_border_style double_border_style
          (set_col_separator TAB
          (set_header_text_align ALIGN_CENTER cfg)))))))
      else Return 1
  | None => Return 1
  end.

(** The body of the loop over [argv] for one argument: the chain of
    [if ... else if ...] in its order. *)
Definition handle_option (cfg : config) (opt : str) : handled :=
  if bool_decide (opt = lit "-b") || bool_decide (opt = lit "--borderless")
  then Continue (set_use_border false cfg)
  else if starts_with opt (lit "--border-style")
  then handle_border_style opt cfg
  else if bool_decide (opt = lit "-f") || bool_decide (opt = lit "--fusion")
  then Continue (set_use_separator false cfg)
  else if starts_with opt (lit "--hdata")
  then handle_hdata opt cfg
  else if starts_with opt (lit "--htext-align")
          || starts_with opt (lit "--btext-align")
          || starts_with opt (lit "--text-align")
  then handle_text_align opt cfg
  else if starts_with opt (lit "--hbg-color")
          || starts_with opt (lit "--bbg-color")
          || starts_with opt (lit "--bg-color")
  then handle_bg_color opt cfg
  else if starts_with opt (lit "--htext-style")
          || starts_with opt (lit "--btext-style")
          || starts_with opt (lit "--text-style")
  then handle_text_style opt cfg
  else if bool_decide (opt = lit "-h") || bool_decide (opt = lit "--help")
  then Return 0
  else if starts_with opt (lit "--padding")
  then handle_padding opt cfg
  else if starts_with opt (lit "--separator")
  then handle_separator opt cfg
  else if bool_decide (opt = lit "-s") || bool_decide (opt = lit "--simplify")
  then Continue (simplify cfg)
  else if starts_with opt (lit "--tab-color")
          || starts_with opt (lit "--btext-color")
          || starts_with opt (lit "--htext-color")
          || starts_with opt (lit "--text-color")
  then handle_text_color opt cfg
  else if starts_with opt (lit "--theme")
  then handle_theme opt cfg
  else if bool_decide (opt = lit "-v") || bool_decide (opt = lit "--version")
  then Return 0
  else Return 1.

(** [for (int index = 1; index < argc; index++)] over the arguments
    [argv[1]], [argv[2]], ...: the configuration [main] goes on with, or
    its return value. *)
Fixpoint handle_options (cfg : config) (args : list str) : handled :=
  match args with
  | [] => Continue cfg
  | opt :: args' =>
      match handle_option cfg opt with
      | Continue cfg' => handle_options cfg' args'
      | Return code => Return code
      end
  end.

Definition parse_args (args : list str) : handled :=
  handle_options default_config args.

(** * Reference definitions

    The quantities the properties below compare the code with. *)

(** The cells present at column [i]: a row without a cell at [i] gives
    none. *)
Definition column_cells (tab : list (list str)) (i : nat) : list str :=
  omap (λ row : list str, row !! i) tab.

(** The largest cell length of column [i], [0] when no row reaches it. *)
Definition column_max (tab : list (list str)) (i : nat) : Z :=
  foldr Z.max 0 (strlen <$> column_cells tab i).

(** The effect of one row on the running maximum of column [i]. *)
Definition widened (row : list str) (i : nat) (w : Z) : Z :=
  match row !! i with Some c => Z.max w (strlen c) | None => w end.

(** What one cell adds to [cout]. *)
Definition cell_chunks (cfg : config) (first_line : bool)
    (tab_col_width : list Z) (tab_row : list str) (index : nat) : ostream :=
  let tab_cell := default [] (tab_row !! index) in
  let w := default 0 (tab_col_width !! index) in
  let tab_col_data :=
    align_text tab_cell w
      (if first_line && negb (headerless cfg) then header_text_align cfg
       else if negb first_line || headerless cfg then body_text_align cfg
       else ALIGN_LEFT) in
  [ if first_line && negb (headerless cfg)
    then header_text_style cfg ++ header_bg_color cfg ++ header_text_color cfg
    else [];
    if negb first_line || headerless cfg
    then body_text_style cfg ++ body_bg_color cfg ++ body_text_color cfg
    else [];
    setw_left tab_col_data.1 tab_col_data.2;
    DEFAULT;
    table_color cfg;
    if use_border cfg then vertical_line (tab_border_style cfg) else [] ].

(** What one row adds to [cout], given the text of the top and separator
    borders. *)
Definition row_chunks (cfg : config) (max_col_count : nat)
    (tab_col_width : list Z) (first_line : bool) (btop bsep : str)
    (tab_row : list str) : ostream :=
  (if first_line && use_border cfg then [btop] else [])
  ++ (if use_border cfg
      then [table_color cfg; vertical_line (tab_border_style cfg); DEFAULT]
      else [])
  ++ flat_map (cell_chunks cfg first_line tab_col_width tab_row)
       (range max_col_count)
  ++ [endl]
  ++ (if first_line && negb (headerless cfg) && use_border cfg
         && use_separator cfg
      then [bsep] else []).

(** What the rows add to [cout]: only the first is rendered with
    [first_line] set. *)
Fixpoint rows_chunks (cfg : config) (max_col_count : nat)
    (tab_col_width : list Z) (first_line : bool) (btop bsep : str)
    (cmdout_tab_data : list (list str)) : ostream :=
  match cmdout_tab_data with
  | [] => []
  | tab_row :: rest =>
      row_chunks cfg max_col_count tab_col_width first_line btop bsep tab_row
      ++ rows_chunks cfg max_col_count tab_col_width false btop bsep rest
  end.

(** ** A terminal reading the output

    The reading of SGR escape sequences ([ESC [ parameters m]) that the
    properties about colour rely on: after [ESC [ 0 m] (or [ESC [ m]) no
    attribute is active, after any other SGR sequence one is. *)

Inductive term_mode :=
  | Text
  | Escape
  | Csi (params : str).

Record terminal := {
  mode : term_mode;
  styled : bool;   (* an attribute is active *)
  leaked : bool;   (* a line ended while an attribute was active *)
}.

Definition terminal_init : terminal :=
  {| mode := Text; styled := false; leaked := false |}.

Definition is_param (c : ascii) : bool :=
  let n := nat_of_ascii c in
  (bool_decide (48 ≤ n)%nat && bool_decide (n ≤ 57)%nat)
  || bool_decide (n = 59%nat).

Definition term_step (t : terminal) (c : ascii) : terminal :=
  match mode t with
  | Text =>
      if bool_decide (c = ESC) then
        {| mode := Escape; styled := styled t; leaked := leaked t |}
      else if bool_decide (c = NEWLINE) then
        {| mode := Text; styled := styled t; leaked := leaked t || styled t |}
      else t
  | Escape =>
      {| mode := if bool_decide (c = "["%char) then Csi [] else Text;
         styled := styled t; leaked := leaked t |}
  | Csi params =>
      if bool_decide (c = "m"%char) then
        {| mode := Text;
           styled := negb (bool_decide (params = []) || bool_decide (params = lit "0"));
           leaked := leaked t |}
      else if is_param c then
        {| mode := Csi (params ++ [c]); styled := styled t; leaked := leaked t |}
      else {| mode := Text; styled := styled t; leaked := leaked t |}
  end.

(** An attribute is active at the end of some line of the text, or at the
    end of the text. *)
Definition sgr_leak (s : str) : bool :=
  let t := foldl term_step terminal_init s in
  leaked t || styled t.

(** The text left when the escape sequences are removed, read in the
    modes of the terminal above. *)
Fixpoint strip_ansi_from (m : term_mode) (s : str) : str :=
  match s with
  | [] => []
  | c :: s' =>
      match m with
      | Text =>
          if bool_decide (c = ESC) then strip_ansi_from Escape s'
          else c :: strip_ansi_from Text s'
      | Escape =>
          strip_ansi_from (if bool_decide (c = "["%char) then Csi [] else Text) s'
      | Csi params =>
          if bool_decide (c = "m"%char) then strip_ansi_from Text s'
          else if is_param c then strip_ansi_from (Csi (params ++ [c])) s'
          else strip_ansi_from Text s'
      end
  end.

Definition strip_ansi (s : str) : str := strip_ansi_from Text s.

(** ** Re-tokenizing the rendered table *)

(** The tokenizer of [main] under a separator policy, no line excluded. *)
Definition tokenize (sep : ascii) (s : str) : list (list str) :=
  read_stdin (set_col_separator sep default_config) s.

(** No colour and no text style is configured. *)
Definition unstyled (cfg : config) : Prop :=
  table_color cfg = [] ∧
  header_text_color cfg = [] ∧ body_text_color cfg = [] ∧
  header_bg_color cfg = [] ∧ body_bg_color cfg = [] ∧
  header_text_style cfg = [] ∧ body_text_style cfg = [].

(** A cell as the tokenizer produces them under the policy [sep]: not
    empty, without separator character; and without escape character, so
    that removing the escape sequences leaves it whole. *)
Definition plain_cell (sep : ascii) (c : str) : Prop :=
  c ≠ [] ∧ strlen c < 2 ^ 63 ∧
  Forall (λ ch, is_wspace ch sep = false ∧ ch ≠ ESC) c.

Definition plain_table (sep : ascii) (tab : list (list str)) : Prop :=
  Forall (λ row : list str, row ≠ [] ∧ Forall (plain_cell sep) row) tab.

(** The table is laid out and rendered, and tokenizing the rendered text,
    escape sequences removed, under the policy of the configuration gives
    the table back. *)
Definition roundtrips (cfg : config) (tab : list (list str)) : Prop :=
  ∃ (ws : list Z) (out : ostream),
    get_tab_col_width cfg (get_max_col_count tab) tab = Some ws ∧
    render_table cfg (get_max_col_count tab) ws tab = Some out ∧
    tokenize (col_separator cfg) (strip_ansi (oss_str out)) = tab.

(** The reader once the pending token, if any, is pushed to the row. *)
Definition flush_token (r : reader) : reader :=
  if bool_decide (cmdout_char_queue r ≠ []) then
    {| cmdout_char_queue := [];
       temp_row_data := temp_row_data r ++ [cmdout_char_queue r];
       cmdout_tab_data := cmdout_tab_data r;
       first_line := first_line r |}
  else r.

(** The reader once the pending row, if any, is pushed to the table. *)
Definition flush_row (r : reader) : reader :=
  if bool_decide (temp_row_data r ≠ []) then
    {| cmdout_char_queue := cmdout_char_queue r;
       temp_row_data := [];
       cmdout_tab_data := cmdout_tab_data r ++ [temp_row_data r];
       first_line := first_line r |}
  else r.

(** The text of one cell in the rendered row. *)
Definition padded_cell (align : str) (tab_col_width : list Z)
    (tab_row : list str) (index : nat) : str :=
  let w := default 0 (tab_col_width !! index) in
  let tab_col_data := align_text (default [] (tab_row !! index)) w align in
  setw_left tab_col_data.1 tab_col_data.2.

(** The alignment of a row: the header alignment for the first row unless
    [headerless], the body alignment otherwise. *)
Definition row_align (cfg : config) (first_line : bool) : str :=
  if first_line && negb (headerless cfg) then header_text_align cfg
  else if negb first_line || headerless cfg then body_text_align cfg
  else ALIGN_LEFT.

(** The rendered rows without borders and escape sequences. *)
Definition plain_row (cfg : config) (max_col_count : nat)
    (tab_col_width : list Z) (first_line : bool) (tab_row : list str) : str :=
  flat_map (padded_cell (row_align cfg first_line) tab_col_width tab_row)
    (range max_col_count)
  ++ [NEWLINE].

Fixpoint plain_rows (cfg : config) (max_col_count : nat)
    (tab_col_width : list Z) (first_line : bool)
    (cmdout_tab_data : list (list str)) : str :=
  match cmdout_tab_data with
  | [] => []
  | tab_row :: rest =>
      plain_row cfg max_col_count tab_col_width first_line tab_row
      ++ plain_rows cfg max_col_count tab_col_width false rest
  end.

(** The reader inside a rendered row: [tb] is the table so far, [L] the
    cells of the row so far, the pending token counted in; when the row is
    not right aligned no token is pending between two cells. *)
Definition row_inv (right : bool) (tb : list (list str)) (L : list str)
    (r : reader) : Prop :=
  cmdout_tab_data r = tb ∧ temp_row_data (flush_token r) = L ∧
  (right = true ∨ cmdout_char_queue r = []).

(** ** The border line, column by column *)

Definition sum_widths (ws : list Z) : Z := foldr Z.add 0 ws.

(** The columns as [get_tab_border] writes them when no sum wraps: the fill
    run of the column, and a junction when the widths of the columns that
    follow add up to more than their number. *)
Fixpoint border_columns (ws : list Z) (mid fill : str) : ostream :=
  match ws with
  | [] => []
  | w :: rest =>
      replicate (Z.to_nat w) fill
      ++ (if bool_decide (Z.of_nat (length rest) < sum_widths rest)
          then [mid] else [])
      ++ border_columns rest mid fill
  end.

(** The columns as the documentation of [get_tab_border] has them: a
    junction between adjacent columns, none after the last. *)
Fixpoint border_columns_doc (ws : list Z) (mid fill : str) : ostream :=
  match ws with
  | [] => []
  | w :: rest =>
      replicate (Z.to_nat w) fill
      ++ (if rest is [] then [] else [mid])
      ++ border_columns_doc rest mid fill
  end.

(** ** Validated configurations *)

Definition text_colors : list str :=
  [BLACK; BLUE; CYAN; GREEN; MAGENTA; RED; WHITE; YELLOW].

Definition bg_colors : list str :=
  [BG_BLACK; BG_BLUE; BG_CYAN; BG_GREEN; BG_MAGENTA; BG_RED; BG_WHITE; BG_YELLOW].

Definition text_styles : list str :=
  [BOLD; INVERSE; ITALIC; STRIKETHROUGH; UNDERLINE].

Definition alignments : list str := [ALIGN_LEFT; ALIGN_CENTER; ALIGN_RIGHT].

(** What the option handlers guarantee of the configuration they leave:
    the padding is a non-negative [int], the separator one of the four
    policies, the alignments among the three directives, the first line is
    excluded exactly in headerless mode, every colour and style is unset
    or one of the escape sequences of its group, and the border style is
    one of the four presets. *)
Definition valid_config (cfg : config) : Prop :=
  0 ≤ col_padding cfg < 2 ^ 31 ∧
  col_separator cfg ∈ [NEWLINE; SPACE; TAB; VOID] ∧
  header_text_align cfg ∈ alignments ∧
  body_text_align cfg ∈ alignments ∧
  exclude_first_line cfg = headerless cfg ∧
  table_color cfg ∈ [] :: text_colors ∧
  header_text_color cfg ∈ [] :: text_colors ∧
  body_text_color cfg ∈ [] :: text_colors ∧
  header_bg_color cfg ∈ [] :: bg_colors ∧
  body_bg_color cfg ∈ [] :: bg_colors ∧
  header_text_style cfg ∈ [] :: text_styles ∧
  body_text_style cfg ∈ [] :: text_styles ∧
  tab_border_style cfg
    ∈ [tab_border_style_default; double_border_style; heavy_border_style;
       star_border_style].


(** ** Lines of output *)

(** The number of line terminators in a text. *)
Definition count_lines (s : str) : nat :=
  length (filter (λ c, c = NEWLINE) s).

(** The number of border lines [main] writes for a table: none without
    borders; the bottom border alone for an empty table; else the top and
    bottom borders, and the separator after the first row unless
    [headerless] or [--fusion]. *)
Definition border_line_count (cfg : config) (tab : list (list str)) : nat :=
  if use_border cfg then
    match tab with
    | [] => 1
    | _ :: _ =>
        if negb (headerless cfg) && use_separator cfg then 3 else 2
    end
  else 0.

(** ** Tokens of a text *)

(** The text [pre] is empty or ends with a separator of the policy [sep]. *)
Definition left_bounded (sep : ascii) (pre : str) : Prop :=
  pre = [] ∨ ∃ (p : str) (c : ascii), pre = p ++ [c] ∧ is_wspace c sep = true.

(** [cell] is a token of the text [s]: a contiguous run of [s] that has a
    separator or an end of [s] on each side. *)
Definition token_of (sep : ascii) (s cell : str) : Prop :=
  ∃ pre post : str,
    s = pre ++ cell ++ post ∧ left_bounded sep pre ∧
    (post = [] ∨ ∃ (c : ascii) (p : str), post = c :: p ∧ is_wspace c sep = true).

(** [cell] is a token of [s] that a separator follows. *)
Definition closed_token_of (sep : ascii) (s cell : str) : Prop :=
  ∃ (pre : str) (c : ascii) (post : str),
    s = pre ++ cell ++ c :: post ∧ left_bounded sep pre ∧ is_wspace c sep = true.

(** ** The text form of a table *)

(** The cells of a row joined by the character [d]. *)
Fixpoint join_with (d : ascii) (cells : list str) : str :=
  match cells with
  | [] => []
  | [cell] => cell
  | cell :: rest => cell ++ d :: join_with d rest
  end.

(** One line per row, each ended by a newline. *)
Definition table_text (d : ascii) (tab : list (list str)) : str :=
  flat_map (λ row, join_with d row ++ [NEWLINE]) tab.

(** ** The terminal between escape sequences *)

(** The terminal is reading text and no line has ended with an attribute
    active; [calm] when, moreover, none is active now. *)
Definition quiet (t : terminal) : Prop := mode t = Text ∧ leaked t = false.

Definition calm (t : terminal) : Prop := quiet t ∧ styled t = false.

(** * Properties *)

(** ** The cell aligner *)

Lemma strlen_app (s t : str) : strlen (s ++ t) = strlen s + strlen t.
Proof. unfold strlen. rewrite length_app. lia. Qed.

Lemma strlen_string_n n c : strlen (string_n n c) = Z.max 0 n.
Proof. unfold strlen, string_n. rewrite length_replicate. lia. Qed.

Lemma strlen_nonneg (s : str) : 0 ≤ strlen s.
Proof. unfold strlen. lia. Qed.

Lemma string_n_nonpos n c : n ≤ 0 → string_n n c = [].
Proof.
  intros Hn. unfold string_n.
  replace (Z.to_nat n) with 0%nat by lia. reflexivity.
Qed.

(** C6. For every text, every width and every alignment among left, center
    and right, [align_text] returns the text with spaces added and nothing
    removed, of length exactly [max width (length text)]; a text at least as
    long as the width comes back unchanged; left alignment pads after the
    text only, right alignment before it only, and center alignment puts
    [floor ((width - length) / 2)] spaces before and the rest after, so that
    the left pad is at most the right pad, which is at most one more. *)
Theorem align_text_padding (text : str) (width : Z) (mode : str) :
  mode ∈ [ALIGN_LEFT; ALIGN_CENTER; ALIGN_RIGHT] →
  let out := (align_text text width mode).2 in
  let pad := Z.max 0 (width - strlen text) in
  ∃ lpad rpad : Z,
    0 ≤ lpad ∧ 0 ≤ rpad ∧ lpad + rpad = pad ∧
    out = string_n lpad SPACE ++ text ++ string_n rpad SPACE ∧
    strlen out = Z.max width (strlen text) ∧
    (width ≤ strlen text → out = text) ∧
    (mode = ALIGN_LEFT → lpad = 0) ∧
    (mode = ALIGN_RIGHT → rpad = 0) ∧
    (mode = ALIGN_CENTER → lpad = pad `div` 2 ∧ lpad ≤ rpad ≤ lpad + 1).
Proof.
  intros Hmode out pad. subst out.
  assert (Hlen := strlen_nonneg text).
  unfold align_text.
  set (p := if decide (width > strlen text) then width - strlen text else 0).
  assert (Hp : p = pad) by (subst p pad; case_decide; lia).
  clearbody p. subst p.
  assert (Hpad0 : 0 ≤ pad) by (subst pad; lia).
  assert (Hhalf : 0 ≤ pad `div` 2 ∧ pad `div` 2 ≤ pad - pad `div` 2
                  ∧ pad - pad `div` 2 ≤ pad `div` 2 + 1).
  { pose proof (Z.div_mod pad 2 ltac:(lia)).
    pose proof (Z.mod_pos_bound pad 2 ltac:(lia)). lia. }
  assert (Hunch : ∀ a b, 0 ≤ a → 0 ≤ b → a + b = pad → width ≤ strlen text →
            string_n a SPACE ++ text ++ string_n b SPACE = text).
  { intros a b Ha Hb Hab Hw.
    rewrite !string_n_nonpos by (subst pad; lia).
    by rewrite app_nil_r. }
  assert (Hne : ALIGN_LEFT ≠ ALIGN_RIGHT ∧ ALIGN_LEFT ≠ ALIGN_CENTER
                ∧ ALIGN_CENTER ≠ ALIGN_RIGHT) by (split_and!; discriminate).
  destruct Hne as (Hlr & Hlc & Hcr).
  repeat case_decide;
    [ exists pad, 0 | exists (pad `div` 2), (pad - pad `div` 2) | exists 0, pad ];
    cbn [snd]; rewrite ?(string_n_nonpos 0) by lia; rewrite ?app_nil_r, ?app_nil_l;
    split_and!; try lia; try done; try congruence;
    try (rewrite ?strlen_app, ?strlen_string_n; lia);
    try (intros Hw; rewrite !string_n_nonpos by lia; by rewrite ?app_nil_r).
Qed.

Lemma align_text_padding_witness :
  ∃ lpad rpad : Z,
    0 ≤ lpad ∧ 0 ≤ rpad ∧ lpad + rpad = 3 ∧
    (align_text (lit "ab") 5 ALIGN_CENTER).2
      = string_n lpad SPACE ++ lit "ab" ++ string_n rpad SPACE
    ∧ strlen (align_text (lit "ab") 5 ALIGN_CENTER).2 = 5.
Proof.
  destruct (align_text_padding (lit "ab") 5 ALIGN_CENTER) as (l & r & H).
  - repeat constructor.
  - exists l, r. simpl in H. destruct H as (? & ? & ? & ? & ? & _).
    repeat split; assumption.
Defined.

(** ** Loops *)

Section for_each.
Context {A S : Type} (body : S → A → option S).

Lemma for_each_app s l1 l2 :
  for_each body s (l1 ++ l2) = for_each body s l1 ≫= λ s', for_each body s' l2.
Proof.
  revert s. induction l1 as [|x l1 IH]; intros s; simpl; [done|].
  destruct (body s x) as [s'|]; simpl; [apply IH | done].
Qed.

Lemma for_each_snoc s l x :
  for_each body s (l ++ [x]) = for_each body s l ≫= λ s', body s' x.
Proof.
  rewrite for_each_app. destruct (for_each body s l) as [s'|]; simpl; [|done].
  by destruct (body s' x).
Qed.

(** A loop whose body never faults on states satisfying an invariant
    that it preserves runs to completion, and the invariant holds at
    the end. *)
Lemma for_each_invariant (I : list A → S → Prop) s l :
  I [] s →
  (∀ done x s, (∃ rest, l = done ++ x :: rest) → I done s →
     ∃ s', body s x = Some s' ∧ I (done ++ [x]) s') →
  ∃ s', for_each body s l = Some s' ∧ I l s'.
Proof.
  intros H0 Hstep.
  induction l as [|x l IH] using rev_ind; [by exists s|].
  destruct IH as (s1 & Hrun & HI).
  { intros dn y t [rest ->] Ht. apply Hstep; [|done].
    exists (rest ++ [x]). by rewrite <- !app_assoc. }
  destruct (Hstep l x s1) as (s2 & Hb & HI2); [by exists []|done|].
  exists s2. split; [|done]. by rewrite for_each_snoc, Hrun.
Qed.
End for_each.

Lemma range_S n : range (S n) = range n ++ [n].
Proof. unfold range. by rewrite seq_S. Qed.

Lemma range_prefix n done x rest : range n = done ++ x :: rest →
  done = range x ∧ (x < n)%nat.
Proof.
  unfold range. intros H.
  assert (Hl : (length done + S (length rest) = n)%nat).
  { apply (f_equal length) in H. rewrite length_seq, length_app in H.
    simpl in H. lia. }
  assert (Hx : x = length done).
  { assert (seq 0 n !! length done = Some x) as Hk.
    { rewrite H. by rewrite list_lookup_middle. }
    apply lookup_seq in Hk. lia. }
  split; [|lia]. subst x.
  assert (Htake : take (length done) (seq 0 n) = done).
  { rewrite H. by rewrite take_app_length. }
  rewrite <- Htake at 1. rewrite take_seq. unfold range. f_equal. lia.
Qed.

(** ** The column widths *)

Lemma length_range n : length (range n) = n.
Proof. apply length_seq. Qed.

Lemma widen_row_spec (ws : list Z) (row : list str) :
  (length row ≤ length ws)%nat →
  ∃ ws', widen_row ws row = Some ws' ∧ length ws' = length ws ∧
         ∀ i, ws' !! i = widened row i <$> ws !! i.
Proof.
  intros Hlen. unfold widen_row.
  destruct (for_each_invariant (widen_cell row)
    (λ dn ws', length ws' = length ws ∧
       ∀ i, ws' !! i = (if decide (i < length dn)%nat then widened row i else id)
                         <$> ws !! i) ws (range (length row)))
    as (ws' & Hrun & Hl & Hi).
  - split; [done|]. intros i. simpl. by destruct (ws !! i).
  - intros dn x s [rest Hr] [Hl Hi].
    apply range_prefix in Hr as [-> Hx]. rewrite length_range in Hi.
    unfold widen_cell.
    destruct (lookup_lt_is_Some_2 row x Hx) as [c Hc].
    destruct (lookup_lt_is_Some_2 ws x ltac:(lia)) as [w Hw].
    rewrite Hi, Hw. case_decide; [lia|]. simpl. rewrite Hc. simpl.
    eexists; split; [done|]. split; [by rewrite length_insert|].
    intros i. rewrite length_app, length_range. simpl.
    destruct (decide (i = x)) as [->|Hne].
    + rewrite list_lookup_insert_eq by lia. rewrite Hw. simpl.
      case_decide; [|lia]. unfold widened. by rewrite Hc.
    + rewrite list_lookup_insert_ne by done. rewrite Hi.
      repeat case_decide; try lia; done.
  - exists ws'. split; [done|]. split; [done|]. intros i. rewrite Hi.
    rewrite length_range. case_decide; [done|].
    unfold widened. rewrite (lookup_ge_None_2 row i) by lia.
    by destruct (ws !! i).
Qed.

Lemma get_max_col_count_ge (tab : list (list str)) row :
  row ∈ tab → (length row ≤ get_max_col_count tab)%nat.
Proof.
  unfold get_max_col_count.
  assert (Hgen : ∀ (t : list (list str)) m,
    (m ≤ foldl (λ m r, (m `max` length r)%nat) m t)%nat ∧
    ∀ r, r ∈ t → (length r ≤ foldl (λ m r, (m `max` length r)%nat) m t)%nat).
  { induction t as [|r t IH]; intros m; simpl.
    - split; [lia|]. intros r Hr. by apply elem_of_nil in Hr.
    - destruct (IH (m `max` length r)%nat) as [H1 H2]. split; [lia|].
      intros r' [->|Hr']%elem_of_cons; [lia|by apply H2]. }
  intros Hr. by apply Hgen.
Qed.

Lemma get_max_col_count_max_list (tab : list (list str)) :
  get_max_col_count tab = max_list_with length tab.
Proof.
  unfold get_max_col_count.
  assert (Hgen : ∀ (t : list (list str)) m,
    foldl (λ m r, (m `max` length r)%nat) m t
    = (m `max` max_list_with length t)%nat).
  { induction t as [|r t IH]; intros m; [simpl; lia|].
    change (max_list_with length (r :: t))
      with (length r `max` max_list_with length t)%nat.
    simpl foldl. rewrite IH. lia. }
  rewrite Hgen. lia.
Qed.

Lemma column_max_nil i : column_max [] i = 0.
Proof. done. Qed.

Lemma column_max_cons row tab i :
  column_max (row :: tab) i
  = match row !! i with
    | Some c => Z.max (strlen c) (column_max tab i)
    | None => column_max tab i
    end.
Proof. unfold column_max, column_cells. simpl. by destruct (row !! i). Qed.

Lemma column_max_nonneg tab i : 0 ≤ column_max tab i.
Proof.
  induction tab as [|row tab IH]; [done|].
  rewrite column_max_cons. destruct (row !! i); lia.
Qed.

Lemma column_max_app t1 t2 i :
  column_max (t1 ++ t2) i = Z.max (column_max t1 i) (column_max t2 i).
Proof.
  induction t1 as [|row t1 IH]; simpl.
  - rewrite column_max_nil. pose proof (column_max_nonneg t2 i). lia.
  - rewrite !column_max_cons, IH. destruct (row !! i); lia.
Qed.

Lemma widen_table_spec (tab : list (list str)) (ws : list Z) :
  Forall (λ row : list str, (length row ≤ length ws)%nat) tab →
  ∃ ws', for_each widen_row ws tab = Some ws' ∧ length ws' = length ws ∧
         ∀ i w, ws !! i = Some w → 0 ≤ w →
                ws' !! i = Some (Z.max w (column_max tab i)).
Proof.
  revert ws. induction tab as [|row tab IH]; intros ws Hall; simpl.
  - exists ws. split; [done|]. split; [done|]. intros i w Hw H0.
    rewrite column_max_nil, Hw. f_equal. lia.
  - apply Forall_cons in Hall as [Hrow Hall].
    destruct (widen_row_spec ws row Hrow) as (ws1 & -> & Hl1 & Hi1). simpl.
    destruct (IH ws1) as (ws2 & -> & Hl2 & Hi2).
    { by rewrite Hl1. }
    exists ws2. split; [done|]. split; [lia|]. intros i w Hw H0.
    rewrite column_max_cons.
    specialize (Hi1 i). rewrite Hw in Hi1. simpl in Hi1.
    unfold widened in Hi1.
    destruct (row !! i) as [c|].
    + rewrite (Hi2 i _ Hi1) by lia. f_equal. lia.
    + by rewrite (Hi2 i _ Hi1).
Qed.

Lemma column_max_bound (tab : list (list str)) i b :
  0 < b → Forall (Forall (λ c : str, strlen c < b)) tab → column_max tab i < b.
Proof.
  intros Hb. induction 1 as [|row tab Hrow _ IH]; [by rewrite column_max_nil|].
  rewrite column_max_cons. destruct (row !! i) as [c|] eqn:Hc; [|done].
  rewrite Forall_lookup in Hrow. specialize (Hrow _ _ Hc). simpl in Hrow. lia.
Qed.

Lemma column_max_lacking (t1 t2 : list (list str)) row i :
  (length row ≤ i)%nat → column_max (t1 ++ row :: t2) i = column_max (t1 ++ t2) i.
Proof.
  intros Hi. rewrite !column_max_app, column_max_cons.
  by rewrite (lookup_ge_None_2 row i).
Qed.

Lemma column_max_ge (tab : list (list str)) (row : list str) i c :
  row ∈ tab → row !! i = Some c → strlen c ≤ column_max tab i.
Proof.
  intros Hrow Hc. induction tab as [|row' tab IH]; [by apply elem_of_nil in Hrow|].
  rewrite column_max_cons.
  apply elem_of_cons in Hrow as [<-|Hrow].
  - rewrite Hc. lia.
  - specialize (IH Hrow). destruct (row' !! i); lia.
Qed.

Lemma get_tab_col_width_values (cfg : config) (tab : list (list str)) :
  0 ≤ col_padding cfg < 2 ^ 31 →
  Forall (Forall (λ c : str, strlen c < 2 ^ 63)) tab →
  ∃ ws : list Z,
    get_tab_col_width cfg (get_max_col_count tab) tab = Some ws ∧
    length ws = get_max_col_count tab ∧
    ∀ i, (i < length ws)%nat →
         ws !! i = Some (column_max tab i + col_padding cfg).
Proof.
  intros Hpad Hcells. unfold get_tab_col_width.
  destruct (widen_table_spec tab (replicate (get_max_col_count tab) 0))
    as (ws & -> & Hlen & Hws).
  { apply Forall_forall. intros row Hrow. rewrite length_replicate.
    by apply get_max_col_count_ge. }
  rewrite length_replicate in Hlen. simpl.
  exists (add_padding cfg ws).
  assert (Hl : length (add_padding cfg ws) = length ws).
  { unfold add_padding. by rewrite length_fmap. }
  rewrite Hl. split_and!; [done|done|].
  intros i Hi. unfold add_padding. rewrite list_lookup_fmap.
  rewrite (Hws i 0); [|apply lookup_replicate_2; lia|lia]. simpl.
  pose proof (column_max_nonneg tab i).
  pose proof (column_max_bound tab i (2 ^ 63) ltac:(lia) Hcells).
  f_equal. unfold to_size.
  rewrite (Z.mod_small (col_padding cfg)) by lia.
  rewrite Z.mod_small by lia. lia.
Qed.

(** C5. For every table and every non-negative padding, the column widths
    are computed without fault, there are as many as the longest row has
    cells, and the width of column [i] is the largest length among the cells
    that rows have at index [i], plus the padding; a row that has no cell at
    [i] does not change that width: the table without the row gives the
    same one. Cell lengths are below the maximal size of a string and the
    padding is a non-negative [int], so that no addition wraps. *)
Theorem col_width_spec (cfg : config) (tab : list (list str)) :
  0 ≤ col_padding cfg < 2 ^ 31 →
  Forall (Forall (λ c : str, strlen c < 2 ^ 63)) tab →
  ∃ ws : list Z,
    get_tab_col_width cfg (get_max_col_count tab) tab = Some ws ∧
    length ws = max_list_with length tab ∧
    (∀ i, (i < length ws)%nat →
          ws !! i = Some (column_max tab i + col_padding cfg)) ∧
    (∀ t1 row t2 i, tab = t1 ++ row :: t2 → (length row ≤ i < length ws)%nat →
          ws !! i = Some (column_max (t1 ++ t2) i + col_padding cfg)).
Proof.
  intros Hpad Hcells.
  destruct (get_tab_col_width_values cfg tab Hpad Hcells) as (ws & Hrun & Hlen & Hget).
  exists ws. split_and!; [done|by rewrite Hlen, get_max_col_count_max_list|done|].
  intros t1 row t2 i -> [Hrow Hi].
  rewrite <- (column_max_lacking t1 t2 row i Hrow). by apply Hget.
Qed.

Lemma col_width_spec_witness :
  ∃ ws : list Z,
    get_tab_col_width default_config 2 [[lit "a"; lit "b"]; [lit "ccc"]]
      = Some ws ∧ length ws = 2%nat.
Proof.
  destruct (col_width_spec default_config [[lit "a"; lit "b"]; [lit "ccc"]])
    as (ws & Hrun & Hlen & _).
  - simpl. lia.
  - repeat constructor.
  - exists ws. split; [exact Hrun | exact Hlen].
Defined.

(** ** Rendering never leaves the width vector *)

Lemma get_tab_border_oss_total n (ws : list Z) l m r f color :
  (n ≤ length ws)%nat → is_Some (get_tab_border_oss n ws l m r f color).
Proof.
  intros Hn. unfold get_tab_border_oss.
  match goal with |- context [for_each ?b ?s ?l] =>
    destruct (for_each_invariant b (λ _ _, True) s l) as (acc & -> & _)
  end; [done| |by eexists].
  intros dn x [t o] [rest Hr] _. apply range_prefix in Hr as [_ Hx].
  unfold border_column.
  destruct (lookup_lt_is_Some_2 ws x ltac:(lia)) as [w ->]. simpl. eauto.
Qed.

Lemma get_tab_border_total n (ws : list Z) l m r f color :
  (n ≤ length ws)%nat → is_Some (get_tab_border n ws l m r f color).
Proof.
  intros Hn. unfold get_tab_border.
  destruct (get_tab_border_oss_total n ws l m r f color Hn) as [o ->].
  by eexists.
Qed.

Lemma get_tab_border_oss_no_column (ws : list Z) l m r f color :
  get_tab_border_oss 0 ws l m r f color = Some [color; l; r; DEFAULT; endl].
Proof. reflexivity. Qed.

Lemma border_of_total cfg n (ws : list Z) b :
  (n ≤ length ws)%nat → is_Some (border_of cfg n ws b).
Proof. intros Hn. by apply get_tab_border_total. Qed.

Lemma for_each_emit {A} (body : ostream → A → option ostream)
    (g : A → ostream) (l : list A) :
  (∀ x, x ∈ l → ∀ o, body o x = Some (o ++ g x)) →
  ∀ o, for_each body o l = Some (o ++ flat_map g l).
Proof.
  induction l as [|x l IH]; intros Hb o; simpl.
  - by rewrite app_nil_r.
  - rewrite Hb by left. simpl. rewrite IH.
    + by rewrite <- app_assoc.
    + intros y Hy. apply Hb. by right.
Qed.

Lemma elem_of_range i n : i ∈ range n ↔ (i < n)%nat.
Proof. unfold range. rewrite elem_of_seq. lia. Qed.

Lemma render_cell_spec cfg fl (ws : list Z) (row : list str) cout index :
  (index < length ws)%nat →
  render_cell cfg fl ws row cout index
  = Some (cout ++ cell_chunks cfg fl ws row index).
Proof.
  intros Hi. unfold render_cell, cell_chunks.
  destruct (lookup_lt_is_Some_2 ws index Hi) as [w Hw]. rewrite Hw.
  case_bool_decide as Hr.
  - destruct (lookup_lt_is_Some_2 row index Hr) as [c Hc]. by rewrite Hc.
  - rewrite (lookup_ge_None_2 row index) by lia. done.
Qed.

Lemma render_row_spec cfg n (ws : list Z) fl cout (row : list str) :
  (n ≤ length ws)%nat →
  ∃ btop bsep,
    border_of cfg n ws (top (tab_border_style cfg)) = Some btop ∧
    border_of cfg n ws (separator (tab_border_style cfg)) = Some bsep ∧
    render_row cfg n ws (fl, cout) row
    = Some (false, cout ++ row_chunks cfg n ws fl btop bsep row).
Proof.
  intros Hn.
  destruct (border_of_total cfg n ws (top (tab_border_style cfg)) Hn)
    as [btop Htop].
  destruct (border_of_total cfg n ws (separator (tab_border_style cfg)) Hn)
    as [bsep Hsep].
  exists btop, bsep. split; [done|]. split; [done|].
  unfold render_row, row_chunks. cbn [fst snd]. rewrite Htop, Hsep.
  assert (Hcells : ∀ o, for_each (render_cell cfg fl ws row) o (range n)
                        = Some (o ++ flat_map (cell_chunks cfg fl ws row) (range n))).
  { apply for_each_emit. intros x Hx%elem_of_range o.
    apply render_cell_spec. lia. }
  destruct fl, (use_border cfg), (headerless cfg), (use_separator cfg);
    cbn -[cell_chunks range]; rewrite Hcells; cbn -[cell_chunks range];
    rewrite <- ?app_assoc; cbn -[cell_chunks range]; rewrite ?app_nil_r; done.
Qed.

Lemma render_rows_spec cfg n (ws : list Z) (tab : list (list str)) :
  (n ≤ length ws)%nat →
  ∀ fl cout, ∃ btop bsep,
    border_of cfg n ws (top (tab_border_style cfg)) = Some btop ∧
    border_of cfg n ws (separator (tab_border_style cfg)) = Some bsep ∧
    for_each (render_row cfg n ws) (fl, cout) tab
    = Some (fl && bool_decide (tab = []),
            cout ++ rows_chunks cfg n ws fl btop bsep tab).
Proof.
  intros Hn. induction tab as [|row tab IH]; intros fl cout.
  - destruct (render_row_spec cfg n ws fl cout [] Hn) as (bt & bs & Ht & Hs & _).
    exists bt, bs. split; [done|]. split; [done|]. simpl.
    by rewrite app_nil_r, andb_true_r.
  - destruct (render_row_spec cfg n ws fl cout row Hn)
      as (bt & bs & Ht & Hs & Hrow).
    destruct (IH false (cout ++ row_chunks cfg n ws fl bt bs row))
      as (bt' & bs' & Ht' & Hs' & Hrest).
    assert (bt' = bt) as -> by congruence.
    assert (bs' = bs) as -> by congruence.
    exists bt, bs. split; [done|]. split; [done|].
    cbn [for_each]. rewrite Hrow. cbn [mbind option_bind].
    rewrite Hrest. rewrite andb_false_r. cbn [rows_chunks].
    by rewrite <- app_assoc.
Qed.

Lemma get_tab_col_width_total cfg (tab : list (list str)) :
  ∃ ws : list Z,
    get_tab_col_width cfg (get_max_col_count tab) tab = Some ws ∧
    length ws = get_max_col_count tab.
Proof.
  unfold get_tab_col_width.
  destruct (widen_table_spec tab (replicate (get_max_col_count tab) 0))
    as (ws & -> & Hlen & _).
  { apply Forall_forall. intros row Hrow. rewrite length_replicate.
    by apply get_max_col_count_ge. }
  exists (add_padding cfg ws). split; [done|].
  unfold add_padding. by rewrite length_fmap, Hlen, length_replicate.
Qed.

Lemma render_table_spec cfg n (ws : list Z) (tab : list (list str)) :
  (n ≤ length ws)%nat →
  ∃ btop bsep bbot,
    border_of cfg n ws (top (tab_border_style cfg)) = Some btop ∧
    border_of cfg n ws (separator (tab_border_style cfg)) = Some bsep ∧
    border_of cfg n ws (bottom (tab_border_style cfg)) = Some bbot ∧
    render_table cfg n ws tab
    = Some (rows_chunks cfg n ws true btop bsep tab
            ++ if use_border cfg then [bbot] else []).
Proof.
  intros Hn.
  destruct (render_rows_spec cfg n ws tab Hn true [])
    as (bt & bs & Ht & Hs & Hrows).
  destruct (border_of_total cfg n ws (bottom (tab_border_style cfg)) Hn)
    as [bb Hb].
  exists bt, bs, bb. split_and!; try done.
  unfold render_table. rewrite Hrows. cbn [mbind option_bind fst snd].
  rewrite Hb. destruct (use_border cfg); simpl; [done|by rewrite app_nil_r].
Qed.

(** The layout and rendering stages of [main] run to completion on every
    table. *)
Lemma main_after_header cfg stdin (tab : list (list str)) :
  set_header cfg (read_stdin cfg stdin) = Some tab →
  ∃ (ws : list Z) btop bsep bbot,
    let n := get_max_col_count tab in
    get_tab_col_width cfg n tab = Some ws ∧ length ws = n ∧
    border_of cfg n ws (top (tab_border_style cfg)) = Some btop ∧
    border_of cfg n ws (separator (tab_border_style cfg)) = Some bsep ∧
    border_of cfg n ws (bottom (tab_border_style cfg)) = Some bbot ∧
    main cfg stdin
    = Some (rows_chunks cfg n ws true btop bsep tab
            ++ if use_border cfg then [bbot] else []).
Proof.
  intros Hhdr.
  destruct (get_tab_col_width_total cfg tab) as (ws & Hws & Hlen).
  destruct (render_table_spec cfg (get_max_col_count tab) ws tab)
    as (bt & bs & bb & Ht & Hs & Hb & Hrender); [lia|].
  exists ws, bt, bs, bb. cbn zeta. split_and!; try done.
  unfold main. rewrite Hhdr. cbn [mbind option_bind]. rewrite Hws.
  cbn [mbind option_bind]. done.
Qed.

Lemma set_header_fault cfg (tab : list (list str)) :
  set_header cfg tab = None ↔
  usrinput_header_data cfg ≠ [] ∧ exclude_first_line cfg = false ∧ tab = [].
Proof.
  unfold set_header. case_bool_decide as Hh; simpl.
  - destruct (exclude_first_line cfg); simpl.
    + split; [done|]. by intros (_ & ? & _).
    + destruct tab; simpl; [done|]. split; [done|]. by intros (_ & _ & ?).
  - split; [done|]. by intros (? & _).
Qed.

(** C2. [main] accesses a vector out of bounds exactly when header names
    were given, the first line is not excluded and no row was collected:
    [cmdout_tab_data[0] = usrinput_header_data] then writes to the first
    element of an empty vector. Every other access is in bounds. *)
Theorem main_fault_iff cfg stdin :
  main cfg stdin = None ↔
  usrinput_header_data cfg ≠ [] ∧ exclude_first_line cfg = false
  ∧ read_stdin cfg stdin = [].
Proof.
  rewrite <- set_header_fault. split.
  - intros Hmain. destruct (set_header cfg (read_stdin cfg stdin)) as [tab|] eqn:Hh;
      [|done].
    destruct (main_after_header cfg stdin tab Hh) as (?&?&?&?&?&?&?&?&?&Hm).
    congruence.
  - intros Hh. unfold main. by rewrite Hh.
Qed.

(** Header names and an empty standard input. *)
Example main_fault_empty_input_hdata :
  main (set_usrinput_header_data [lit "id"; lit "name"] default_config) [] = None.
Proof. reflexivity. Qed.

(** C1. When no row was collected (and the header assignment does not
    fault), [main] with borders writes the bottom border alone, a left
    corner directly followed by a right corner: the top border is written
    by the first iteration of the row loop, which does not run. Without
    borders it writes nothing. *)
Theorem empty_table_output cfg stdin :
  read_stdin cfg stdin = [] →
  usrinput_header_data cfg = [] ∨ exclude_first_line cfg = true →
  main cfg stdin
  = Some (if use_border cfg
          then [table_color cfg
                ++ left_char_unicode (bottom (tab_border_style cfg))
                ++ right_char_unicode (bottom (tab_border_style cfg))
                ++ DEFAULT ++ endl]
          else []).
Proof.
  intros Hempty Hhdr.
  assert (Hset : set_header cfg (read_stdin cfg stdin) = Some []).
  { rewrite Hempty. unfold set_header.
    destruct Hhdr as [-> | ->]; [done|].
    by rewrite andb_false_r. }
  unfold main. rewrite Hset. cbn [mbind option_bind].
  unfold get_tab_col_width, render_table, border_of, get_tab_border. simpl.
  destruct (use_border cfg); simpl; done.
Qed.

Lemma empty_table_output_witness :
  main default_config []
  = Some [lit "└" ++ lit "┘" ++ DEFAULT ++ endl].
Proof.
  apply (empty_table_output default_config []).
  - reflexivity.
  - left. reflexivity.
Defined.

(** ** Header data *)

(** The text written for a cell is the cell between two runs of spaces. *)
Lemma aligned_text_shape (c a : str) (w : Z) :
  ∃ l r : nat,
    setw_left (align_text c w a).1 (align_text c w a).2
    = replicate l SPACE ++ c ++ replicate r SPACE.
Proof.
  unfold setw_left, align_text, string_n.
  repeat case_decide; cbn [fst snd].
  all: try (eexists _, _; rewrite <- app_assoc; reflexivity).
  all: try (eexists _, _; rewrite <- !app_assoc, <- replicate_add; reflexivity).
  all: exists 0%nat; eexists; rewrite <- app_assoc, <- replicate_add; reflexivity.
Qed.

(** C7. When header names are given and the first line is not excluded, the
    first collected row is replaced by the list of names as a whole, the
    other rows are kept, and what [main] lays out and renders is that table:
    the first row written is made of the cells of the names, each name
    between two runs of spaces, followed by the rows after the first input
    row, and the output is the same whatever the first input row holds.
    When the first line is excluded the names are not applied: the
    collected table is rendered as it is, and the output is the one
    written without any name. *)
Theorem explicit_header_replaces_row0 cfg stdin :
  (usrinput_header_data cfg ≠ [] → exclude_first_line cfg = false →
   ∀ row0 rest, read_stdin cfg stdin = row0 :: rest →
     let tab := usrinput_header_data cfg :: rest in
     let n := get_max_col_count tab in
     set_header cfg (read_stdin cfg stdin) = Some tab ∧
     tab !! 0%nat = Some (usrinput_header_data cfg) ∧
     main cfg stdin
     = (get_tab_col_width cfg (get_max_col_count tab) tab ≫= λ ws,
        render_table cfg (get_max_col_count tab) ws tab) ∧
     (length (usrinput_header_data cfg) ≤ n)%nat ∧
     (∃ (ws : list Z) (btop bsep bbot : str),
        get_tab_col_width cfg n tab = Some ws ∧
        border_of cfg n ws (top (tab_border_style cfg)) = Some btop ∧
        border_of cfg n ws (separator (tab_border_style cfg)) = Some bsep ∧
        border_of cfg n ws (bottom (tab_border_style cfg)) = Some bbot ∧
        main cfg stdin
        = Some ((if use_border cfg
                 then [btop; table_color cfg;
                       vertical_line (tab_border_style cfg); DEFAULT]
                 else [])
                ++ flat_map (cell_chunks cfg true ws (usrinput_header_data cfg))
                     (range n)
                ++ [endl]
                ++ (if negb (headerless cfg) && use_border cfg
                       && use_separator cfg
                    then [bsep] else [])
                ++ rows_chunks cfg n ws false btop bsep rest
                ++ (if use_border cfg then [bbot] else [])) ∧
        ∀ (i : nat) (name : str), usrinput_header_data cfg !! i = Some name →
          ∃ (w : Z) (l r : nat) (hstyle bstyle divider : str),
            ws !! i = Some w ∧
            cell_chunks cfg true ws (usrinput_header_data cfg) i
            = [hstyle; bstyle; replicate l SPACE ++ name ++ replicate r SPACE;
               DEFAULT; table_color cfg; divider]) ∧
     (∀ stdin' row0', read_stdin cfg stdin' = row0' :: rest →
        main cfg stdin' = main cfg stdin))
  ∧ (exclude_first_line cfg = true →
     set_header cfg (read_stdin cfg stdin) = Some (read_stdin cfg stdin) ∧
     main cfg stdin = main (set_usrinput_header_data [] cfg) stdin).
Proof.
  split.
  - intros Hne Hex row0 rest Hread tab n.
    assert (Hset : ∀ s r0, read_stdin cfg s = r0 :: rest →
                           set_header cfg (read_stdin cfg s) = Some tab).
    { intros s r0 Hs. unfold set_header.
      rewrite Hs, Hex, bool_decide_eq_true_2 by done. done. }
    assert (Hmain : ∀ s r0, read_stdin cfg s = r0 :: rest →
      main cfg s = (get_tab_col_width cfg n tab ≫= λ ws,
                    render_table cfg n ws tab)).
    { intros s r0 Hs. unfold main. by rewrite (Hset s r0 Hs). }
    assert (Hlen : (length (usrinput_header_data cfg) ≤ n)%nat).
    { apply get_max_col_count_ge. by left. }
    split_and!; [by eapply Hset|done|by eapply Hmain|done| |].
    + destruct (main_after_header cfg stdin tab (Hset _ _ Hread))
        as (ws & bt & bs & bb & Hws & Hwn & Hbt & Hbs & Hbb & Hout).
      exists ws, bt, bs, bb. fold n in Hws, Hwn, Hbt, Hbs, Hbb, Hout.
      split_and!; [done..| |].
      * rewrite Hout. f_equal. subst tab. cbn [rows_chunks].
        unfold row_chunks. cbn [andb].
        destruct (use_border cfg); cbn [app];
          by rewrite <- ?app_assoc.
      * intros i name Hi.
        pose proof (lookup_lt_Some _ _ _ Hi) as Hlt.
        destruct (lookup_lt_is_Some_2 ws i ltac:(lia)) as [w Hw].
        destruct (aligned_text_shape name
          (if true && negb (headerless cfg) then header_text_align cfg
           else if negb true || headerless cfg then body_text_align cfg
           else ALIGN_LEFT) w) as (l & r & Hshape).
        exists w, l, r. unfold cell_chunks. rewrite Hi, Hw.
        cbn [default from_option]. unfold id. rewrite Hshape.
        by do 3 eexists.
    + intros stdin' row0' Hread'.
      by rewrite (Hmain _ _ Hread'), (Hmain _ _ Hread).
  - intros Hex. split.
    + unfold set_header. rewrite Hex. by rewrite andb_false_r.
    + unfold main, set_header. simpl. rewrite Hex, andb_false_r. simpl.
      reflexivity.
Qed.

Lemma explicit_header_replaces_row0_witness :
  set_header (set_usrinput_header_data [lit "id"; lit "name"] default_config)
    [[lit "x"; lit "y"]; [lit "a"; lit "b"]]
  = Some [[lit "id"; lit "name"]; [lit "a"; lit "b"]].
Proof.
  pose proof (explicit_header_replaces_row0
    (set_usrinput_header_data [lit "id"; lit "name"] default_config)
    (lit "x y" ++ [NEWLINE] ++ lit "a b" ++ [NEWLINE])) as [H _].
  apply (H ltac:(discriminate) eq_refl [lit "x"; lit "y"] [[lit "a"; lit "b"]]).
  reflexivity.
Defined.

(** Scenario D: the rendered header row shows [id] and [name]. *)
Example scenario_D :
  main_output (set_usrinput_header_data [lit "id"; lit "name"] default_config)
    (lit "x y" ++ [NEWLINE] ++ lit "a b" ++ [NEWLINE])
  = Some (lit "┌────┬──────┐" ++ DEFAULT ++ endl
          ++ lit "│" ++ DEFAULT ++ lit "id  " ++ DEFAULT ++ lit "│"
             ++ lit "name  " ++ DEFAULT ++ lit "│" ++ endl
          ++ lit "├────┼──────┤" ++ DEFAULT ++ endl
          ++ lit "│" ++ DEFAULT ++ lit "a   " ++ DEFAULT ++ lit "│"
             ++ lit "b     " ++ DEFAULT ++ lit "│" ++ endl
          ++ lit "└────┴──────┘" ++ DEFAULT ++ endl).
Proof. vm_compute. reflexivity. Qed.

(** ** The border renderer *)

(** C3, at the failing input. For two columns of width 1 (one-character
    cells, no padding) the border line has the two fill glyphs and no
    junction glyph between them, whatever the glyphs are: 4 glyphs where
    [2 + (1 + 1) + (2 - 1) = 5] are expected. The test
    [temp_col_width < max_col_width - 1] stands for "this is not the last
    column" and is false as soon as the columns that follow have width 1. *)
Theorem border_unit_columns_no_junction (l m r f color : str) :
  get_tab_border_oss 2 [1; 1] l m r f color
    = Some [color; l; f; f; r; DEFAULT; endl]
  ∧ get_tab_border_oss 2 [1; 1] l m r f color
    ≠ Some [color; l; f; m; f; r; DEFAULT; endl].
Proof. split; [reflexivity | discriminate]. Qed.

(** The same in the output of [main]: the rows have a divider between the
    two cells, the three border lines have no junction. *)
Example border_unit_columns_rendered :
  main_output (set_col_padding 0 default_config) (lit "a b" ++ [NEWLINE])
  = Some (lit "┌──┐" ++ DEFAULT ++ endl
          ++ lit "│" ++ DEFAULT ++ lit "a" ++ DEFAULT ++ lit "│"
             ++ lit "b" ++ DEFAULT ++ lit "│" ++ endl
          ++ lit "├──┤" ++ DEFAULT ++ endl
          ++ lit "└──┘" ++ DEFAULT ++ endl).
Proof. vm_compute. reflexivity. Qed.

(** With the widths of scenario A the junction is there. *)
Example border_scenario_A (l m r f color : str) :
  get_tab_border_oss 2 [4; 3] l m r f color
  = Some [color; l; f; f; f; f; m; f; f; f; r; DEFAULT; endl].
Proof. reflexivity. Qed.

(** *** The border line when no sum wraps *)

Lemma to_int_small z : - 2 ^ 31 ≤ z < 2 ^ 31 → to_int z = z.
Proof. intros Hz. unfold to_int. rewrite Z.mod_small by lia. lia. Qed.

Lemma to_size_small z : 0 ≤ z < 2 ^ 64 → to_size z = z.
Proof. intros Hz. unfold to_size. by rewrite Z.mod_small. Qed.

Lemma sum_widths_app ws1 ws2 :
  sum_widths (ws1 ++ ws2) = sum_widths ws1 + sum_widths ws2.
Proof. induction ws1 as [|w ws1 IH]; simpl; [done|]. rewrite IH. lia. Qed.

Lemma sum_widths_ge ws :
  Forall (λ w, 1 ≤ w) ws → Z.of_nat (length ws) ≤ sum_widths ws.
Proof. induction 1 as [|w ws Hw _ IH]; simpl; lia. Qed.

Lemma border_total_sum ws :
  Forall (λ w, 1 ≤ w) ws → sum_widths ws < 2 ^ 31 →
  border_total ws = sum_widths ws.
Proof.
  intros Hws Hsum. unfold border_total.
  assert (Hgen : ∀ a, 0 ≤ a → a + sum_widths ws < 2 ^ 31 →
    foldl (λ m w, to_int (to_size (to_size m + w))) a ws = a + sum_widths ws).
  { clear Hsum. induction Hws as [|w ws Hw Hws IH]; intros a Ha Hb; simpl in *;
      [lia|].
    pose proof (sum_widths_ge ws Hws).
    rewrite (to_size_small a), (to_size_small (a + w)), to_int_small by lia.
    rewrite IH by lia. lia. }
  rewrite Hgen by lia. lia.
Qed.

Lemma border_column_fill_run w temp max m f :
  1 ≤ w < 2 ^ 64 →
  border_column_fill w temp max m f
  = replicate (Z.to_nat w) f
    ++ if bool_decide (temp < to_int (max - 1)) then [m] else [].
Proof.
  intros Hw. unfold border_column_fill.
  rewrite (to_size_small (w - 1)) by lia.
  destruct (Z.to_nat w) as [|j] eqn:Hj; [lia|].
  rewrite range_S, flat_map_app. simpl.
  rewrite (bool_decide_eq_true_2 (Z.of_nat j = w - 1)) by lia. simpl.
  assert (Hrun : flat_map (λ nd_index : nat,
      f :: (if bool_decide (Z.of_nat nd_index = w - 1)
               && bool_decide (temp < to_int (max - 1))
            then [m] else [])) (range j) = replicate j f).
  { assert (Hgen : ∀ i, (i ≤ j)%nat → flat_map (λ nd_index : nat,
      f :: (if bool_decide (Z.of_nat nd_index = w - 1)
               && bool_decide (temp < to_int (max - 1))
            then [m] else [])) (range i) = replicate i f).
    { induction i as [|i IH]; intros Hi; [done|].
      rewrite range_S, flat_map_app, IH by lia. simpl.
      rewrite (bool_decide_eq_false_2 (Z.of_nat i = w - 1)) by lia. simpl.
      by rewrite <- replicate_S_end. }
    by apply Hgen. }
  rewrite Hrun, app_nil_r, cons_middle, app_assoc, <- replicate_S_end.
  done.
Qed.

(** Without wrap-around, [get_tab_border] writes a junction after a column
    exactly when the widths of the following columns add up to more than
    their number. *)
Lemma get_tab_border_oss_columns (ws : list Z) l m r f color :
  Forall (λ w, 1 ≤ w) ws → sum_widths ws < 2 ^ 31 →
  get_tab_border_oss (length ws) ws l m r f color
  = Some ([color; l] ++ border_columns ws m f ++ [r; DEFAULT; endl]).
Proof.
  intros Hws Hsum. unfold get_tab_border_oss.
  pose proof (sum_widths_ge ws Hws) as Hn.
  rewrite border_total_sum by done.
  destruct ws as [|w0 ws0] eqn:Hws0; [done|]. rewrite <- Hws0 in *.
  assert (Hlen : 1 ≤ Z.of_nat (length ws)) by (rewrite Hws0; simpl; lia).
  clear Hws0 w0 ws0.
  rewrite (to_size_small (sum_widths ws)), (to_size_small (_ - 1)) by lia.
  rewrite to_size_small, to_int_small by lia.
  set (max := sum_widths ws - (Z.of_nat (length ws) - 1)).
  match goal with |- context [for_each ?body ?init ?idxs] =>
    destruct (for_each_invariant body
      (λ dn acc, acc.1 = sum_widths (take (length dn) ws) - Z.of_nat (length dn) ∧
         ∃ pre, acc.2 = [color; l] ++ pre ∧
                pre ++ border_columns (drop (length dn) ws) m f
                = border_columns ws m f) init idxs)
      as (acc & -> & Hacc1 & pre & Hacc2 & Hpre)
  end.
  - split; [done|]. by exists [].
  - intros dn x [t o] [rest Hr] [Ht (pre & Ho & Hpre)].
    apply range_prefix in Hr as [-> Hx]. rewrite length_range in *.
    simpl in Ht, Ho. subst t o. unfold border_column.
    destruct (lookup_lt_is_Some_2 ws x Hx) as [w Hw]. rewrite Hw. simpl.
    assert (Hw1 : 1 ≤ w) by (rewrite Forall_lookup in Hws; by apply (Hws _ _ Hw)).
    pose proof (take_drop x ws) as Htd.
    pose proof (sum_widths_app (take x ws) (drop x ws)) as Hsplit.
    rewrite Htd in Hsplit. rewrite (drop_S ws w x Hw) in Hsplit, Hpre.
    simpl in Hsplit.
    assert (Hpre_ge : Z.of_nat x ≤ sum_widths (take x ws)).
    { rewrite <- (length_take_le ws x) at 1 by lia.
      apply sum_widths_ge. by apply Forall_take. }
    assert (Hpost_ge : Z.of_nat (length (drop (S x) ws)) ≤ sum_widths (drop (S x) ws)).
    { apply sum_widths_ge. by apply Forall_drop. }
    rewrite length_drop in Hpost_ge.
    rewrite (to_size_small (w - 1)), (to_size_small (_ - Z.of_nat x)) by lia.
    rewrite to_size_small, to_int_small by lia.
    eexists. split; [done|]. rewrite length_app, length_range. simpl.
    replace (x + 1)%nat with (S x) by lia. split.
    + rewrite (take_S_r ws x w Hw), sum_widths_app. simpl. lia.
    + rewrite border_column_fill_run by lia.
      eexists. split; [done|].
      rewrite <- Hpre. simpl. rewrite <- !app_assoc. do 2 f_equal.
      rewrite length_drop. f_equal.
      subst max. rewrite to_int_small by lia.
      repeat case_bool_decide; (done || lia).
  - rewrite length_range, drop_all, app_nil_r in Hpre. subst pre.
    simpl. rewrite Hacc2. by rewrite <- app_assoc.
Qed.

(** With every width at least 2 that is the documented line... *)
Lemma border_columns_wide (ws : list Z) m f :
  Forall (λ w, 2 ≤ w) ws → border_columns ws m f = border_columns_doc ws m f.
Proof.
  induction 1 as [|w ws Hw Hws IH]; [done|]. simpl. rewrite IH.
  do 2 f_equal. destruct ws as [|w' ws]; [done|].
  apply Forall_cons in Hws as [Hw' Hws].
  rewrite bool_decide_eq_true_2; [done|].
  assert (Hws1 : Forall (λ w, 1 ≤ w) ws).
  { eapply Forall_impl; [exact Hws|]. intros z Hz. simpl in Hz. lia. }
  pose proof (sum_widths_ge ws Hws1). simpl. lia.
Qed.

(** ... of [2 + sum of the widths + (number of columns - 1)] glyphs, the
    colour, the reset and the newline left out. *)
Lemma border_columns_doc_length (ws : list Z) m f :
  ws ≠ [] → Forall (λ w, 0 ≤ w) ws →
  Z.of_nat (length (border_columns_doc ws m f))
  = sum_widths ws + (Z.of_nat (length ws) - 1).
Proof.
  intros Hne Hws. induction Hws as [|w ws Hw Hws IH]; [done|].
  destruct ws as [|w' ws'].
  - simpl. rewrite app_nil_r, length_replicate. lia.
  - specialize (IH ltac:(done)).
    change (border_columns_doc (w :: w' :: ws') m f)
      with (replicate (Z.to_nat w) f ++ [m] ++ border_columns_doc (w' :: ws') m f).
    rewrite !length_app, length_replicate.
    change (sum_widths (w :: w' :: ws')) with (w + sum_widths (w' :: ws')).
    change (length (w :: w' :: ws')) with (S (length (w' :: ws'))).
    simpl length at 1. lia.
Qed.

(** For columns of width at least 2 (any cell with the default padding)
    the border line is as documented. *)
Lemma get_tab_border_oss_wide (ws : list Z) l m r f color :
  ws ≠ [] → Forall (λ w, 2 ≤ w) ws → sum_widths ws < 2 ^ 31 →
  ∃ line,
    get_tab_border_oss (length ws) ws l m r f color
    = Some ([color; l] ++ line ++ [r; DEFAULT; endl]) ∧
    line = border_columns_doc ws m f ∧
    2 + Z.of_nat (length line) = 2 + sum_widths ws + (Z.of_nat (length ws) - 1).
Proof.
  intros Hne Hws Hsum. exists (border_columns_doc ws m f).
  split_and!; [|done|].
  - rewrite <- border_columns_wide by done.
    apply get_tab_border_oss_columns; [|done].
    eapply Forall_impl; [exact Hws|]. intros z Hz. simpl in Hz. lia.
  - rewrite border_columns_doc_length; [lia|done|].
    eapply Forall_impl; [exact Hws|]. intros z Hz. simpl in Hz. lia.
Qed.

(** ** The reader on separators and on content *)

Section reader.
Variable sep : ascii.

Let cfg0 := set_col_separator sep default_config.
Let step := read_char cfg0.

Lemma is_wspace_newline : is_wspace NEWLINE sep = true.
Proof.
  unfold is_wspace. case_decide; [|reflexivity].
  rewrite (bool_decide_eq_true_2 (NEWLINE = NEWLINE)) by done.
  apply orb_true_r.
Qed.

Lemma read_char_content (r : reader) c :
  is_wspace c sep = false →
  step r c = {| cmdout_char_queue := cmdout_char_queue r ++ [c];
                temp_row_data := temp_row_data r;
                cmdout_tab_data := cmdout_tab_data r;
                first_line := first_line r |}.
Proof. intros Hc. unfold step, read_char. simpl. by rewrite Hc. Qed.

Lemma read_char_separator (r : reader) c :
  is_wspace c sep = true → c ≠ NEWLINE → step r c = flush_token r.
Proof.
  intros Hc Hnl. unfold step, read_char, flush_token. simpl. rewrite Hc.
  rewrite (bool_decide_eq_false_2 (c = NEWLINE)) by done.
  case_bool_decide as Hq; [|done].
  simpl. by rewrite orb_true_r.
Qed.

Lemma read_char_newline (r : reader) :
  step r NEWLINE = flush_row (flush_token r).
Proof.
  unfold step, read_char, flush_row, flush_token. simpl.
  rewrite is_wspace_newline.
  case_bool_decide as Hq; simpl.
  - by rewrite orb_true_r, andb_false_r.
  - by rewrite andb_false_r.
Qed.

Lemma read_content (r : reader) (s : str) :
  Forall (λ ch, is_wspace ch sep = false) s →
  foldl step r s = {| cmdout_char_queue := cmdout_char_queue r ++ s;
                      temp_row_data := temp_row_data r;
                      cmdout_tab_data := cmdout_tab_data r;
                      first_line := first_line r |}.
Proof.
  intros Hs. revert r. induction Hs as [|c s Hc _ IH]; intros r; simpl.
  - rewrite app_nil_r. by destruct r.
  - rewrite read_char_content by done. rewrite IH. simpl.
    by rewrite <- app_assoc.
Qed.

Lemma flush_token_idemp (r : reader) : flush_token (flush_token r) = flush_token r.
Proof. by destruct r as [[|a q] tr tb fl]. Qed.

Hypothesis space_separates : is_wspace SPACE sep = true.

Lemma read_spaces (r : reader) (k : nat) :
  foldl step r (replicate k SPACE) = if k is O then r else flush_token r.
Proof.
  revert r. induction k as [|k IH]; intros r; [done|]. simpl.
  rewrite read_char_separator by done. rewrite IH.
  destruct k; [done|]. apply flush_token_idemp.
Qed.

End reader.

(** ** The first line *)

(** C4, at the failing input. With the first line excluded and an input
    whose first line ends at the end of the stream, the last token of that
    line is stored: the flush after EOF pushes the pending token without
    the test on [first_line] and [exclude_first_line] that the loop makes. *)
Theorem excluded_first_line_eof_token_kept :
  read_stdin (simplify default_config) (lit "a b") = [[lit "b"]]
  ∧ read_stdin (simplify default_config) (lit "a") = [[lit "a"]].
Proof. split; reflexivity. Qed.

(** The excluded line is the first line of the input, also when it is
    blank. *)
Example excluded_first_line_blank :
  read_stdin (simplify default_config)
    ([NEWLINE] ++ lit "a b" ++ [NEWLINE] ++ lit "c d" ++ [NEWLINE])
  = [[lit "a"; lit "b"]; [lit "c"; lit "d"]].
Proof. reflexivity. Qed.

(** When the first line ends in a newline its tokens are dropped. *)
Example excluded_first_line_newline :
  read_stdin (simplify default_config)
    (lit "a b" ++ [NEWLINE] ++ lit "c d" ++ [NEWLINE])
  = [[lit "c"; lit "d"]].
Proof. reflexivity. Qed.

(** *** A first line that ends in a newline *)

(** While the first line is read with the exclusion set, nothing is
    stored. *)
Lemma read_char_excluded cfg (r : reader) c :
  exclude_first_line cfg = true → c ≠ NEWLINE →
  temp_row_data r = [] → cmdout_tab_data r = [] → first_line r = true →
  let r' := read_char cfg r c in
  temp_row_data r' = [] ∧ cmdout_tab_data r' = [] ∧ first_line r' = true.
Proof.
  intros Hex Hc Htr Htb Hfl. unfold read_char.
  destruct (is_wspace c (col_separator cfg)); [|done].
  rewrite (bool_decide_eq_false_2 (c = NEWLINE)) by done.
  case_bool_decide; simpl; [|done]. by rewrite Hfl, Hex.
Qed.

Lemma read_excluded_line cfg (line : str) (r : reader) :
  exclude_first_line cfg = true → NEWLINE ∉ line →
  temp_row_data r = [] → cmdout_tab_data r = [] → first_line r = true →
  let r' := foldl (read_char cfg) r line in
  temp_row_data r' = [] ∧ cmdout_tab_data r' = [] ∧ first_line r' = true.
Proof.
  intros Hex. revert r. induction line as [|c line IH]; intros r Hnl Htr Htb Hfl;
    [done|].
  apply not_elem_of_cons in Hnl as [Hc Hnl]. simpl.
  destruct (read_char_excluded cfg r c) as (?&?&?); [done..|].
  by apply IH.
Qed.

(** After the first line the reader behaves as the reader that excludes
    nothing: the two differ by [first_line] only. *)
Lemma read_char_after_first_line cfg (r r' : reader) c :
  first_line r = false →
  cmdout_char_queue r = cmdout_char_queue r' →
  temp_row_data r = temp_row_data r' →
  cmdout_tab_data r = cmdout_tab_data r' →
  let s := read_char cfg r c in
  let s' := read_char (set_col_separator (col_separator cfg) default_config) r' c in
  first_line s = false ∧ cmdout_char_queue s = cmdout_char_queue s' ∧
  temp_row_data s = temp_row_data s' ∧ cmdout_tab_data s = cmdout_tab_data s'.
Proof.
  destruct r as [q tr tb fl], r' as [q' tr' tb' fl']. simpl.
  intros -> <- <- <-. unfold read_char. simpl.
  destruct (is_wspace c (col_separator cfg)); [|done].
  destruct q as [|x q]; simpl; rewrite ?orb_true_r, ?andb_false_r;
    case_bool_decide; simpl; rewrite ?andb_false_r; try done;
    destruct fl'; simpl; case_bool_decide; done.
Qed.

Lemma read_after_first_line cfg (s : str) (r r' : reader) :
  first_line r = false →
  cmdout_char_queue r = cmdout_char_queue r' →
  temp_row_data r = temp_row_data r' →
  cmdout_tab_data r = cmdout_tab_data r' →
  flush_eof (foldl (read_char cfg) r s)
  = flush_eof (foldl (read_char (set_col_separator (col_separator cfg) default_config)) r' s).
Proof.
  revert r r'. induction s as [|c s IH]; intros r r' Hfl Hq Htr Htb; simpl.
  - unfold flush_eof. by rewrite Hq, Htr, Htb.
  - destruct (read_char_after_first_line cfg r r' c Hfl Hq Htr Htb)
      as (?&?&?&?).
    by apply IH.
Qed.

Lemma read_char_excluded_newline cfg (r : reader) :
  exclude_first_line cfg = true →
  temp_row_data r = [] → cmdout_tab_data r = [] → first_line r = true →
  read_char cfg r NEWLINE
  = {| cmdout_char_queue := []; temp_row_data := [];
       cmdout_tab_data := []; first_line := false |}.
Proof.
  destruct r as [q tr tb fl]. simpl. intros Hex -> -> ->.
  unfold read_char. rewrite is_wspace_newline. simpl. rewrite Hex.
  by destruct q.
Qed.

(** A first line that ends in a newline is dropped with all its tokens,
    and the table is the one read from the rest of the input. *)
Lemma excluded_first_line_dropped cfg (line rest : str) :
  exclude_first_line cfg = true → NEWLINE ∉ line →
  read_stdin cfg (line ++ NEWLINE :: rest) = tokenize (col_separator cfg) rest.
Proof.
  intros Hex Hnl. unfold tokenize, read_stdin. rewrite foldl_app.
  destruct (read_excluded_line cfg line reader_init Hex Hnl) as (Htr & Htb & Hfl);
    [done..|].
  cbn [foldl]. rewrite read_char_excluded_newline by done.
  by apply read_after_first_line.
Qed.

(** *** The tokens *)

(** Every collected row has a cell, and every cell is a non-empty run of
    characters that are not separators. *)
Lemma read_char_tokens cfg (r : reader) c :
  let nonsep := λ ch, is_wspace ch (col_separator cfg) = false in
  let cell_ok := λ t : str, t ≠ [] ∧ Forall nonsep t in
  let row_ok := λ row : list str, row ≠ [] ∧ Forall cell_ok row in
  Forall nonsep (cmdout_char_queue r) → Forall cell_ok (temp_row_data r) →
  Forall row_ok (cmdout_tab_data r) →
  Forall nonsep (cmdout_char_queue (read_char cfg r c))
  ∧ Forall cell_ok (temp_row_data (read_char cfg r c))
  ∧ Forall row_ok (cmdout_tab_data (read_char cfg r c)).
Proof.
  intros nonsep cell_ok row_ok Hq Htr Htb.
  destruct r as [q tr tb fl]. simpl in *. unfold read_char. simpl.
  destruct (is_wspace c (col_separator cfg)) eqn:Hc; simpl.
  - assert (Hpush : Forall cell_ok
      (if bool_decide (q ≠ []) && (negb fl || negb (exclude_first_line cfg))
       then tr ++ [q] else tr)).
    { case_bool_decide; simpl; [|done].
      destruct (negb fl || negb (exclude_first_line cfg)); [|done].
      apply Forall_app. split; [done|]. by repeat constructor. }
    repeat case_bool_decide; simpl;
      repeat (match goal with
              | |- context [if ?b then _ else _] => destruct b eqn:?; simpl
              end);
      split_and!; try done; try (by constructor);
      try (apply Forall_app; split; [done|]; repeat constructor; try done).
  - split_and!; try done. apply Forall_app. split; [done|]. by repeat constructor.
Qed.

Lemma read_stdin_tokens cfg (stdin : str) :
  Forall (λ row : list str,
    row ≠ [] ∧
    Forall (λ t : str,
      t ≠ [] ∧ Forall (λ ch, is_wspace ch (col_separator cfg) = false) t) row)
    (read_stdin cfg stdin).
Proof.
  unfold read_stdin.
  assert (Hinv : ∀ r : reader,
    Forall (λ ch, is_wspace ch (col_separator cfg) = false) (cmdout_char_queue r) →
    Forall (λ t : str, t ≠ [] ∧
      Forall (λ ch, is_wspace ch (col_separator cfg) = false) t) (temp_row_data r) →
    Forall (λ row : list str, row ≠ [] ∧ Forall (λ t : str, t ≠ [] ∧
      Forall (λ ch, is_wspace ch (col_separator cfg) = false) t) row)
      (cmdout_tab_data r) →
    Forall (λ row : list str, row ≠ [] ∧ Forall (λ t : str, t ≠ [] ∧
      Forall (λ ch, is_wspace ch (col_separator cfg) = false) t) row)
      (flush_eof (foldl (read_char cfg) r stdin))).
  { induction stdin as [|c s IH]; intros r Hq Htr Htb.
    - simpl. unfold flush_eof.
      repeat case_bool_decide; try done;
        apply Forall_app; (split; [done|]); repeat constructor; try done.
      apply Forall_app. split; [done|]. by repeat constructor.
    - simpl. destruct (read_char_tokens cfg r c Hq Htr Htb) as (?&?&?).
      by apply IH. }
  by apply Hinv.
Qed.

(** ** Colour *)

(** C9, at the failing input. With a table colour, each cell is followed by
    the reset, the table colour and the divider, and nothing resets the
    colour after the divider: it is active at the end of the row line, and
    without borders at the end of the output. *)
Theorem table_color_leaks :
  sgr_leak <$> main_output (set_table_color RED default_config)
                 (lit "a" ++ [NEWLINE]) = Some true
  ∧ main (set_table_color RED (set_use_border false default_config))
      (lit "a" ++ [NEWLINE])
    = Some [[]; []; lit "a  "; DEFAULT; RED; []; endl]
  ∧ sgr_leak <$> main_output
                   (set_table_color RED (set_use_border false default_config))
                   (lit "a" ++ [NEWLINE]) = Some true.
Proof. split_and!; vm_compute; reflexivity. Qed.

(** Without a table colour the same table leaves no attribute active. *)
Example no_table_color_no_leak :
  sgr_leak <$> main_output default_config (lit "a" ++ [NEWLINE]) = Some false.
Proof. vm_compute. reflexivity. Qed.

(** ** Re-tokenizing the rendered table *)

(** C8, counterexample. Without borders, colours and styles and with
    padding 0, the row [ab], [c] is rendered as [abc]: tokenizing the text
    again gives one cell. *)
Lemma roundtrip_fails_without_padding :
  let cfg := set_col_padding 0 (set_use_border false default_config) in
  let tab := [[lit "ab"; lit "c"]] in
  unstyled cfg ∧ plain_table (col_separator cfg) tab ∧
  read_stdin cfg (lit "ab c" ++ [NEWLINE]) = tab ∧
  ¬ roundtrips cfg tab.
Proof.
  split_and!.
  - by repeat split.
  - repeat constructor; discriminate.
  - reflexivity.
  - intros (ws & out & Hws & Hout & Htok).
    vm_compute in Hws. injection Hws as <-.
    vm_compute in Hout. injection Hout as <-.
    vm_compute in Htok. discriminate.
Qed.

(** The same table with the default padding and the borders: the dividers
    stick to the cells. *)
Example roundtrip_fails_with_borders :
  tokenize SPACE (strip_ansi (lit "│" ++ DEFAULT ++ lit "ab  " ++ DEFAULT
                              ++ lit "│" ++ lit "c  " ++ DEFAULT ++ lit "│" ++ endl))
  = [[lit "│ab"; lit "│c"; lit "│"]].
Proof. reflexivity. Qed.

(** Under the tab policy the spaces of the padding do not separate. *)
Example roundtrip_fails_with_tab :
  let cfg := set_col_separator TAB (set_use_border false default_config) in
  read_stdin cfg (lit "ab" ++ [TAB] ++ lit "c" ++ [NEWLINE])
    = [[lit "ab"; lit "c"]]
  ∧ ¬ roundtrips cfg [[lit "ab"; lit "c"]].
Proof.
  split; [reflexivity|].
  intros (ws & out & Hws & Hout & Htok).
  vm_compute in Hws. injection Hws as <-.
  vm_compute in Hout. injection Hout as <-.
  vm_compute in Htok. discriminate.
Qed.

(** *** The text of a rendered cell *)

Lemma to_int_le w : 0 ≤ w → to_int w ≤ w.
Proof.
  intros Hw. unfold to_int.
  pose proof (Z.mod_le (w + 2 ^ 31) (2 ^ 32) ltac:(lia) ltac:(lia)). lia.
Qed.

Lemma string_n_replicate n c : string_n n c = replicate (Z.to_nat n) c.
Proof. done. Qed.

(** A cell narrower than its column: the text between two runs of spaces,
    at least one space before it when right aligned, at least one after it
    otherwise. *)
Lemma padded_shape (a c : str) (w : Z) :
  strlen c < w →
  ∃ l r : nat,
    setw_left (align_text c w a).1 (align_text c w a).2
      = replicate l SPACE ++ c ++ replicate r SPACE
    ∧ if decide (a = ALIGN_RIGHT) then (1 ≤ l)%nat ∧ r = 0%nat
      else (1 ≤ r)%nat.
Proof.
  intros Hw. pose proof (strlen_nonneg c) as Hc.
  assert (Hsetw : ∀ s : str, strlen s = w → setw_left w s = s).
  { intros s Hs. unfold setw_left.
    rewrite string_n_nonpos; [by rewrite app_nil_r|].
    pose proof (to_int_le w ltac:(lia)). lia. }
  unfold align_text. rewrite (decide_True (P := w > strlen c)) by lia.
  destruct (decide (a = ALIGN_RIGHT)) as [Ha|Ha]; cbn [fst snd].
  - exists (Z.to_nat (w - strlen c)), 0%nat. split; [|lia].
    rewrite Hsetw.
    + by rewrite app_nil_r.
    + rewrite strlen_app, strlen_string_n. lia.
  - pose proof (Z.div_mod (w - strlen c) 2 ltac:(lia)).
    pose proof (Z.mod_pos_bound (w - strlen c) 2 ltac:(lia)).
    case_decide; cbn [fst snd].
    + exists (Z.to_nat ((w - strlen c) `div` 2)),
             (Z.to_nat (w - strlen c - (w - strlen c) `div` 2)).
      split; [|lia]. rewrite Hsetw; [done|].
      rewrite !strlen_app, !strlen_string_n. lia.
    + exists 0%nat, (Z.to_nat (w - strlen c)). split; [|lia].
      rewrite Hsetw; [done|].
      rewrite strlen_app, strlen_string_n. lia.
Qed.

(** *** Removing the escape sequences *)

Lemma strip_ansi_plain (s t : str) :
  Forall (λ ch, ch ≠ ESC) s → strip_ansi (s ++ t) = s ++ strip_ansi t.
Proof.
  unfold strip_ansi. induction 1 as [|c s Hc _ IH]; [done|]. simpl.
  rewrite bool_decide_eq_false_2 by done. by rewrite IH.
Qed.

Lemma strip_ansi_DEFAULT (t : str) : strip_ansi (DEFAULT ++ t) = strip_ansi t.
Proof. reflexivity. Qed.

Lemma Forall_padded (P : ascii → Prop) (a c : str) (w : Z) :
  strlen c < w → P SPACE → Forall P c →
  Forall P (setw_left (align_text c w a).1 (align_text c w a).2).
Proof.
  intros Hw Hsp Hc. destruct (padded_shape a c w Hw) as (l & r & -> & _).
  rewrite !Forall_app. split_and!; [|done|]; by apply Forall_replicate.
Qed.

(** *** The reader on a rendered row *)

Lemma flush_token_queue (r : reader) : cmdout_char_queue (flush_token r) = [].
Proof. by destruct r as [[|a q] tr tb fl]. Qed.

Lemma flush_token_tab (r : reader) :
  cmdout_tab_data (flush_token r) = cmdout_tab_data r.
Proof. by destruct r as [[|a q] tr tb fl]. Qed.

Lemma flush_token_no_queue (r : reader) :
  cmdout_char_queue r = [] → flush_token r = r.
Proof. destruct r as [q tr tb fl]. simpl. by intros ->. Qed.

Section reading_rows.
Variable sep : ascii.
Hypothesis space_separates : is_wspace SPACE sep = true.

Lemma read_padded_cell (right : bool) tb L (st : reader) (l r : nat) (c : str) :
  row_inv right tb L st →
  Forall (λ ch, is_wspace ch sep = false) c →
  (if right then (1 ≤ l)%nat ∧ r = 0%nat else (1 ≤ r)%nat) →
  row_inv right tb (L ++ if decide (c = []) then [] else [c])
    (foldl (read_char (set_col_separator sep default_config)) st
       (replicate l SPACE ++ c ++ replicate r SPACE)).
Proof.
  intros (Htb & HL & Hq) Hc Hlr.
  rewrite !foldl_app, !read_spaces, read_content by done.
  assert (H1 : (if l is O then st else flush_token st) = flush_token st).
  { destruct l; [|done]. destruct right; [lia|].
    destruct Hq as [|Hq]; [done|]. by rewrite flush_token_no_queue. }
  rewrite H1. rewrite flush_token_queue, flush_token_tab, HL, Htb. simpl.
  set (st2 := {| cmdout_char_queue := c; temp_row_data := L;
                 cmdout_tab_data := tb; first_line := first_line (flush_token st) |}).
  assert (H2 : temp_row_data (flush_token st2)
               = L ++ if decide (c = []) then [] else [c]).
  { unfold flush_token, st2. simpl. destruct c; simpl; [by rewrite app_nil_r|done]. }
  destruct r as [|r].
  - split_and!; [done|done|]. destruct right; [by left|lia].
  - split_and!.
    + by rewrite flush_token_tab.
    + by rewrite flush_token_idemp.
    + right. apply flush_token_queue.
Qed.

Lemma omap_lookup_seq {A} (row : list A) k m :
  omap (λ i, row !! i) (seq k m) = take m (drop k row).
Proof.
  revert k. induction m as [|m IH]; intros k; [done|].
  simpl.
  change (list_omap nat A (λ i, row !! i) (seq (S k) m))
    with (omap (λ i, row !! i) (seq (S k) m)).
  rewrite IH.
  destruct (row !! k) as [x|] eqn:Hk.
  - by rewrite (drop_S row x k Hk).
  - apply lookup_ge_None_1 in Hk.
    rewrite !drop_ge by lia. by rewrite !take_nil.
Qed.

Lemma omap_lookup_range {A} (row : list A) n :
  (length row ≤ n)%nat → omap (λ i, row !! i) (range n) = row.
Proof.
  intros Hn. unfold range. rewrite omap_lookup_seq, drop_0.
  by apply take_ge.
Qed.

Lemma read_padded_cells (a : str) (ws : list Z) (row : list str) tb
    (idxs : list nat) :
  Forall (λ c : str, c ≠ [] ∧ Forall (λ ch, is_wspace ch sep = false) c) row →
  (∀ i, i ∈ idxs → strlen (default [] (row !! i)) < default 0 (ws !! i)) →
  ∀ L st,
    row_inv (bool_decide (a = ALIGN_RIGHT)) tb L st →
    row_inv (bool_decide (a = ALIGN_RIGHT)) tb (L ++ omap (λ i, row !! i) idxs)
      (foldl (read_char (set_col_separator sep default_config)) st
         (flat_map (padded_cell a ws row) idxs)).
Proof.
  intros Hrow. induction idxs as [|i idxs IH]; intros Hfit L st Hinv.
  - simpl. by rewrite app_nil_r.
  - change (omap (λ i, row !! i) (i :: idxs))
      with (match row !! i with
            | Some c => c :: omap (λ i, row !! i) idxs
            | None => omap (λ i, row !! i) idxs
            end).
    cbn [flat_map]. rewrite foldl_app.
    destruct (padded_shape a (default [] (row !! i)) (default 0 (ws !! i)))
      as (l & r & Hshape & Hlr); [apply Hfit; by left|].
    unfold padded_cell at 1. rewrite Hshape.
    assert (Hc : Forall (λ ch, is_wspace ch sep = false) (default [] (row !! i))
                 ∧ (if decide (default [] (row !! i) = []) then []
                    else [default [] (row !! i)])
                   = match row !! i with Some c => [c] | None => [] end).
    { destruct (row !! i) as [c|] eqn:Hi; simpl; [|done].
      rewrite Forall_lookup in Hrow. destruct (Hrow _ _ Hi) as [Hne Hc].
      split; [done|]. by rewrite decide_False. }
    destruct Hc as [Hc Hcell].
    eapply (read_padded_cell _ tb L st l r) in Hinv; [|exact Hc|].
    + rewrite Hcell in Hinv. apply IH in Hinv.
      * destruct (row !! i); simpl in *; by rewrite <- ?app_assoc in Hinv.
      * intros j Hj. apply Hfit. by right.
    + case_bool_decide; by rewrite ?decide_True, ?decide_False in Hlr by done.
Qed.

Lemma read_plain_row cfg n (ws : list Z) fl (row : list str) tb (st : reader) :
  row ≠ [] → (length row ≤ n)%nat →
  Forall (λ c : str, c ≠ [] ∧ Forall (λ ch, is_wspace ch sep = false) c) row →
  (∀ i, (i < n)%nat → strlen (default [] (row !! i)) < default 0 (ws !! i)) →
  cmdout_char_queue st = [] → temp_row_data st = [] → cmdout_tab_data st = tb →
  let st' := foldl (read_char (set_col_separator sep default_config)) st
               (plain_row cfg n ws fl row) in
  cmdout_char_queue st' = [] ∧ temp_row_data st' = []
  ∧ cmdout_tab_data st' = tb ++ [row].
Proof.
  intros Hne Hlen Hrow Hfit Hq Htr Htb st'. subst st'.
  unfold plain_row. rewrite foldl_app.
  pose proof (read_padded_cells (row_align cfg fl) ws row tb (range n) Hrow) as H.
  specialize (H ltac:(by intros i Hi%elem_of_range; apply Hfit) [] st).
  destruct H as (Htb' & HL & _).
  { split_and!; [done| |by right]. by rewrite flush_token_no_queue. }
  rewrite omap_lookup_range in HL by done. simpl in HL.
  simpl. rewrite read_char_newline. unfold flush_row.
  rewrite HL, bool_decide_eq_true_2 by done. simpl.
  by rewrite flush_token_queue, flush_token_tab, Htb'.
Qed.

Lemma read_plain_rows cfg n (ws : list Z) (tab : list (list str)) :
  Forall (λ row : list str,
    row ≠ [] ∧ (length row ≤ n)%nat ∧
    Forall (λ c : str, c ≠ [] ∧ Forall (λ ch, is_wspace ch sep = false) c) row ∧
    ∀ i, (i < n)%nat → strlen (default [] (row !! i)) < default 0 (ws !! i)) tab →
  ∀ fl tb (st : reader),
    cmdout_char_queue st = [] → temp_row_data st = [] → cmdout_tab_data st = tb →
    let st' := foldl (read_char (set_col_separator sep default_config)) st
                 (plain_rows cfg n ws fl tab) in
    cmdout_char_queue st' = [] ∧ temp_row_data st' = []
    ∧ cmdout_tab_data st' = tb ++ tab.
Proof.
  induction 1 as [|row tab (Hne & Hlen & Hrow & Hfit) _ IH];
    intros fl tb st Hq Htr Htb; simpl.
  - by rewrite app_nil_r.
  - rewrite foldl_app.
    destruct (read_plain_row cfg n ws fl row tb st Hne Hlen Hrow Hfit Hq Htr Htb)
      as (Hq' & Htr' & Htb').
    destruct (IH false _ _ Hq' Htr' Htb') as (Hq2 & Htr2 & Htb2).
    split_and!; [done|done|]. by rewrite Htb2, <- app_assoc.
Qed.

Lemma tokenize_plain_rows cfg n (ws : list Z) (tab : list (list str)) :
  Forall (λ row : list str,
    row ≠ [] ∧ (length row ≤ n)%nat ∧
    Forall (λ c : str, c ≠ [] ∧ Forall (λ ch, is_wspace ch sep = false) c) row ∧
    ∀ i, (i < n)%nat → strlen (default [] (row !! i)) < default 0 (ws !! i)) tab →
  tokenize sep (plain_rows cfg n ws true tab) = tab.
Proof.
  intros Htab. unfold tokenize, read_stdin.
  destruct (read_plain_rows cfg n ws tab Htab true [] reader_init)
    as (Hq & Htr & Htb); [done..|].
  unfold flush_eof. rewrite Hq, Htr, Htb. done.
Qed.

End reading_rows.

(** *** The rendered text without borders and styles *)

Lemma cell_chunks_unstyled cfg fl (ws : list Z) (row : list str) i :
  unstyled cfg → use_border cfg = false →
  cell_chunks cfg fl ws row i
  = [[]; []; padded_cell (row_align cfg fl) ws row i; DEFAULT; []; []].
Proof.
  intros Hsty Hb. unfold cell_chunks, padded_cell, row_align.
  destruct Hsty as (-> & -> & -> & -> & -> & -> & ->). rewrite Hb.
  by destruct fl, (headerless cfg).
Qed.

Lemma strip_cells cfg fl (ws : list Z) (row : list str) (idxs : list nat)
    (rest : str) :
  unstyled cfg → use_border cfg = false →
  Forall (Forall (λ ch, ch ≠ ESC)) row →
  (∀ i, i ∈ idxs → strlen (default [] (row !! i)) < default 0 (ws !! i)) →
  strip_ansi (oss_str (flat_map (cell_chunks cfg fl ws row) idxs) ++ rest)
  = flat_map (padded_cell (row_align cfg fl) ws row) idxs ++ strip_ansi rest.
Proof.
  intros Hsty Hb Hrow. induction idxs as [|i idxs IH]; intros Hfit; [done|].
  cbn [flat_map]. unfold oss_str in *. rewrite concat_app.
  rewrite cell_chunks_unstyled by done. simpl concat.
  rewrite <- !app_assoc. rewrite strip_ansi_plain.
  - rewrite strip_ansi_DEFAULT. simpl. rewrite IH; [done|].
    intros j Hj. apply Hfit. by right.
  - apply Forall_padded; [apply Hfit; by left|done|].
    destruct (row !! i) as [c|] eqn:Hi; simpl; [|done].
    rewrite Forall_lookup in Hrow. by apply (Hrow _ _ Hi).
Qed.

Lemma strip_rows cfg n (ws : list Z) bt bs (tab : list (list str)) :
  unstyled cfg → use_border cfg = false →
  Forall (λ row : list str,
    Forall (Forall (λ ch, ch ≠ ESC)) row ∧
    ∀ i, (i < n)%nat → strlen (default [] (row !! i)) < default 0 (ws !! i)) tab →
  ∀ fl (rest : str),
    strip_ansi (oss_str (rows_chunks cfg n ws fl bt bs tab) ++ rest)
    = plain_rows cfg n ws fl tab ++ strip_ansi rest.
Proof.
  intros Hsty Hb. induction 1 as [|row tab [Hrow Hfit] _ IH]; intros fl rest;
    [done|].
  cbn [rows_chunks plain_rows]. unfold oss_str in *. rewrite concat_app.
  unfold row_chunks, plain_row. rewrite Hb, !andb_false_r. simpl app.
  rewrite concat_app. replace (concat [endl]) with [NEWLINE] by done.
  rewrite <- !app_assoc.
  rewrite (strip_cells cfg fl ws row (range n)); try done.
  - f_equal. rewrite (strip_ansi_plain [NEWLINE]) by (by repeat constructor).
    f_equal. apply IH.
  - intros i Hi%elem_of_range. by apply Hfit.
Qed.

(** *** The round trip *)

Lemma plain_table_fits cfg (tab : list (list str)) (ws : list Z) :
  1 ≤ col_padding cfg →
  length ws = get_max_col_count tab →
  (∀ i, (i < length ws)%nat →
        ws !! i = Some (column_max tab i + col_padding cfg)) →
  ∀ row, row ∈ tab → ∀ i, (i < get_max_col_count tab)%nat →
    strlen (default [] (row !! i)) < default 0 (ws !! i).
Proof.
  intros Hpad Hlen Hws row Hrow i Hi.
  rewrite Hws by lia. simpl.
  destruct (row !! i) as [c|] eqn:Hc; simpl.
  - pose proof (column_max_ge tab row i c Hrow Hc). lia.
  - pose proof (column_max_nonneg tab i). unfold strlen. simpl. lia.
Qed.

(** C8, amended. A table whose rows are not empty and whose cells are not
    empty and contain no separator and no escape character, rendered
    without colours or styles, without borders and with a padding of at
    least 1, under a separator policy for which the space separates (the
    space or any-whitespace policy), gives the same table back when the
    rendered text, escape sequences removed, is tokenized again under the
    same policy. *)
Theorem retokenize_roundtrip cfg (tab : list (list str)) :
  unstyled cfg → use_border cfg = false →
  1 ≤ col_padding cfg < 2 ^ 31 →
  is_wspace SPACE (col_separator cfg) = true →
  plain_table (col_separator cfg) tab →
  ∃ (ws : list Z) (out : ostream),
    get_tab_col_width cfg (get_max_col_count tab) tab = Some ws ∧
    render_table cfg (get_max_col_count tab) ws tab = Some out ∧
    tokenize (col_separator cfg) (strip_ansi (oss_str out)) = tab.
Proof.
  intros Hsty Hb Hpad Hsp Htab. unfold plain_table in Htab.
  destruct (get_tab_col_width_values cfg tab) as (ws & Hws & Hlen & Hget); [lia| |].
  { eapply Forall_impl; [exact Htab|]. intros row [_ Hrow].
    eapply Forall_impl; [exact Hrow|]. by intros c (_ & Hc & _). }
  destruct (render_table_spec cfg (get_max_col_count tab) ws tab)
    as (bt & bs & bb & _ & _ & _ & Hrender); [lia|].
  pose proof (plain_table_fits cfg tab ws ltac:(lia) Hlen Hget) as Hfit.
  rewrite Hb, app_nil_r in Hrender.
  exists ws, (rows_chunks cfg (get_max_col_count tab) ws true bt bs tab).
  split; [done|]. split; [exact Hrender|].
  rewrite <- (app_nil_r (oss_str _)).
  rewrite (strip_rows cfg (get_max_col_count tab) ws bt bs tab Hsty Hb).
  - rewrite app_nil_r. apply tokenize_plain_rows; [done|].
    apply Forall_forall. intros row Hrow.
    rewrite Forall_forall in Htab. destruct (Htab row Hrow) as [Hne Hcells].
    split_and!; [done|by apply get_max_col_count_ge| |by apply Hfit].
    eapply Forall_impl; [exact Hcells|]. intros c (Hc & _ & Hch).
    split; [done|]. eapply Forall_impl; [exact Hch|]. by intros ch [? _].
  - apply Forall_forall. intros row Hrow.
    rewrite Forall_forall in Htab. destruct (Htab row Hrow) as [Hne Hcells].
    split; [|by apply Hfit].
    eapply Forall_impl; [exact Hcells|]. intros c (_ & _ & Hch).
    eapply Forall_impl; [exact Hch|]. by intros ch [_ ?].
Qed.

Lemma retokenize_roundtrip_witness :
  ∃ (ws : list Z) (out : ostream),
    get_tab_col_width (set_use_border false default_config) 3
      [[lit "1"; lit "2"; lit "3"]; [lit "4"; lit "5"]] = Some ws ∧
    render_table (set_use_border false default_config) 3 ws
      [[lit "1"; lit "2"; lit "3"]; [lit "4"; lit "5"]] = Some out ∧
    tokenize SPACE (strip_ansi (oss_str out))
    = [[lit "1"; lit "2"; lit "3"]; [lit "4"; lit "5"]].
Proof.
  apply (retokenize_roundtrip (set_use_border false default_config)
           [[lit "1"; lit "2"; lit "3"]; [lit "4"; lit "5"]]).
  - by repeat split.
  - reflexivity.
  - simpl. lia.
  - reflexivity.
  - repeat constructor; discriminate.
Defined.

(** ** Scenarios *)

Example scenario_A_widths :
  get_tab_col_width (set_col_padding 1 default_config) 2
    (read_stdin default_config (lit "a b
ccc dd
")) = Some [4; 3].
Proof. vm_compute. reflexivity. Qed.

(** Scenario B: a blank line gives no row. *)
Example scenario_B :
  read_stdin default_config (lit "x" ++ [NEWLINE; NEWLINE] ++ lit "y" ++ [NEWLINE])
  = [[lit "x"]; [lit "y"]].
Proof. reflexivity. Qed.

(** * Further properties *)

(** ** The tokenizer on whole inputs *)

(** With no line excluded the reader depends on the separator only. *)
Lemma read_char_no_exclusion cfg (r : reader) c :
  exclude_first_line cfg = false →
  read_char cfg r c
  = read_char (set_col_separator (col_separator cfg) default_config) r c.
Proof. intros Hex. unfold read_char. simpl. by rewrite Hex. Qed.

Lemma read_no_exclusion cfg (s : str) (r : reader) :
  exclude_first_line cfg = false →
  foldl (read_char cfg) r s
  = foldl (read_char (set_col_separator (col_separator cfg) default_config)) r s.
Proof.
  intros Hex. revert r. induction s as [|c s IH]; intros r; [done|].
  simpl. by rewrite read_char_no_exclusion, IH.
Qed.

Ltac flatten_lists :=
  repeat progress (rewrite ?concat_app, ?app_nil_r, <- ?app_assoc; simpl).

(** The characters held by the reader, in input order. *)
Lemma reader_content_step sep (r : reader) c :
  let content := λ r : reader,
    concat (concat (cmdout_tab_data r)) ++ concat (temp_row_data r)
    ++ cmdout_char_queue r in
  content (read_char (set_col_separator sep default_config) r c)
  = content r ++ if is_wspace c sep then [] else [c].
Proof.
  intros content. subst content. cbn beta.
  destruct (is_wspace c sep) eqn:Hc.
  - destruct (decide (c = NEWLINE)) as [->|Hnl].
    + rewrite read_char_newline.
      destruct r as [[|a q] [|t tr] tb fl]; simpl; flatten_lists; done.
    + rewrite read_char_separator by done.
      destruct r as [[|a q] tr tb fl]; simpl; flatten_lists; done.
  - rewrite read_char_content by done. simpl. by rewrite <- !app_assoc.
Qed.

(** X1. With no line excluded, the cells of the collected table, read row
    by row, are exactly the characters of the input that are not
    separators, in input order: the tokenizer drops separators and nothing
    else, also at the end of the stream. *)
Theorem read_stdin_keeps_content cfg (stdin : str) :
  exclude_first_line cfg = false →
  concat (concat (read_stdin cfg stdin))
  = filter (λ c, is_wspace c (col_separator cfg) = false) stdin.
Proof.
  intros Hex. unfold read_stdin. rewrite read_no_exclusion by done.
  set (sep := col_separator cfg).
  assert (Hgen : ∀ r : reader,
    concat (concat (flush_eof
      (foldl (read_char (set_col_separator sep default_config)) r stdin)))
    = (concat (concat (cmdout_tab_data r)) ++ concat (temp_row_data r)
       ++ cmdout_char_queue r)
      ++ filter (λ c, is_wspace c sep = false) stdin).
  { induction stdin as [|c s IH]; intros r.
    - simpl. rewrite app_nil_r. unfold flush_eof.
      destruct r as [[|a q] [|t tr] tb fl]; simpl; flatten_lists; done.
    - simpl. rewrite IH, (reader_content_step sep r c).
      rewrite filter_cons. destruct (is_wspace c sep) eqn:Hc.
      + rewrite decide_False by done. by rewrite app_nil_r.
      + rewrite decide_True by done. by rewrite <- !app_assoc. }
  by rewrite Hgen.
Qed.

Lemma read_stdin_keeps_content_witness :
  concat (concat (read_stdin default_config (lit " a  b" ++ [NEWLINE] ++ lit "c")))
  = lit "abc".
Proof.
  rewrite (read_stdin_keeps_content default_config
             (lit " a  b" ++ [NEWLINE] ++ lit "c")); reflexivity.
Defined.

(** *** Lines *)

Lemma flush_eof_newline (r : reader) :
  let r' := flush_row (flush_token r) in
  cmdout_char_queue r' = [] ∧ temp_row_data r' = []
  ∧ cmdout_tab_data r' = flush_eof r.
Proof. by destruct r as [[|a q] [|t tr] tb fl]. Qed.

(** Rows already in the table are left alone by what is read next. *)
Lemma read_after_rows sep (tb : list (list str)) (s : str) (r : reader) :
  let step := read_char (set_col_separator sep default_config) in
  let r0 := {| cmdout_char_queue := cmdout_char_queue r;
               temp_row_data := temp_row_data r;
               cmdout_tab_data := tb ++ cmdout_tab_data r;
               first_line := first_line r |} in
  flush_eof (foldl step r0 s) = tb ++ flush_eof (foldl step r s).
Proof.
  intros step r0. subst r0. revert r. induction s as [|c s IH]; intros r.
  - destruct r as [[|a q] [|t tr] tb' fl]; unfold flush_eof; simpl;
      by rewrite <- ?app_assoc, ?app_nil_r.
  - simpl. rewrite <- IH. f_equal. f_equal. subst step.
    destruct (is_wspace c sep) eqn:Hc.
    + destruct (decide (c = NEWLINE)) as [->|Hnl].
      * rewrite !read_char_newline.
        destruct r as [[|a q] [|t tr] tb' fl]; unfold flush_row, flush_token;
          simpl; by rewrite <- ?app_assoc.
      * rewrite !read_char_separator by done.
        by destruct r as [[|a q] tr tb' fl].
    + by rewrite !read_char_content.
Qed.

Lemma read_lines cfg (before after : str) :
  exclude_first_line cfg = false →
  read_stdin cfg (before ++ NEWLINE :: after)
  = read_stdin cfg before ++ read_stdin cfg after.
Proof.
  intros Hex. unfold read_stdin. rewrite !(read_no_exclusion cfg) by done.
  rewrite foldl_app. cbn [foldl]. rewrite read_char_newline.
  set (r := foldl _ reader_init before).
  destruct (flush_eof_newline r) as (Hq & Htr & Htb).
  set (r' := flush_row (flush_token r)) in *.
  pose proof (read_after_rows (col_separator cfg) (flush_eof r) after
    {| cmdout_char_queue := []; temp_row_data := [];
       cmdout_tab_data := []; first_line := first_line r' |}) as H.
  simpl in H. rewrite app_nil_r in H.
  rewrite <- Htb, <- Hq, <- Htr in H at 1.
  replace r' with {| cmdout_char_queue := cmdout_char_queue r';
                     temp_row_data := temp_row_data r';
                     cmdout_tab_data := cmdout_tab_data r';
                     first_line := first_line r' |} by (by destruct r').
  rewrite H. f_equal.
  (* [first_line] plays no role when no line is excluded *)
  clear. generalize (first_line r'). intros fl.
  assert (Hfl : ∀ (s : str) (q : str) tr tb fl1 fl2,
    flush_eof (foldl (read_char (set_col_separator (col_separator cfg) default_config))
      {| cmdout_char_queue := q; temp_row_data := tr; cmdout_tab_data := tb;
         first_line := fl1 |} s)
    = flush_eof (foldl (read_char (set_col_separator (col_separator cfg) default_config))
      {| cmdout_char_queue := q; temp_row_data := tr; cmdout_tab_data := tb;
         first_line := fl2 |} s)).
  { induction s as [|c s IH]; intros q tr tb fl1 fl2; [done|]. simpl.
    unfold read_char at 2 4. simpl.
    destruct (is_wspace c (col_separator cfg)); [|apply IH].
    rewrite !orb_true_r, !andb_false_r.
    destruct q as [|a q]; simpl; case_bool_decide; simpl;
      rewrite ?andb_false_r; try apply IH;
      destruct tr as [|t tr]; simpl; apply IH. }
  apply Hfl.
Qed.

(** X2. With no line excluded, the table of an input is the table of what
    precedes a newline followed by the table of what follows it: rows never
    span lines, and a final newline changes nothing. *)
Theorem read_stdin_by_lines cfg (before after : str) :
  exclude_first_line cfg = false →
  read_stdin cfg (before ++ NEWLINE :: after)
  = read_stdin cfg before ++ read_stdin cfg after.
Proof. apply read_lines. Qed.

Lemma read_stdin_by_lines_witness :
  read_stdin default_config (lit "a b" ++ NEWLINE :: lit "c")
  = read_stdin default_config (lit "a b") ++ read_stdin default_config (lit "c").
Proof. apply read_stdin_by_lines. reflexivity. Defined.

(** ** Where the characters of the cells come from *)

Lemma read_char_Forall (P : ascii → Prop) cfg (r : reader) c :
  P c →
  Forall P (cmdout_char_queue r) → Forall (Forall P) (temp_row_data r) →
  Forall (Forall (Forall P)) (cmdout_tab_data r) →
  Forall P (cmdout_char_queue (read_char cfg r c))
  ∧ Forall (Forall P) (temp_row_data (read_char cfg r c))
  ∧ Forall (Forall (Forall P)) (cmdout_tab_data (read_char cfg r c)).
Proof.
  intros Hc Hq Htr Htb.
  destruct r as [q tr tb fl]. simpl in *. unfold read_char. simpl.
  destruct (is_wspace c (col_separator cfg)); simpl.
  - assert (Hpush : Forall (Forall P)
      (if bool_decide (q ≠ []) && (negb fl || negb (exclude_first_line cfg))
       then tr ++ [q] else tr)).
    { destruct (_ && _); [|done]. apply Forall_app. by repeat constructor. }
    repeat case_bool_decide; simpl;
      repeat (match goal with
              | |- context [if ?b then _ else _] => destruct b eqn:?; simpl
              end);
      split_and!; try done; try (by constructor);
      try (apply Forall_app; split; [done|]; by repeat constructor).
  - split_and!; try done. apply Forall_app. by repeat constructor.
Qed.

Lemma read_stdin_Forall (P : ascii → Prop) cfg (stdin : str) :
  Forall P stdin → Forall (Forall (Forall P)) (read_stdin cfg stdin).
Proof.
  unfold read_stdin. intros Hs.
  assert (Hinv : ∀ r : reader,
    Forall P (cmdout_char_queue r) → Forall (Forall P) (temp_row_data r) →
    Forall (Forall (Forall P)) (cmdout_tab_data r) →
    Forall (Forall (Forall P)) (flush_eof (foldl (read_char cfg) r stdin))).
  { induction Hs as [|c s Hc Hs IH]; intros r Hq Htr Htb.
    - simpl. unfold flush_eof.
      repeat case_bool_decide; try done;
        apply Forall_app; (split; [done|]); repeat constructor; try done.
      apply Forall_app. by repeat constructor.
    - simpl. destruct (read_char_Forall P cfg r c Hc Hq Htr Htb) as (?&?&?).
      by apply IH. }
  by apply Hinv.
Qed.

Lemma closed_token_snoc sep (s cell : str) (c : ascii) :
  closed_token_of sep s cell → closed_token_of sep (s ++ [c]) cell.
Proof.
  intros (pre & d & post & -> & Hpre & Hd).
  exists pre, d, (post ++ [c]). split_and!; [|done..].
  by rewrite <- !app_assoc.
Qed.

Lemma closed_token_token sep (s cell : str) :
  closed_token_of sep s cell → token_of sep s cell.
Proof.
  intros (pre & d & post & -> & Hpre & Hd).
  exists pre, (d :: post). split_and!; [done..|]. right. by exists d, post.
Qed.

(** The reader after the characters [consumed]: the pending token is the
    end of [consumed], after a separator or from the start; the stored
    cells are tokens of [consumed], each followed by a separator. *)
Lemma read_char_runs cfg (r : reader) (consumed : str) (c : ascii) :
  let sep := col_separator cfg in
  (∃ pre, consumed = pre ++ cmdout_char_queue r ∧ left_bounded sep pre) →
  Forall (closed_token_of sep consumed) (temp_row_data r) →
  Forall (Forall (closed_token_of sep consumed)) (cmdout_tab_data r) →
  (∃ pre, consumed ++ [c] = pre ++ cmdout_char_queue (read_char cfg r c)
          ∧ left_bounded sep pre)
  ∧ Forall (closed_token_of sep (consumed ++ [c]))
      (temp_row_data (read_char cfg r c))
  ∧ Forall (Forall (closed_token_of sep (consumed ++ [c])))
      (cmdout_tab_data (read_char cfg r c)).
Proof.
  intros sep (pre & Hpre & Hleft) Htr Htb.
  assert (Htr' : Forall (closed_token_of sep (consumed ++ [c])) (temp_row_data r)).
  { eapply Forall_impl; [exact Htr|]. intros cell. apply closed_token_snoc. }
  assert (Htb' : Forall (Forall (closed_token_of sep (consumed ++ [c])))
                   (cmdout_tab_data r)).
  { eapply Forall_impl; [exact Htb|]. intros row Hrow.
    eapply Forall_impl; [exact Hrow|]. intros cell. apply closed_token_snoc. }
  clear Htr Htb.
  destruct r as [q tr tb fl]. simpl in *. unfold read_char. simpl.
  fold sep. destruct (is_wspace c sep) eqn:Hc; simpl.
  - assert (Hq : closed_token_of sep (consumed ++ [c]) q).
    { exists pre, c, []. by rewrite Hpre, <- app_assoc. }
    assert (Hend : ∃ pre', consumed ++ [c] = pre' ++ [] ∧ left_bounded sep pre').
    { exists (consumed ++ [c]). split; [by rewrite app_nil_r|].
      right. by exists consumed, c. }
    assert (Hpush : Forall (closed_token_of sep (consumed ++ [c])) (tr ++ [q])).
    { apply Forall_app. split; [done|]. by constructor. }
    destruct q as [|a q]; simpl.
    + rewrite app_nil_r in Hpre. subst pre.
      repeat (match goal with
              | |- context [if ?b then _ else _] => destruct b eqn:?; simpl
              end);
        split_and!; try done; try (by constructor);
        try (apply Forall_app; split; [done|]; by constructor).
    + repeat (match goal with
              | |- context [if ?b then _ else _] => destruct b eqn:?; simpl
              end);
        split_and!; try done; try (by constructor);
        try (apply Forall_app; split; [done|]; by constructor).
  - split_and!; [|done..]. exists pre. split; [|done].
    by rewrite Hpre, <- app_assoc.
Qed.

Lemma read_stdin_runs cfg (stdin : str) :
  Forall (Forall (token_of (col_separator cfg) stdin)) (read_stdin cfg stdin).
Proof.
  unfold read_stdin. set (sep := col_separator cfg).
  assert (Hinv : ∀ (s consumed : str) (r : reader),
    (∃ pre, consumed = pre ++ cmdout_char_queue r ∧ left_bounded sep pre) →
    Forall (closed_token_of sep consumed) (temp_row_data r) →
    Forall (Forall (closed_token_of sep consumed)) (cmdout_tab_data r) →
    Forall (Forall (token_of sep (consumed ++ s)))
      (flush_eof (foldl (read_char cfg) r s))).
  { induction s as [|c s IH]; intros consumed r (pre & Hpre & Hleft) Htr Htb.
    - simpl. rewrite app_nil_r.
      assert (Htr' : Forall (token_of sep consumed) (temp_row_data r)).
      { eapply Forall_impl; [exact Htr|]. intros cell. apply closed_token_token. }
      assert (Htb' : Forall (Forall (token_of sep consumed)) (cmdout_tab_data r)).
      { eapply Forall_impl; [exact Htb|]. intros row Hrow.
        eapply Forall_impl; [exact Hrow|]. intros cell. apply closed_token_token. }
      assert (Hq : token_of sep consumed (cmdout_char_queue r)).
      { exists pre, []. rewrite app_nil_r. split_and!; [done|done|by left]. }
      unfold flush_eof.
      repeat case_bool_decide; try done;
        apply Forall_app; (split; [done|]); repeat constructor; try done.
      apply Forall_app. by repeat constructor.
    - simpl.
      destruct (read_char_runs cfg r consumed c) as (Hq' & Htr' & Htb');
        [by exists pre|done|done|].
      replace (consumed ++ c :: s) with ((consumed ++ [c]) ++ s)
        by (by rewrite <- app_assoc).
      by apply IH. }
  apply (Hinv stdin [] reader_init); [|done|done].
  exists []. split; [done|by left].
Qed.

(** X3. Whatever the input and the configuration, every row of the
    collected table has a cell, and every cell is a non-empty run of
    characters of the input, none of them a separator or a newline: it is
    a contiguous piece of the input, [stdin = pre ++ cell ++ post], with a
    separator or an end of the input on each side. Blank lines give no row
    and runs of separators give no empty cell. *)
Theorem read_stdin_cells cfg (stdin : str) :
  Forall (λ row : list str,
    row ≠ [] ∧
    Forall (λ cell : str,
      cell ≠ [] ∧ (NEWLINE ∉ cell) ∧
      Forall (λ ch, is_wspace ch (col_separator cfg) = false ∧ ch ∈ stdin) cell ∧
      token_of (col_separator cfg) stdin cell)
      row)
    (read_stdin cfg stdin).
Proof.
  pose proof (read_stdin_tokens cfg stdin) as Htok.
  pose proof (read_stdin_Forall (λ ch, ch ∈ stdin) cfg stdin) as Hin.
  specialize (Hin ltac:(by apply Forall_forall)).
  pose proof (read_stdin_runs cfg stdin) as Hrun.
  revert Htok Hin Hrun. generalize (read_stdin cfg stdin) as tab.
  induction tab as [|row tab IH]; [done|].
  intros [[Hne Hrow] Htok]%Forall_cons [Hrin Hin]%Forall_cons
    [Hrrun Hrun]%Forall_cons.
  constructor; [|by apply IH]. split; [done|].
  clear IH Htok Hin Hrun Hne. induction row as [|cell row IH]; [done|].
  apply Forall_cons in Hrow as [[Hne Hcell] Hrow].
  apply Forall_cons in Hrin as [Hcin Hrin].
  apply Forall_cons in Hrrun as [Hcrun Hrrun].
  constructor; [|by apply IH]. split_and!; [done| | |done].
  - intros Hnl. rewrite Forall_forall in Hcell. specialize (Hcell _ Hnl).
    by rewrite is_wspace_newline in Hcell.
  - rewrite Forall_forall in Hcell, Hcin. apply Forall_forall.
    intros ch Hch. split; auto.
Qed.

(** ** Reading the text form of a table *)

Lemma read_joined_cells sep (d : ascii) (cells : list str) (r : reader) :
  is_wspace d sep = true → d ≠ NEWLINE →
  cells ≠ [] →
  Forall (λ cell : str,
    cell ≠ [] ∧ Forall (λ ch, is_wspace ch sep = false) cell) cells →
  cmdout_char_queue r = [] →
  flush_token (foldl (read_char (set_col_separator sep default_config)) r
                 (join_with d cells))
  = {| cmdout_char_queue := [];
       temp_row_data := temp_row_data r ++ cells;
       cmdout_tab_data := cmdout_tab_data r;
       first_line := first_line r |}.
Proof.
  intros Hd Hnl Hne Hcells. revert r.
  induction Hcells as [|cell cells [Hc Hchars] Hcells IH]; [done|].
  intros r Hq. destruct cells as [|cell' cells'].
  - simpl. rewrite read_content by done. unfold flush_token. simpl.
    rewrite Hq. cbn [app]. rewrite bool_decide_eq_true_2 by done. done.
  - change (join_with d (cell :: cell' :: cells'))
      with (cell ++ d :: join_with d (cell' :: cells')).
    rewrite foldl_app. cbn [foldl].
    rewrite (read_content sep r cell), read_char_separator by done.
    unfold flush_token at 2. simpl. rewrite Hq. cbn [app].
    rewrite bool_decide_eq_true_2 by done.
    rewrite IH by done. simpl. by rewrite <- app_assoc.
Qed.

Lemma read_joined_row cfg (d : ascii) (row : list str) :
  exclude_first_line cfg = false →
  is_wspace d (col_separator cfg) = true → d ≠ NEWLINE →
  row ≠ [] →
  Forall (λ cell : str,
    cell ≠ [] ∧ Forall (λ ch, is_wspace ch (col_separator cfg) = false) cell)
    row →
  read_stdin cfg (join_with d row) = [row].
Proof.
  intros Hex Hd Hnl Hne Hrow. unfold read_stdin.
  rewrite (read_no_exclusion cfg) by done.
  destruct (flush_eof_newline
    (foldl (read_char (set_col_separator (col_separator cfg) default_config))
       reader_init (join_with d row))) as (_ & _ & <-).
  rewrite (read_joined_cells (col_separator cfg) d row reader_init) by done.
  unfold flush_row. simpl. by rewrite bool_decide_eq_true_2.
Qed.

(** X4. With no line excluded, a table whose rows have a cell and whose
    cells are non-empty and without separator, written one row per line
    with the cells joined by a separator character, is collected back
    unchanged. *)
Theorem read_stdin_of_table_text cfg (d : ascii) (tab : list (list str)) :
  exclude_first_line cfg = false →
  is_wspace d (col_separator cfg) = true → d ≠ NEWLINE →
  Forall (λ row : list str,
    row ≠ [] ∧
    Forall (λ cell : str,
      cell ≠ [] ∧ Forall (λ ch, is_wspace ch (col_separator cfg) = false) cell)
      row) tab →
  read_stdin cfg (table_text d tab) = tab.
Proof.
  intros Hex Hd Hnl. induction 1 as [|row tab [Hne Hrow] _ IH]; [done|].
  unfold table_text. cbn [flat_map]. rewrite <- app_assoc. cbn [app].
  rewrite read_lines by done.
  rewrite (read_joined_row cfg d row) by done.
  unfold table_text in IH. by rewrite IH.
Qed.

Lemma read_stdin_of_table_text_witness :
  read_stdin default_config
    (table_text SPACE [[lit "a"; lit "bb"]; [lit "c"]])
  = [[lit "a"; lit "bb"]; [lit "c"]].
Proof.
  apply read_stdin_of_table_text; [reflexivity|reflexivity|discriminate|].
  repeat constructor; discriminate.
Defined.

(** ** The excluded first line, ended by a newline *)

(** X5. With the first line excluded, a first line that ends in a newline
    leaves no trace: the table is the one collected from the rest of the
    input with no line excluded, and the output of [main] does not depend
    on what the first line holds. *)
Theorem excluded_first_line_ignored cfg (line rest : str) :
  exclude_first_line cfg = true → NEWLINE ∉ line →
  read_stdin cfg (line ++ NEWLINE :: rest)
  = read_stdin (set_col_separator (col_separator cfg) default_config) rest
  ∧ main_output cfg (line ++ NEWLINE :: rest)
    = main_output cfg (NEWLINE :: rest).
Proof.
  intros Hex Hnl.
  assert (Hread : ∀ l : str, NEWLINE ∉ l →
    read_stdin cfg (l ++ NEWLINE :: rest)
    = read_stdin (set_col_separator (col_separator cfg) default_config) rest).
  { intros l Hl. unfold read_stdin. rewrite foldl_app.
    destruct (read_excluded_line cfg l reader_init Hex Hl) as (Htr & Htb & Hfl);
      [done..|].
    cbn [foldl]. rewrite read_char_excluded_newline by done.
    by apply read_after_first_line. }
  split; [by apply Hread|].
  unfold main_output, main.
  pose proof (Hread [] ltac:(apply not_elem_of_nil)) as Hnil.
  cbn [app] in Hnil. by rewrite (Hread line Hnl), Hnil.
Qed.

Lemma excluded_first_line_ignored_witness :
  read_stdin (simplify default_config) (lit "x y" ++ NEWLINE :: lit "a b")
  = [[lit "a"; lit "b"]]
  ∧ main_output (simplify default_config) (lit "x y" ++ NEWLINE :: lit "a b")
    = main_output (simplify default_config) (NEWLINE :: lit "a b").
Proof.
  destruct (excluded_first_line_ignored (simplify default_config)
              (lit "x y") (lit "a b") eq_refl ltac:(compute_done)) as [H1 H2].
  split; [|exact H2]. rewrite H1. reflexivity.
Defined.

(** ** The order of the rows *)

Lemma column_max_perm (tab tab' : list (list str)) i :
  tab ≡ₚ tab' → column_max tab i = column_max tab' i.
Proof.
  induction 1 as [|row t t' _ IH|r1 r2 t|t1 t2 t3 _ IH1 _ IH2].
  - done.
  - by rewrite !column_max_cons, IH.
  - rewrite !column_max_cons. destruct (r1 !! i), (r2 !! i); lia.
  - by rewrite IH1.
Qed.

Lemma get_max_col_count_perm (tab tab' : list (list str)) :
  tab ≡ₚ tab' → get_max_col_count tab = get_max_col_count tab'.
Proof.
  rewrite !get_max_col_count_max_list.
  induction 1 as [|row t t' _ IH|r1 r2 t|t1 t2 t3 _ IH1 _ IH2];
    simpl; lia.
Qed.

(** X6. The column widths do not depend on the order of the rows: a table
    and any rearrangement of its rows get the same number of columns and
    the same widths (padding a non-negative [int], cell lengths below the
    maximal string size). *)
Theorem col_width_row_order cfg (tab tab' : list (list str)) :
  0 ≤ col_padding cfg < 2 ^ 31 →
  Forall (Forall (λ c : str, strlen c < 2 ^ 63)) tab →
  tab ≡ₚ tab' →
  get_max_col_count tab = get_max_col_count tab' ∧
  ∃ ws : list Z,
    get_tab_col_width cfg (get_max_col_count tab) tab = Some ws ∧
    get_tab_col_width cfg (get_max_col_count tab') tab' = Some ws.
Proof.
  intros Hpad Hcells Hperm.
  assert (Hcells' : Forall (Forall (λ c : str, strlen c < 2 ^ 63)) tab')
    by (by rewrite <- Hperm).
  pose proof (get_max_col_count_perm tab tab' Hperm) as Hn.
  split; [done|].
  destruct (get_tab_col_width_values cfg tab Hpad Hcells) as (ws & Hws & Hlen & Hget).
  destruct (get_tab_col_width_values cfg tab' Hpad Hcells')
    as (ws' & Hws' & Hlen' & Hget').
  exists ws. split; [done|]. rewrite Hws'. f_equal.
  apply list_eq. intros i.
  destruct (decide (i < length ws)%nat) as [Hi|Hi].
  - rewrite Hget, Hget' by lia. by rewrite (column_max_perm tab tab').
  - by rewrite !lookup_ge_None_2 by lia.
Qed.

Lemma col_width_row_order_witness :
  ∃ ws : list Z,
    get_tab_col_width default_config 2 [[lit "a"; lit "bb"]; [lit "ccc"]] = Some ws ∧
    get_tab_col_width default_config 2 [[lit "ccc"]; [lit "a"; lit "bb"]] = Some ws.
Proof.
  apply (col_width_row_order default_config
           [[lit "a"; lit "bb"]; [lit "ccc"]] [[lit "ccc"]; [lit "a"; lit "bb"]]).
  - simpl. lia.
  - repeat constructor.
  - apply perm_swap.
Defined.

(** ** The rendered rows *)

Lemma align_text_length (c a : str) (w : Z) :
  strlen (align_text c w a).2 = Z.max w (strlen c).
Proof.
  pose proof (strlen_nonneg c). unfold align_text.
  pose proof (Z.div_mod (w - strlen c) 2 ltac:(lia)).
  pose proof (Z.mod_pos_bound (w - strlen c) 2 ltac:(lia)).
  repeat case_decide; cbn [snd];
    rewrite ?strlen_app, ?strlen_string_n; try lia.
  all: change (0 `div` 2) with 0; lia.
Qed.

Lemma align_text_width (c a : str) (w : Z) : (align_text c w a).1 = w.
Proof. unfold align_text. by repeat case_decide. Qed.

(** X7. In a table laid out by [main] (padding a non-negative [int], cell
    lengths below the maximal string size), every cell, whatever the
    alignment, is written with exactly as many characters as its column is
    wide, the missing cells of a short row included; so the text of every
    row has the same length, the sum of the column widths. *)
Theorem rendered_cells_fill_columns cfg (tab : list (list str)) :
  0 ≤ col_padding cfg < 2 ^ 31 →
  Forall (Forall (λ c : str, strlen c < 2 ^ 63)) tab →
  ∃ ws : list Z,
    get_tab_col_width cfg (get_max_col_count tab) tab = Some ws ∧
    ∀ (row : list str) (fl : bool), row ∈ tab →
      (∀ (i : nat) (w : Z) (cout : ostream), ws !! i = Some w →
         ∃ hstyle bstyle text divider,
           render_cell cfg fl ws row cout i
           = Some (cout ++ [hstyle; bstyle; text; DEFAULT; table_color cfg; divider])
           ∧ strlen text = w)
      ∧ strlen (flat_map (padded_cell (row_align cfg fl) ws row)
                  (range (get_max_col_count tab)))
        = sum_widths ws.
Proof.
  intros Hpad Hcells.
  destruct (get_tab_col_width_values cfg tab Hpad Hcells) as (ws & Hws & Hlen & Hget).
  exists ws. split; [done|]. intros row fl Hrow.
  assert (Hcell : ∀ i w a, ws !! i = Some w → strlen (padded_cell a ws row i) = w).
  { intros i w a Hw. unfold padded_cell. rewrite Hw. simpl.
    pose proof (lookup_lt_Some _ _ _ Hw) as Hi.
    rewrite Hget in Hw by done. injection Hw as <-.
    pose proof (column_max_nonneg tab i).
    assert (Hc : strlen (default [] (row !! i)) ≤ column_max tab i).
    { destruct (row !! i) as [c|] eqn:Hc; simpl; [|done].
      by apply (column_max_ge tab row i c). }
    unfold setw_left. rewrite align_text_width, strlen_app, align_text_length.
    rewrite strlen_string_n.
    pose proof (to_int_le (column_max tab i + col_padding cfg) ltac:(lia)). lia. }
  split.
  - intros i w cout Hw. rewrite render_cell_spec by (by eapply lookup_lt_Some).
    unfold cell_chunks. do 4 eexists. split; [done|].
    apply (Hcell i w). done.
  - rewrite <- Hlen. clear Hlen Hws Hget.
    assert (Hgen : ∀ k, (k ≤ length ws)%nat →
      strlen (flat_map (padded_cell (row_align cfg fl) ws row) (range k))
      = sum_widths (take k ws)).
    { induction k as [|k IH]; intros Hk; [done|].
      destruct (lookup_lt_is_Some_2 ws k ltac:(lia)) as [w Hw].
      rewrite range_S, flat_map_app, strlen_app, IH by lia. simpl.
      rewrite app_nil_r, (Hcell k w _ Hw).
      rewrite (take_S_r ws k w Hw), sum_widths_app. simpl. lia. }
    rewrite Hgen by done. by rewrite take_ge.
Qed.

Lemma rendered_cells_fill_columns_witness :
  ∃ ws : list Z,
    get_tab_col_width default_config 2 [[lit "a"; lit "bb"]; [lit "ccc"]] = Some ws.
Proof.
  destruct (rendered_cells_fill_columns default_config
              [[lit "a"; lit "bb"]; [lit "ccc"]]) as (ws & Hws & _).
  - simpl. lia.
  - repeat constructor.
  - by exists ws.
Defined.

(** X8. In headerless mode the first row is rendered without fault and as
    every other row: with the body style and alignment and without
    separator line; only the top border, when borders are on, comes before
    it. *)
Theorem headerless_first_row_as_body cfg n (ws : list Z) cout (row : list str) :
  headerless cfg = true → (n ≤ length ws)%nat →
  ∃ btop out,
    border_of cfg n ws (top (tab_border_style cfg)) = Some btop ∧
    render_row cfg n ws (true, cout) row = Some out ∧
    render_row cfg n ws
      (false, cout ++ if use_border cfg then [btop] else []) row = Some out.
Proof.
  intros Hh Hn.
  destruct (render_row_spec cfg n ws true cout row Hn) as (bt & bs & Ht & Hs & H1).
  destruct (render_row_spec cfg n ws false
              (cout ++ if use_border cfg then [bt] else []) row Hn)
    as (bt' & bs' & Ht' & Hs' & H2).
  exists bt. eexists. split; [done|]. split; [exact H1|].
  rewrite H2. f_equal. f_equal. rewrite <- app_assoc. f_equal.
  unfold row_chunks, cell_chunks. rewrite Hh. simpl.
  destruct (use_border cfg); simpl; done.
Qed.

Lemma headerless_first_row_as_body_witness :
  ∃ out,
    render_row (simplify default_config) 1 [3] (true, []) [lit "a"] = Some out ∧
    render_row (simplify default_config) 1 [3]
      (false, [lit "┌───┐" ++ DEFAULT ++ endl]) [lit "a"] = Some out.
Proof.
  destruct (headerless_first_row_as_body (simplify default_config) 1 [3] []
              [lit "a"] eq_refl) as (bt & out & Hbt & H1 & H2).
  - simpl. lia.
  - vm_compute in Hbt. injection Hbt as <-. by exists out.
Defined.

(** ** Short rows *)

Lemma cell_chunks_padded cfg fl (ws : list Z) (row : list str) k i :
  cell_chunks cfg fl ws (row ++ replicate k []) i = cell_chunks cfg fl ws row i.
Proof.
  unfold cell_chunks.
  assert (default [] ((row ++ replicate k [] : list str) !! i)
          = default [] (row !! i)) as ->; [|done].
  destruct (decide (i < length row)%nat) as [Hi|Hi].
  - by rewrite lookup_app_l.
  - rewrite lookup_app_r, (lookup_ge_None_2 row i) by lia. simpl.
    destruct (replicate k [] !! (i - length row)%nat) as [c|] eqn:Hc; [|done].
    by apply lookup_replicate in Hc as [-> _].
Qed.

(** X9. A row with fewer cells than the table has columns is rendered
    without fault and exactly as the same row filled up with empty cells:
    each missing cell is written as spaces over the width of its column,
    with the style, reset and divider of a cell. *)
Theorem short_row_rendered_as_padded cfg n (ws : list Z) fl cout
    (row : list str) (k : nat) :
  (n ≤ length ws)%nat →
  ∃ out,
    render_row cfg n ws (fl, cout) row = Some out ∧
    render_row cfg n ws (fl, cout) (row ++ replicate k []) = Some out.
Proof.
  intros Hn.
  destruct (render_row_spec cfg n ws fl cout row Hn) as (bt & bs & Ht & Hs & H1).
  destruct (render_row_spec cfg n ws fl cout (row ++ replicate k []) Hn)
    as (bt' & bs' & Ht' & Hs' & H2).
  assert (bt' = bt) as -> by congruence.
  assert (bs' = bs) as -> by congruence.
  eexists. split; [exact H1|]. rewrite H2. do 3 f_equal.
  unfold row_chunks. do 3 f_equal.
  induction (range n) as [|i idxs IH]; [done|].
  cbn [flat_map]. by rewrite cell_chunks_padded, IH.
Qed.

Lemma short_row_rendered_as_padded_witness :
  ∃ out,
    render_row default_config 2 [3; 4] (false, []) [lit "a"] = Some out ∧
    render_row default_config 2 [3; 4] (false, []) [lit "a"; []] = Some out.
Proof.
  apply (short_row_rendered_as_padded default_config 2 [3; 4] false []
           [lit "a"] 1).
  simpl. lia.
Defined.

(** ** The border line as text *)

(** X10. For columns of width at least 1 whose widths add up to less than
    [2^31], [get_tab_border] returns the colour, the left corner, per
    column its width in fill glyphs, the right corner, the reset and a
    newline; a junction follows a column exactly when the widths of the
    columns after it add up to more than their number, that is when one of
    them is wider than 1. *)
Theorem border_junction_rule (ws : list Z) (l m r f color : str) :
  Forall (λ w, 1 ≤ w) ws → sum_widths ws < 2 ^ 31 →
  get_tab_border (length ws) ws l m r f color
  = Some (color ++ l ++ concat (border_columns ws m f) ++ r ++ DEFAULT ++ endl).
Proof.
  intros Hws Hsum. unfold get_tab_border.
  rewrite get_tab_border_oss_columns by done. simpl. f_equal.
  unfold oss_str. cbn [concat app]. rewrite concat_app. cbn [concat].
  by rewrite app_nil_r.
Qed.

Lemma border_junction_rule_witness :
  get_tab_border 3 [1; 2; 1] (lit "<") (lit "+") (lit ">") (lit "-") []
  = Some (lit "<-+--->" ++ DEFAULT ++ endl).
Proof.
  rewrite (border_junction_rule [1; 2; 1]); [reflexivity|repeat constructor; lia|].
  reflexivity.
Defined.

(** X11. With a padding of at least 2 (the default) and a table that has a
    cell, the widths [main] computes make every border line the documented
    one, provided they add up to less than [2^31]: the colour, the left
    corner, per column its width in fill glyphs with a junction between
    adjacent columns and none after the last, the right corner, the reset
    and a newline; between the corners that is the sum of the widths plus
    the number of columns minus 1 glyphs. *)
Theorem padded_table_borders_documented cfg (tab : list (list str))
    (b : border_line) :
  2 ≤ col_padding cfg < 2 ^ 31 →
  Forall (Forall (λ c : str, strlen c < 2 ^ 63)) tab →
  (0 < get_max_col_count tab)%nat →
  ∃ ws : list Z,
    get_tab_col_width cfg (get_max_col_count tab) tab = Some ws ∧
    (sum_widths ws < 2 ^ 31 →
     border_of cfg (get_max_col_count tab) ws b
     = Some (table_color cfg ++ left_char_unicode b
             ++ concat (border_columns_doc ws (mid_char_unicode b)
                          (fill_char_unicode b))
             ++ right_char_unicode b ++ DEFAULT ++ endl)
     ∧ Z.of_nat (length (border_columns_doc ws (mid_char_unicode b)
                           (fill_char_unicode b)))
       = sum_widths ws + (Z.of_nat (get_max_col_count tab) - 1)).
Proof.
  intros Hpad Hcells Hn.
  destruct (get_tab_col_width_values cfg tab ltac:(lia) Hcells)
    as (ws & Hws & Hlen & Hval).
  exists ws. split; [done|]. intros Hsum.
  assert (Hwide : Forall (λ w, 2 ≤ w) ws).
  { apply Forall_lookup. intros i w Hi.
    rewrite Hval in Hi by (by eapply lookup_lt_Some).
    injection Hi as <-. pose proof (column_max_nonneg tab i). lia. }
  assert (Hne : ws ≠ []) by (intros ->; simpl in Hlen; lia).
  destruct (get_tab_border_oss_wide ws (left_char_unicode b)
    (mid_char_unicode b) (right_char_unicode b) (fill_char_unicode b)
    (table_color cfg) Hne Hwide Hsum) as (line & Hline & -> & Hcount).
  rewrite Hlen in Hline, Hcount. split; [|lia].
  unfold border_of, get_tab_border. rewrite Hline. simpl. f_equal.
  unfold oss_str. cbn [concat app]. rewrite concat_app. cbn [concat].
  by rewrite app_nil_r.
Qed.

Lemma padded_table_borders_documented_witness :
  ∃ ws : list Z,
    get_tab_col_width default_config 2 [[lit "a"; lit "bc"]] = Some ws ∧
    (sum_widths ws < 2 ^ 31 →
     border_of default_config 2 ws (top tab_border_style_default)
     = Some (lit "┌" ++ concat (border_columns_doc ws (lit "┬") (lit "─"))
             ++ lit "┐" ++ DEFAULT ++ endl)
     ∧ Z.of_nat (length (border_columns_doc ws (lit "┬") (lit "─")))
       = sum_widths ws + (2 - 1)).
Proof.
  apply (padded_table_borders_documented default_config [[lit "a"; lit "bc"]]
           (top tab_border_style_default)).
  - simpl. lia.
  - repeat constructor; simpl; lia.
  - compute_done.
Defined.

(** ** The option handlers *)

(** *** [starts_with] *)

Lemma occurs_at_0 (s pat : str) : occurs_at s pat 0 = true ↔ pat `prefix_of` s.
Proof.
  unfold occurs_at. rewrite andb_true_iff, !bool_decide_eq_true. simpl.
  split.
  - intros [_ Ht]. rewrite <- Ht, drop_0. apply prefix_take.
  - intros [k ->]. rewrite drop_0, length_app, take_app_length. split; [lia|done].
Qed.

(** X12. [starts_with] holds exactly when the second string is a prefix of
    the first; in particular the empty string starts every string, and no
    string starts with a longer one. *)
Theorem starts_with_prefix (domain_string string_to_find : str) :
  (starts_with domain_string string_to_find = true
   ↔ string_to_find `prefix_of` domain_string)
  ∧ starts_with domain_string [] = true
  ∧ ((length domain_string < length string_to_find)%nat →
     starts_with domain_string string_to_find = false).
Proof.
  assert (Hiff : ∀ s p : str, starts_with s p = true ↔ p `prefix_of` s).
  { intros s p. rewrite <- occurs_at_0. unfold starts_with, str_rfind.
    rewrite bool_decide_eq_true. simpl. rewrite filter_cons, filter_nil.
    destruct (occurs_at s p 0); simpl; split; (done || discriminate). }
  split_and!.
  - apply Hiff.
  - apply Hiff. apply prefix_nil.
  - intros Hlen. apply not_true_is_false. rewrite Hiff. intros [k ->].
    rewrite length_app in Hlen. lia.
Qed.

Lemma starts_with_true (s p : str) : starts_with s p = true → p `prefix_of` s.
Proof.
  unfold starts_with, str_rfind. rewrite bool_decide_eq_true. simpl.
  rewrite filter_cons, filter_nil. intros H. apply occurs_at_0.
  destruct (occurs_at s p 0); [done|]. simpl in H. discriminate.
Qed.

(** *** The header names *)




(** *** The configuration left by the handlers *)

Ltac solve_elem :=
  first [ assumption
        | apply list_elem_of_here
        | apply list_elem_of_further; solve_elem ].

Lemma stoi_range (s : str) (v : Z) :
  stoi s = StoiValue v → - 2 ^ 31 ≤ v < 2 ^ 31.
Proof.
  unfold stoi.
  match goal with |- context [let '(_, _) := ?m in _] => destruct m as [neg s2] end.
  case_bool_decide; [discriminate|].
  match goal with |- context [if ?b then StoiValue _ else _] =>
    destruct b eqn:Hb; [|discriminate]
  end.
  intros [= <-].
  apply andb_true_iff in Hb as [H1%bool_decide_eq_true H2%bool_decide_eq_true].
  lia.
Qed.

Lemma align_of_value_elem (s v : str) :
  align_of_value s = Some v → v ∈ alignments.
Proof.
  unfold align_of_value, alignments. repeat case_decide; intros [= <-]; solve_elem.
Qed.

Lemma bg_color_of_value_elem (s v : str) :
  bg_color_of_value s = Some v → v ∈ [] :: bg_colors.
Proof.
  unfold bg_color_of_value, bg_colors. repeat case_decide; intros [= <-]; solve_elem.
Qed.

Lemma text_style_of_value_elem (s v : str) :
  text_style_of_value s = Some v → v ∈ [] :: text_styles.
Proof.
  unfold text_style_of_value, text_styles.
  repeat case_decide; intros [= <-]; solve_elem.
Qed.

Lemma text_color_of_value_elem (s v : str) :
  text_color_of_value s = Some v → v ∈ [] :: text_colors.
Proof.
  unfold text_color_of_value, text_colors.
  repeat case_decide; intros [= <-]; solve_elem.
Qed.

Lemma assign_header_body_elem (P : str → Prop) key kb kh v header body :
  P v → P header → P body →
  P (assign_header_body key kb kh v header body).1
  ∧ P (assign_header_body key kb kh v header body).2.
Proof.
  intros Hv Hh Hb. unfold assign_header_body.
  repeat case_decide; simpl; try case_bool_decide; simpl; done.
Qed.

Ltac solve_valid :=
  unfold valid_config; simpl; split_and!;
  first [ done | lia | solve_elem ].

Lemma handle_option_valid cfg opt cfg' :
  valid_config cfg → handle_option cfg opt = Continue cfg' → valid_config cfg'.
Proof.
  intros (Hpad & Hsep & Hha & Hba & Hex & Htc & Hhc & Hbc & Hhb & Hbb & Hhs
          & Hbs & Hstyle).
  unfold handle_option.
  repeat (match goal with
          | |- context [if ?b then _ else _] => destruct b
          end; try discriminate).
  - (* -b *) intros [= <-]. solve_valid.
  - (* --border-style *)
    unfold handle_border_style. destruct (str_find _ _ _); [|discriminate].
    repeat case_decide; try discriminate; intros [= <-];
      solve_valid.
  - (* -f *) intros [= <-]. solve_valid.
  - (* --hdata *)
    unfold handle_hdata. destruct (str_find _ _ _); [|discriminate].
    case_bool_decide; [|discriminate]. intros [= <-]. solve_valid.
  - (* alignment *)
    unfold handle_text_align. destruct (str_find _ _ _); [|discriminate].
    destruct (align_of_value _) as [v|] eqn:Hv; [|discriminate].
    apply align_of_value_elem in Hv.
    match goal with |- context [assign_header_body ?k ?kb ?kh v ?h ?b] =>
      destruct (assign_header_body_elem (λ x, x ∈ alignments) k kb kh v h b)
        as [H1 H2]; [done..|];
      destruct (assign_header_body k kb kh v h b) as [h' b']
    end.
    intros [= <-]. solve_valid.
  - (* background colour *)
    unfold handle_bg_color. destruct (str_find _ _ _); [|discriminate].
    destruct (bg_color_of_value _) as [v|] eqn:Hv; [|discriminate].
    apply bg_color_of_value_elem in Hv.
    match goal with |- context [assign_header_body ?k ?kb ?kh v ?h ?b] =>
      destruct (assign_header_body_elem (λ x, x ∈ [] :: bg_colors) k kb kh v h b)
        as [H1 H2]; [done..|];
      destruct (assign_header_body k kb kh v h b) as [h' b']
    end.
    intros [= <-]. solve_valid.
  - (* text style *)
    unfold handle_text_style. destruct (str_find _ _ _); [|discriminate].
    destruct (text_style_of_value _) as [v|] eqn:Hv; [|discriminate].
    apply text_style_of_value_elem in Hv.
    match goal with |- context [assign_header_body ?k ?kb ?kh v ?h ?b] =>
      destruct (assign_header_body_elem (λ x, x ∈ [] :: text_styles) k kb kh v h b)
        as [H1 H2]; [done..|];
      destruct (assign_header_body k kb kh v h b) as [h' b']
    end.
    intros [= <-]. solve_valid.
  - (* --padding *)
    unfold handle_padding. destruct (str_find _ _ _); [|discriminate].
    destruct (stoi _) as [v| |] eqn:Hv; try discriminate.
    apply stoi_range in Hv. case_decide; [discriminate|].
    intros [= <-]. solve_valid.
  - (* --separator *)
    unfold handle_separator. destruct (str_find _ _ _); [|discriminate].
    repeat case_decide; try discriminate; intros [= <-];
      solve_valid.
  - (* -s *) intros [= <-]. solve_valid.
  - (* text and table colour *)
    unfold handle_text_color. destruct (str_find _ _ _); [|discriminate].
    destruct (text_color_of_value _) as [v|] eqn:Hv; [|discriminate].
    apply text_color_of_value_elem in Hv.
    repeat case_decide; simpl; try case_bool_decide; intros [= <-];
      solve_valid.
  - (* --theme *)
    unfold handle_theme. destruct (str_find _ _ _); [|discriminate].
    repeat case_decide; try discriminate; intros [= <-];
      solve_valid.
Qed.

Lemma default_config_valid : valid_config default_config.
Proof. solve_valid. Qed.

Lemma handle_options_valid args cfg cfg' :
  valid_config cfg → handle_options cfg args = Continue cfg' → valid_config cfg'.
Proof.
  revert cfg. induction args as [|opt args IH]; intros cfg Hv; simpl.
  - by intros [= <-].
  - destruct (handle_option cfg opt) as [cfg1|code] eqn:Hopt; [|discriminate].
    apply IH. by apply (handle_option_valid cfg opt).
Qed.

(** X14. Every configuration with which [main] goes on after the option
    handlers is validated: the padding is a non-negative [int], the
    separator is one of the four policies, the two alignments are among
    left, center and right, the first line is excluded exactly in headerless
    mode, every colour and text style is unset or an escape sequence of its
    group, and the border style is one of the four presets. *)
Theorem parse_args_valid (args : list str) (cfg : config) :
  parse_args args = Continue cfg → valid_config cfg.
Proof.
  unfold parse_args. revert cfg. generalize default_config_valid.
  generalize default_config.
  induction args as [|opt args IH]; intros cfg0 Hv cfg; simpl.
  - by intros [= <-].
  - destruct (handle_option cfg0 opt) as [cfg1|code] eqn:Hopt; [|discriminate].
    apply IH. by apply (handle_option_valid cfg0 opt).
Qed.

Lemma parse_args_valid_witness :
  valid_config
    (set_col_padding 0 (set_header_text_align ALIGN_CENTER
       (set_body_text_align ALIGN_CENTER (simplify default_config)))).
Proof.
  apply (parse_args_valid [lit "-s"; lit "--text-align=center"; lit "--padding=0"]).
  reflexivity.
Defined.

(** *** Arguments that are not options *)

Lemma starts_with_head (s p : str) :
  head p ≠ None → head s ≠ head p → starts_with s p = false.
Proof.
  intros Hp Hne. apply not_true_is_false. intros [k ->]%starts_with_true.
  destruct p; simpl in *; done.
Qed.

(** X15. An argument that does not begin with a dash is never taken as an
    option, whatever the configuration so far: [main] returns 1. The same
    holds for the empty argument. *)
Theorem positional_argument_rejected cfg (opt : str) :
  head opt ≠ Some "-"%char → handle_option cfg opt = Return 1.
Proof.
  intros Hopt. unfold handle_option.
  assert (Hne : ∀ l : str, head l = Some "-"%char → bool_decide (opt = l) = false).
  { intros l Hl. apply bool_decide_eq_false_2. intros ->. done. }
  assert (Hsw : ∀ p : str, head p = Some "-"%char → starts_with opt p = false).
  { intros p Hp. apply starts_with_head; congruence. }
  rewrite !Hne, !Hsw by reflexivity. reflexivity.
Qed.

Lemma positional_argument_rejected_witness :
  handle_option default_config (lit "file.txt") = Return 1.
Proof. apply positional_argument_rejected. discriminate. Defined.

(** *** Options are recognised by prefix *)

Lemma starts_with_app (p s : str) : starts_with (p ++ s) p = true.
Proof.
  unfold starts_with, str_rfind. rewrite bool_decide_eq_true. simpl.
  rewrite filter_cons, filter_nil.
  assert (occurs_at (p ++ s) p 0 = true) as ->; [|done].
  apply occurs_at_0. by exists s.
Qed.

Lemma starts_with_false (s p : str) : ¬ p `prefix_of` s → starts_with s p = false.
Proof. intros Hp. apply not_true_is_false. by intros ?%starts_with_true. Qed.

Lemma occurs_at_char (s : str) (c : ascii) (i : nat) :
  occurs_at s [c] i = true ↔ s !! i = Some c.
Proof.
  unfold occurs_at. rewrite andb_true_iff, !bool_decide_eq_true. simpl.
  replace (s !! i) with (drop i s !! 0%nat)
    by (rewrite lookup_drop; f_equal; lia).
  split.
  - intros [_ Ht]. destruct (drop i s); by simplify_eq/=.
  - intros Hd. split.
    + apply lookup_lt_Some in Hd. rewrite length_drop in Hd. lia.
    + destruct (drop i s); by simplify_eq/=.
Qed.

Lemma head_filter_seq (P : nat → Prop) `{!∀ i, Decision (P i)} (k n : nat) :
  (k < n)%nat → P k → (∀ i, (i < k)%nat → ¬ P i) →
  head (filter P (seq 0 n)) = Some k.
Proof.
  intros Hk HP Hnot.
  replace n with (k + S (n - S k))%nat by lia.
  rewrite seq_app, filter_app. cbn [seq].
  assert (Hnone : ∀ l : list nat, Forall (λ i, ¬ P i) l → filter P l = []).
  { induction 1 as [|i l Hi _ IH]; [done|]. by rewrite filter_cons_False. }
  rewrite Hnone.
  2:{ apply Forall_forall. intros i Hi%elem_of_seq. apply Hnot. lia. }
  by rewrite filter_cons_True.
Qed.

(** [find] of a character that the key does not hold gives the length of
    the key. *)
Lemma str_find_char (key v : str) (c : ascii) :
  c ∉ key → str_find (key ++ c :: v) [c] 0 = Some (length key).
Proof.
  intros Hc. unfold str_find. rewrite Nat.sub_0_r.
  apply head_filter_seq.
  - rewrite length_app. simpl. lia.
  - apply occurs_at_char. by rewrite lookup_app_r, Nat.sub_diag.
  - intros i Hi Hocc. apply occurs_at_char in Hocc.
    rewrite lookup_app_l in Hocc by done.
    apply Hc. by eapply list_elem_of_lookup_2.
Qed.

(** X16. An argument [--htext-align<suffix>=<value>] with a valid alignment
    value is accepted whatever the suffix, since options are recognised by
    their first characters: with no suffix it sets the header alignment
    and keeps the body alignment; with any other suffix it sets the body
    alignment and keeps the header alignment. *)
Theorem header_align_key_with_suffix cfg (suffix option_value v : str) :
  "="%char ∉ suffix → align_of_value option_value = Some v →
  ∃ cfg',
    handle_option cfg (lit "--htext-align" ++ suffix ++ "="%char :: option_value)
    = Continue cfg' ∧
    header_text_align cfg'
    = (if decide (suffix = []) then v else header_text_align cfg) ∧
    body_text_align cfg'
    = (if decide (suffix = []) then body_text_align cfg else v).
Proof.
  intros Heq Hval.
  set (key := lit "--htext-align" ++ suffix).
  assert (Hopt : lit "--htext-align" ++ suffix ++ "="%char :: option_value
                 = key ++ "="%char :: option_value)
    by (subst key; by rewrite <- app_assoc).
  assert (Hfind : str_find (key ++ "="%char :: option_value) (lit "=") 0
                  = Some (length key)).
  { apply str_find_char. subst key. apply not_elem_of_app. split; [|done].
    compute_done. }
  unfold handle_option.
  rewrite !bool_decide_eq_false_2 by (simpl; discriminate).
  rewrite !(starts_with_false _ (lit "--border-style")),
          !(starts_with_false _ (lit "--hdata"))
    by (intros [k Hk]; simpl in Hk; discriminate).
  rewrite starts_with_app. cbn [orb].
  unfold handle_text_align. rewrite Hopt, Hfind.
  rewrite take_app_length, drop_app_ge by lia.
  replace (length key + 1 - length key)%nat with 1%nat by lia.
  change (drop 1 ("="%char :: option_value)) with option_value.
  rewrite Hval. unfold assign_header_body.
  rewrite decide_False by (subst key; simpl; discriminate).
  destruct (decide (suffix = [])) as [-> | Hs].
  - rewrite decide_True by (subst key; by rewrite app_nil_r).
    eexists. split; [done|]. done.
  - rewrite decide_False.
    + eexists. split; [done|]. done.
    + subst key. intros Hk.
      apply (f_equal length) in Hk. rewrite length_app in Hk.
      destruct suffix; [done|]. simpl in Hk. lia.
Qed.

Lemma header_align_key_with_suffix_witness :
  ∃ cfg',
    handle_option default_config (lit "--htext-alignment=center") = Continue cfg' ∧
    header_text_align cfg' = ALIGN_LEFT ∧ body_text_align cfg' = ALIGN_CENTER.
Proof.
  apply (header_align_key_with_suffix default_config (lit "ment") (lit "center")
           ALIGN_CENTER).
  - compute_done.
  - reflexivity.
Defined.

(** ** The shape of the output *)

(** *** What a border line is made of *)

Lemma border_column_fill_chunks w temp max (m f : str) :
  Forall (λ ch : str, ch = f ∨ ch = m) (border_column_fill w temp max m f).
Proof.
  unfold border_column_fill. apply Forall_flat_map, Forall_forall.
  intros i _. constructor; [by left|].
  destruct (_ && _); by repeat constructor.
Qed.

Lemma get_tab_border_oss_chunks n (ws : list Z) (l m r f color : str) :
  (n ≤ length ws)%nat →
  ∃ body : ostream,
    get_tab_border_oss n ws l m r f color
    = Some ([color; l] ++ body ++ [r; DEFAULT; endl]) ∧
    Forall (λ ch : str, ch = f ∨ ch = m) body.
Proof.
  intros Hn. unfold get_tab_border_oss.
  match goal with |- context [for_each ?body ?init ?idxs] =>
    destruct (for_each_invariant body
      (λ _ acc, ∃ pre, acc.2 = [color; l] ++ pre
                       ∧ Forall (λ ch : str, ch = f ∨ ch = m) pre) init idxs)
      as (acc & -> & pre & Hacc & Hpre)
  end.
  - by exists [].
  - intros dn x [t o] [rest Hr] (pre & Ho & Hpre).
    apply range_prefix in Hr as [_ Hx]. simpl in Ho. subst o.
    unfold border_column.
    destruct (lookup_lt_is_Some_2 ws x ltac:(lia)) as [w ->]. simpl.
    eexists. split; [done|]. simpl. eexists. split; [done|].
    apply Forall_app. split; [done|]. apply border_column_fill_chunks.
  - exists pre. simpl. rewrite Hacc. split; [|done].
    by rewrite <- app_assoc.
Qed.

(** *** Counting lines *)

Lemma count_lines_app (s t : str) :
  count_lines (s ++ t) = (count_lines s + count_lines t)%nat.
Proof. unfold count_lines. by rewrite filter_app, length_app. Qed.

Lemma count_lines_none (s : str) : NEWLINE ∉ s → count_lines s = 0%nat.
Proof.
  unfold count_lines. induction s as [|c s IH]; [done|].
  intros [Hc Hs]%not_elem_of_cons. rewrite filter_cons_False by congruence.
  by apply IH.
Qed.

Lemma count_lines_concat_none (o : ostream) :
  Forall (λ ch : str, NEWLINE ∉ ch) o → count_lines (concat o) = 0%nat.
Proof.
  induction 1 as [|ch o Hch _ IH]; [done|]. simpl.
  by rewrite count_lines_app, IH, count_lines_none.
Qed.

Lemma count_lines_border cfg n (ws : list Z) (b : border_line) text :
  NEWLINE ∉ table_color cfg →
  NEWLINE ∉ left_char_unicode b → NEWLINE ∉ mid_char_unicode b →
  NEWLINE ∉ right_char_unicode b → NEWLINE ∉ fill_char_unicode b →
  (n ≤ length ws)%nat →
  border_of cfg n ws b = Some text → count_lines text = 1%nat.
Proof.
  intros Hc Hl Hm Hr Hf Hn. unfold border_of, get_tab_border.
  destruct (get_tab_border_oss_chunks n ws (left_char_unicode b)
    (mid_char_unicode b) (right_char_unicode b) (fill_char_unicode b)
    (table_color cfg) Hn) as (body & -> & Hbody).
  simpl. intros [= <-].
  rewrite !count_lines_app, (count_lines_none (table_color cfg)),
    (count_lines_none (left_char_unicode b)) by done.
  unfold oss_str. rewrite concat_app, count_lines_app.
  rewrite count_lines_concat_none.
  - simpl. rewrite !count_lines_app, (count_lines_none (right_char_unicode b)) by done.
    reflexivity.
  - eapply Forall_impl; [exact Hbody|]. by intros ch [-> | ->].
Qed.

Lemma Forall_string_n (P : ascii → Prop) n c : P c → Forall P (string_n n c).
Proof. intros Hc. by apply Forall_replicate. Qed.

Lemma Forall_rendered_cell (P : ascii → Prop) (c a : str) (w : Z) :
  P SPACE → Forall P c →
  Forall P (setw_left (align_text c w a).1 (align_text c w a).2).
Proof.
  intros Hsp Hc. unfold setw_left. apply Forall_app.
  split; [|by apply Forall_string_n].
  unfold align_text. repeat case_decide; cbn [snd];
    rewrite ?Forall_app; split_and?; done || by apply Forall_string_n.
Qed.

Ltac elem_cases H :=
  repeat (apply elem_of_cons in H as [-> | H]); [..|by apply elem_of_nil in H].

Lemma text_colors_no_newline (s : str) : s ∈ [] :: text_colors → NEWLINE ∉ s.
Proof.
  intros H. unfold text_colors in H. elem_cases H;
    compute_done.
Qed.

Lemma bg_colors_no_newline (s : str) : s ∈ [] :: bg_colors → NEWLINE ∉ s.
Proof.
  intros H. unfold bg_colors in H. elem_cases H; compute_done.
Qed.

Lemma text_styles_no_newline (s : str) : s ∈ [] :: text_styles → NEWLINE ∉ s.
Proof.
  intros H. unfold text_styles in H. elem_cases H; compute_done.
Qed.

(** The glyphs of the four presets hold no newline and no escape
    character. *)
Lemma preset_glyphs (style : tab_border) (c : ascii) :
  style ∈ [tab_border_style_default; double_border_style; heavy_border_style;
           star_border_style] →
  c = NEWLINE ∨ c = ESC →
  (c ∉ vertical_line style) ∧
  Forall (λ b : border_line,
    (c ∉ left_char_unicode b) ∧ (c ∉ mid_char_unicode b) ∧
    (c ∉ right_char_unicode b) ∧ (c ∉ fill_char_unicode b))
    [top style; separator style; bottom style].
Proof.
  intros H Hc. elem_cases H; destruct Hc as [-> | ->];
    (split; [|repeat constructor]); compute_done.
Qed.

Lemma not_elem_of_Forall (c : ascii) (s : str) :
  c ∉ s ↔ Forall (λ x, x ≠ c) s.
Proof.
  rewrite Forall_forall. split.
  - intros Hc x Hx ->. done.
  - intros H Hc. by apply (H c).
Qed.

Lemma not_elem_of_app3 (c : ascii) (s1 s2 s3 : str) :
  c ∉ s1 → c ∉ s2 → c ∉ s3 → c ∉ s1 ++ s2 ++ s3.
Proof. intros. rewrite !not_elem_of_app. done. Qed.

Lemma count_lines_cell cfg fl (ws : list Z) (row : list str) i :
  valid_config cfg → Forall (λ c : str, NEWLINE ∉ c) row →
  count_lines (concat (cell_chunks cfg fl ws row i)) = 0%nat.
Proof.
  intros (_ & _ & _ & _ & _ & Htc & Hhc & Hbc & Hhb & Hbb & Hhs & Hbs & Hstyle) Hrow.
  apply count_lines_concat_none. unfold cell_chunks.
  destruct (preset_glyphs _ NEWLINE Hstyle ltac:(by left)) as [Hv _].
  repeat constructor.
  - destruct (_ && _); [|apply not_elem_of_nil].
    apply not_elem_of_app3;
      auto using text_colors_no_newline, bg_colors_no_newline, text_styles_no_newline.
  - destruct (_ || _); [|apply not_elem_of_nil].
    apply not_elem_of_app3;
      auto using text_colors_no_newline, bg_colors_no_newline, text_styles_no_newline.
  - apply not_elem_of_Forall, Forall_rendered_cell; [done|].
    apply not_elem_of_Forall. destruct (row !! i) as [c|] eqn:Hc; simpl.
    + rewrite Forall_lookup in Hrow. by apply (Hrow _ _ Hc).
    + apply not_elem_of_nil.
  - compute_done.
  - by apply text_colors_no_newline.
  - destruct (use_border cfg); [done|apply not_elem_of_nil].
Qed.

Lemma count_lines_cells cfg fl (ws : list Z) (row : list str) (idxs : list nat) :
  valid_config cfg → Forall (λ c : str, NEWLINE ∉ c) row →
  count_lines (concat (flat_map (cell_chunks cfg fl ws row) idxs)) = 0%nat.
Proof.
  intros Hv Hrow. induction idxs as [|i idxs IH]; [done|].
  cbn [flat_map]. rewrite concat_app, count_lines_app, IH.
  by rewrite count_lines_cell.
Qed.

Lemma count_lines_rows cfg n (ws : list Z) bt bs (tab : list (list str)) :
  valid_config cfg →
  Forall (Forall (λ c : str, NEWLINE ∉ c)) tab →
  count_lines bt = 1%nat → count_lines bs = 1%nat →
  count_lines (concat (rows_chunks cfg n ws true bt bs tab))
  = (length tab + (border_line_count cfg tab - if use_border cfg then 1 else 0))%nat.
Proof.
  intros Hv Htab Hbt Hbs.
  assert (Hrow : ∀ fl row, Forall (λ c : str, NEWLINE ∉ c) row →
    count_lines (concat (row_chunks cfg n ws fl bt bs row))
    = (1 + (if fl && use_border cfg then 1 else 0)
         + (if fl && negb (headerless cfg) && use_border cfg && use_separator cfg
            then 1 else 0))%nat).
  { intros fl row Hr. unfold row_chunks.
    pose proof Hv as (_ & _ & _ & _ & _ & Htc & _ & _ & _ & _ & _ & _ & Hstyle).
    destruct (preset_glyphs _ NEWLINE Hstyle ltac:(by left)) as [Hvl _].
    pose proof (text_colors_no_newline _ Htc) as Hc.
    rewrite !concat_app, !count_lines_app, count_lines_cells by done.
    destruct fl, (use_border cfg), (headerless cfg), (use_separator cfg); simpl;
      rewrite ?app_nil_r, ?count_lines_app, ?Hbt, ?Hbs,
        ?(count_lines_none (table_color cfg)),
        ?(count_lines_none (vertical_line (tab_border_style cfg))) by done;
      reflexivity. }
  assert (Hbody : ∀ t, Forall (Forall (λ c : str, NEWLINE ∉ c)) t →
    count_lines (concat (rows_chunks cfg n ws false bt bs t)) = length t).
  { induction 1 as [|row t Hr _ IH]; [done|]. cbn [rows_chunks].
    rewrite concat_app, count_lines_app, IH, Hrow by done. simpl. lia. }
  destruct Htab as [|row tab Hr Htab].
  - unfold border_line_count. simpl. by destruct (use_border cfg).
  - cbn [rows_chunks]. rewrite concat_app, count_lines_app, Hbody, Hrow by done.
    unfold border_line_count. simpl.
    destruct (use_border cfg), (headerless cfg), (use_separator cfg); simpl; lia.
Qed.

Lemma read_stdin_no_newline cfg (stdin : str) :
  Forall (Forall (λ c : str, NEWLINE ∉ c)) (read_stdin cfg stdin).
Proof.
  eapply Forall_impl; [apply read_stdin_tokens|]. intros row [_ Hrow].
  eapply Forall_impl; [exact Hrow|]. intros c [_ Hc]. simpl.
  intros Hnl. rewrite Forall_forall in Hc. specialize (Hc _ Hnl).
  by rewrite is_wspace_newline in Hc.
Qed.

Lemma set_header_cells (P : str → Prop) cfg (tab tab' : list (list str)) :
  Forall P (usrinput_header_data cfg) → Forall (Forall P) tab →
  set_header cfg tab = Some tab' → Forall (Forall P) tab'.
Proof.
  intros Hh Htab. unfold set_header. destruct (_ && _); [|by intros [= <-]].
  destruct (tab !! 0%nat); simpl; [|discriminate]. intros [= <-].
  by apply Forall_insert.
Qed.

(** X17. For a validated configuration and header names without newline,
    whenever the header assignment does not fault [main] completes, and its
    output has exactly one line per row of the table plus the border lines:
    none without borders, the bottom border alone for an empty table, else
    top and bottom and, unless headerless or with [--fusion], the
    separator. *)
Theorem output_line_count cfg (stdin : str) (tab : list (list str)) :
  valid_config cfg →
  Forall (λ name : str, NEWLINE ∉ name) (usrinput_header_data cfg) →
  set_header cfg (read_stdin cfg stdin) = Some tab →
  ∃ out : str,
    main_output cfg stdin = Some out ∧
    count_lines out = (length tab + border_line_count cfg tab)%nat.
Proof.
  intros Hv Hnames Hset.
  pose proof (set_header_cells _ cfg _ _ Hnames (read_stdin_no_newline cfg stdin) Hset)
    as Htab.
  destruct (main_after_header cfg stdin tab Hset)
    as (ws & bt & bs & bb & Hws & Hlen & Hbt & Hbs & Hbb & Hmain).
  unfold main_output. rewrite Hmain. simpl. eexists. split; [done|].
  pose proof Hv as (_ & _ & _ & _ & _ & Htc & _ & _ & _ & _ & _ & _ & Hstyle).
  destruct (preset_glyphs _ NEWLINE Hstyle ltac:(by left)) as [_ Hg].
  apply Forall_cons in Hg as [(?&?&?&?) Hg].
  apply Forall_cons in Hg as [(?&?&?&?) Hg].
  apply Forall_cons in Hg as [(?&?&?&?) _].
  pose proof (text_colors_no_newline _ Htc) as Hc.
  apply count_lines_border in Hbt; [|done..|lia].
  apply count_lines_border in Hbs; [|done..|lia].
  apply count_lines_border in Hbb; [|done..|lia].
  unfold oss_str. rewrite concat_app, count_lines_app.
  rewrite (count_lines_rows cfg _ ws bt bs tab) by done.
  unfold border_line_count.
  destruct (use_border cfg); simpl; rewrite ?app_nil_r, ?Hbb;
    destruct tab; simpl; repeat case_match;
    change (count_lines []) with 0%nat; lia.
Qed.

Lemma output_line_count_witness :
  ∃ out : str,
    main_output default_config (lit "a b" ++ [NEWLINE] ++ lit "c" ++ [NEWLINE])
    = Some out ∧ count_lines out = 5%nat.
Proof.
  apply (output_line_count default_config _ [[lit "a"; lit "b"]; [lit "c"]]).
  - unfold valid_config; simpl; split_and!; first [done | lia | solve_elem].
  - constructor.
  - reflexivity.
Defined.

(** ** Colour without a table colour *)

Lemma term_plain (s : str) (t : terminal) :
  mode t = Text → ESC ∉ s → NEWLINE ∉ s → foldl term_step t s = t.
Proof.
  revert t. induction s as [|c s IH]; intros t Hm Hesc Hnl; [done|].
  apply not_elem_of_cons in Hesc as [? ?].
  apply not_elem_of_cons in Hnl as [? ?].
  simpl. assert (term_step t c = t) as ->; [|by apply IH].
  unfold term_step. rewrite Hm.
  by rewrite !bool_decide_eq_false_2 by done.
Qed.

Lemma term_calm (s : str) (t : terminal) :
  calm t → ESC ∉ s → calm (foldl term_step t s).
Proof.
  revert t. induction s as [|c s IH]; intros t Ht Hesc; [done|].
  apply not_elem_of_cons in Hesc as [? ?].
  simpl. apply IH; [|done]. destruct Ht as [[Hm Hl] Hs].
  unfold term_step. rewrite Hm, bool_decide_eq_false_2 by done.
  case_bool_decide; [|done]. unfold calm, quiet. simpl. by rewrite Hl, Hs.
Qed.

Lemma term_code (s : str) (t : terminal) :
  s ∈ ([] :: text_colors) ++ ([] :: bg_colors) ++ ([] :: text_styles) →
  quiet t → quiet (foldl term_step t s).
Proof.
  intros Hs [Hm Hl]. destruct t as [m st lk]. simpl in *. subst m lk.
  unfold text_colors, bg_colors, text_styles in Hs. simpl in Hs.
  elem_cases Hs; by vm_compute.
Qed.

Lemma term_DEFAULT (t : terminal) :
  quiet t → calm (foldl term_step t DEFAULT).
Proof.
  intros [Hm Hl]. destruct t as [m st lk]. simpl in *. subst m lk.
  by vm_compute.
Qed.

Lemma calm_quiet (t : terminal) : calm t → quiet t.
Proof. by intros [? _]. Qed.

Lemma not_elem_of_concat (c : ascii) (o : ostream) :
  Forall (λ ch : str, c ∉ ch) o → c ∉ concat o.
Proof.
  induction 1 as [|ch o Hch _ IH]; simpl; [apply not_elem_of_nil|].
  by apply not_elem_of_app.
Qed.

Lemma calm_border cfg n (ws : list Z) (b : border_line) text (t : terminal) :
  table_color cfg = [] →
  ESC ∉ left_char_unicode b → ESC ∉ mid_char_unicode b →
  ESC ∉ right_char_unicode b → ESC ∉ fill_char_unicode b →
  (n ≤ length ws)%nat →
  border_of cfg n ws b = Some text →
  calm t → calm (foldl term_step t text).
Proof.
  intros Hc Hl Hm Hr Hf Hn. unfold border_of, get_tab_border. rewrite Hc.
  destruct (get_tab_border_oss_chunks n ws (left_char_unicode b)
    (mid_char_unicode b) (right_char_unicode b) (fill_char_unicode b)
    [] Hn) as (body & -> & Hbody).
  simpl. intros [= <-] Ht. unfold oss_str.
  rewrite foldl_app, concat_app, foldl_app. cbn [concat].
  rewrite app_nil_r, 2!foldl_app.
  apply term_calm; [|compute_done].
  apply term_DEFAULT, calm_quiet.
  apply term_calm; [|done]. apply term_calm.
  - by apply term_calm.
  - apply not_elem_of_concat.
    eapply Forall_impl; [exact Hbody|]. by intros ch [-> | ->].
Qed.

Lemma term_codes (s1 s2 s3 : str) (t : terminal) :
  s1 ∈ [] :: text_styles → s2 ∈ [] :: bg_colors → s3 ∈ [] :: text_colors →
  quiet t → quiet (foldl term_step t (s1 ++ s2 ++ s3)).
Proof.
  intros H1 H2 H3 Ht. rewrite !foldl_app.
  apply term_code; [by apply elem_of_app; left|].
  apply term_code; [apply elem_of_app; right; by apply elem_of_app; left|].
  apply term_code; [|done].
  apply elem_of_app; right. by apply elem_of_app; right.
Qed.

Lemma calm_cell cfg fl (ws : list Z) (row : list str) i (t : terminal) :
  valid_config cfg → table_color cfg = [] →
  Forall (λ c : str, (ESC ∉ c) ∧ (NEWLINE ∉ c)) row →
  calm t → calm (foldl term_step t (concat (cell_chunks cfg fl ws row i))).
Proof.
  intros (_ & _ & _ & _ & _ & _ & Hhc & Hbc & Hhb & Hbb & Hhs & Hbs & Hstyle)
    Htc Hrow Ht.
  destruct (preset_glyphs _ ESC Hstyle ltac:(by right)) as [Hv _].
  unfold cell_chunks. rewrite Htc. cbn [concat]. rewrite !foldl_app.
  simpl. apply term_calm.
  2:{ destruct (use_border cfg); [done|apply not_elem_of_nil]. }
  apply term_DEFAULT.
  assert (Hcell : (ESC ∉ default [] (row !! i)) ∧ (NEWLINE ∉ default [] (row !! i))).
  { destruct (row !! i) as [c|] eqn:Hc; simpl.
    - rewrite Forall_lookup in Hrow. by apply (Hrow _ _ Hc).
    - split; apply not_elem_of_nil. }
  destruct Hcell as [Hesc Hnl].
  rewrite term_plain.
  - destruct (_ || _).
    + apply term_codes; try done.
      destruct (_ && _); [by apply term_codes, calm_quiet|by apply calm_quiet].
    + destruct (_ && _); [by apply term_codes, calm_quiet|by apply calm_quiet].
  - assert (Hq : quiet (foldl term_step
      (foldl term_step t
         (if fl && negb (headerless cfg)
          then header_text_style cfg ++ header_bg_color cfg ++ header_text_color cfg
          else []))
      (if negb fl || headerless cfg
       then body_text_style cfg ++ body_bg_color cfg ++ body_text_color cfg
       else []))); [|by destruct Hq].
    destruct (_ || _).
    + apply term_codes; try done.
      destruct (_ && _); [by apply term_codes, calm_quiet|by apply calm_quiet].
    + destruct (_ && _); [by apply term_codes, calm_quiet|by apply calm_quiet].
  - apply not_elem_of_Forall, Forall_rendered_cell; [done|].
    by apply not_elem_of_Forall.
  - apply not_elem_of_Forall, Forall_rendered_cell; [done|].
    by apply not_elem_of_Forall.
Qed.

Lemma calm_cells cfg fl (ws : list Z) (row : list str) (idxs : list nat)
    (t : terminal) :
  valid_config cfg → table_color cfg = [] →
  Forall (λ c : str, (ESC ∉ c) ∧ (NEWLINE ∉ c)) row →
  calm t →
  calm (foldl term_step t (concat (flat_map (cell_chunks cfg fl ws row) idxs))).
Proof.
  intros Hv Htc Hrow. revert t. induction idxs as [|i idxs IH]; intros t Ht; [done|].
  cbn [flat_map]. rewrite concat_app, foldl_app. by apply IH, calm_cell.
Qed.

Lemma calm_row cfg n (ws : list Z) fl bt bs (row : list str) (t : terminal) :
  valid_config cfg → table_color cfg = [] →
  Forall (λ c : str, (ESC ∉ c) ∧ (NEWLINE ∉ c)) row →
  (∀ t, calm t → calm (foldl term_step t bt)) →
  (∀ t, calm t → calm (foldl term_step t bs)) →
  calm t →
  calm (foldl term_step t (concat (row_chunks cfg n ws fl bt bs row))).
Proof.
  intros Hv Htc Hrow Hbt Hbs Ht. unfold row_chunks.
  pose proof Hv as (_ & _ & _ & _ & _ & _ & _ & _ & _ & _ & _ & _ & Hstyle).
  destruct (preset_glyphs _ ESC Hstyle ltac:(by right)) as [Hvl _].
  rewrite !concat_app, !foldl_app.
  assert (H4 : ∀ t, calm t → calm (foldl term_step t
    (concat (if fl && negb (headerless cfg) && use_border cfg && use_separator cfg
             then [bs] else [])))).
  { intros t' Ht'. destruct (_ && _); simpl; [|done].
    rewrite app_nil_r. by apply Hbs. }
  apply H4. apply term_calm; [|compute_done].
  apply calm_cells; try done.
  destruct (use_border cfg).
  - rewrite andb_true_r, Htc. cbn [concat app foldl].
    rewrite app_nil_r, foldl_app.
    apply term_DEFAULT, calm_quiet, term_calm; [|done].
    destruct fl; simpl; [|done]. rewrite app_nil_r. by apply Hbt.
  - by rewrite andb_false_r.
Qed.

Lemma calm_rows cfg n (ws : list Z) fl bt bs (tab : list (list str))
    (t : terminal) :
  valid_config cfg → table_color cfg = [] →
  Forall (Forall (λ c : str, (ESC ∉ c) ∧ (NEWLINE ∉ c))) tab →
  (∀ t, calm t → calm (foldl term_step t bt)) →
  (∀ t, calm t → calm (foldl term_step t bs)) →
  calm t →
  calm (foldl term_step t (concat (rows_chunks cfg n ws fl bt bs tab))).
Proof.
  intros Hv Htc Htab Hbt Hbs. revert fl t.
  induction Htab as [|row tab Hrow _ IH]; intros fl t Ht; [done|].
  cbn [rows_chunks]. rewrite concat_app, foldl_app.
  by apply IH, calm_row.
Qed.

(** X18. For a validated configuration without table colour, an input
    without escape character and header names without escape character and
    newline, whenever the header assignment does not fault [main]
    completes, and in its output every header and body style is reset
    before its line ends: no attribute is active at the end of any line or
    of the output. *)
Theorem styles_reset_before_line_end cfg (stdin : str) (tab : list (list str)) :
  valid_config cfg → table_color cfg = [] →
  ESC ∉ stdin →
  Forall (λ name : str, (ESC ∉ name) ∧ (NEWLINE ∉ name))
    (usrinput_header_data cfg) →
  set_header cfg (read_stdin cfg stdin) = Some tab →
  ∃ out : str, main_output cfg stdin = Some out ∧ sgr_leak out = false.
Proof.
  intros Hv Htc Hesc Hnames Hset.
  assert (Htab : Forall (Forall (λ c : str, (ESC ∉ c) ∧ (NEWLINE ∉ c))) tab).
  { apply (set_header_cells _ cfg (read_stdin cfg stdin)); [done| |done].
    pose proof (read_stdin_no_newline cfg stdin) as Hnl.
    pose proof (read_stdin_Forall (λ ch, ch ≠ ESC) cfg stdin) as Hin.
    specialize (Hin ltac:(by apply not_elem_of_Forall)).
    revert Hnl Hin. generalize (read_stdin cfg stdin) as rows.
    induction rows as [|row rows IH]; [done|].
    intros [Hr1 Hn]%Forall_cons [Hr2 Hi]%Forall_cons.
    constructor; [|by apply IH]. clear IH Hn Hi.
    induction row as [|c row IH]; [done|].
    apply Forall_cons in Hr1 as [? ?]. apply Forall_cons in Hr2 as [? ?].
    constructor; [|by apply IH]. split; [|done].
    by apply not_elem_of_Forall. }
  destruct (main_after_header cfg stdin tab Hset)
    as (ws & bt & bs & bb & Hws & Hlen & Hbt & Hbs & Hbb & Hmain).
  unfold main_output. rewrite Hmain. simpl. eexists. split; [done|].
  pose proof Hv as (_ & _ & _ & _ & _ & _ & _ & _ & _ & _ & _ & _ & Hstyle).
  destruct (preset_glyphs _ ESC Hstyle ltac:(by right)) as [_ Hg].
  apply Forall_cons in Hg as [(?&?&?&?) Hg].
  apply Forall_cons in Hg as [(?&?&?&?) Hg].
  apply Forall_cons in Hg as [(?&?&?&?) _].
  assert (Hc : calm (foldl term_step terminal_init
    (oss_str (rows_chunks cfg (get_max_col_count tab) ws true bt bs tab
              ++ (if use_border cfg then [bb] else []))))).
  { unfold oss_str. rewrite concat_app, foldl_app.
    assert (Hrows : calm (foldl term_step terminal_init
      (concat (rows_chunks cfg (get_max_col_count tab) ws true bt bs tab)))).
    { apply calm_rows; try done.
      - intros t.
        refine (calm_border cfg _ ws (top (tab_border_style cfg)) bt t
                  Htc _ _ _ _ _ Hbt); (done || lia).
      - intros t.
        refine (calm_border cfg _ ws (separator (tab_border_style cfg)) bs t
                  Htc _ _ _ _ _ Hbs); (done || lia). }
    destruct (use_border cfg); simpl; [|done]. rewrite app_nil_r.
    refine (calm_border cfg _ ws (bottom (tab_border_style cfg)) bb _
              Htc _ _ _ _ _ Hbb Hrows); (done || lia). }
  unfold sgr_leak. destruct Hc as [[_ ->] ->]. done.
Qed.

Lemma styles_reset_before_line_end_witness :
  ∃ out : str,
    main_output (set_header_text_style BOLD (set_body_text_color GREEN default_config))
      (lit "a b" ++ [NEWLINE] ++ lit "c" ++ [NEWLINE]) = Some out
    ∧ sgr_leak out = false.
Proof.
  apply (styles_reset_before_line_end _ _ [[lit "a"; lit "b"]; [lit "c"]]).
  - unfold valid_config; simpl; split_and!; first [done | lia | solve_elem].
  - reflexivity.
  - compute_done.
  - constructor.
  - reflexivity.
Defined.
